(** * HTLC bridge contracts (PyTeal, Algorand): a shallow embedding

    The repository holds several PyTeal approval programs implementing
    hash-time-locked contracts.  Each handler of the source is a
    [Seq([...])] of assertions, state writes and inner payments run by
    the AVM.  This development embeds the handlers as functions over an
    explicit application state, with a small abort-carrying monad, and
    proves the lifecycle properties of the engine about them. *)

From Stdlib Require Import ZArith String Ascii List Lia.
From stdpp Require Import base tactics option list gmap strings.

Local Open Scope string_scope.
Local Open Scope Z_scope.

(** ** SHA-256 (FIPS 180-4), the hash behind PyTeal's [Sha256] *)

Module SHA256.

Definition w32 (x : Z) : Z := x mod 4294967296.
Definition rotr (n x : Z) : Z :=
  Z.lor (Z.shiftr x n) (w32 (Z.shiftl x (32 - n))).
Definition Ch (x y z : Z) : Z :=
  Z.lxor (Z.land x y) (Z.land (Z.lxor x (4294967296 - 1)) z).
Definition Maj (x y z : Z) : Z :=
  Z.lxor (Z.lxor (Z.land x y) (Z.land x z)) (Z.land y z).
Definition Sigma0 (x : Z) : Z := Z.lxor (Z.lxor (rotr 2 x) (rotr 13 x)) (rotr 22 x).
Definition Sigma1 (x : Z) : Z := Z.lxor (Z.lxor (rotr 6 x) (rotr 11 x)) (rotr 25 x).
Definition sigma0 (x : Z) : Z := Z.lxor (Z.lxor (rotr 7 x) (rotr 18 x)) (Z.shiftr x 3).
Definition sigma1 (x : Z) : Z := Z.lxor (Z.lxor (rotr 17 x) (rotr 19 x)) (Z.shiftr x 10).

(** Round constants, in decimal. *)
Definition K : list Z :=
  [
    1116352408; 1899447441; 3049323471; 3921009573; 961987163;
    1508970993; 2453635748; 2870763221; 3624381080; 310598401;
    607225278; 1426881987; 1925078388; 2162078206; 2614888103;
    3248222580; 3835390401; 4022224774; 264347078; 604807628;
    770255983; 1249150122; 1555081692; 1996064986; 2554220882;
    2821834349; 2952996808; 3210313671; 3336571891; 3584528711;
    113926993; 338241895; 666307205; 773529912; 1294757372;
    1396182291; 1695183700; 1986661051; 2177026350; 2456956037;
    2730485921; 2820302411; 3259730800; 3345764771; 3516065817;
    3600352804; 4094571909; 275423344; 430227734; 506948616;
    659060556; 883997877; 958139571; 1322822218; 1537002063;
    1747873779; 1955562222; 2024104815; 2227730452; 2361852424;
    2428436474; 2756734187; 3204031479; 3329325298
  ].

(** Initial hash value, in decimal. *)
Definition H0 : list Z :=
  [
    1779033703; 3144134277; 1013904242; 2773480762;
    1359893119; 2600822924; 528734635; 1541459225
  ].

(** Big-endian encoding of [x] on [n] bytes. *)
Fixpoint be_bytes (n : nat) (x : Z) : list Z :=
  match n with
  | O => []
  | S m => be_bytes m (x / 256) ++ [x mod 256]
  end.

Definition be_value (bs : list Z) : Z :=
  fold_left (fun acc b => acc * 256 + b) bs 0.

(** Message padding: a 1 bit, zeros, and the bit length on 64 bits. *)
Definition pad (msg : list Z) : list Z :=
  let len := Z.of_nat (length msg) in
  let zeros := Z.to_nat ((55 - len) mod 64) in
  msg ++ [128] ++ repeat 0 zeros ++ be_bytes 8 (8 * len).

Fixpoint words (n : nat) (bs : list Z) : list Z :=
  match n with
  | O => []
  | S m => be_value (firstn 4 bs) :: words m (skipn 4 bs)
  end.

(** Message schedule, kept newest-first: [w] holds W[t-1], W[t-2], ... *)
Fixpoint schedule (n : nat) (w : list Z) : list Z :=
  match n with
  | O => w
  | S m =>
      let wt := w32 (sigma1 (nth 1 w 0) + nth 6 w 0 + sigma0 (nth 14 w 0) + nth 15 w 0) in
      schedule m (wt :: w)
  end.

Definition round (st : list Z) (kw : Z * Z) : list Z :=
  match st with
  | [a; b; c; d; e; f; g; h] =>
      let t1 := h + Sigma1 e + Ch e f g + fst kw + snd kw in
      let t2 := Sigma0 a + Maj a b c in
      [w32 (t1 + t2); a; b; c; w32 (d + t1); e; f; g]
  | _ => st
  end.

Definition compress (h : list Z) (block : list Z) : list Z :=
  let w := rev (schedule 48 (rev (words 16 block))) in
  let st := fold_left round (combine K w) h in
  map (fun p => w32 (fst p + snd p)) (combine h st).

Fixpoint blocks (n : nat) (h : list Z) (bs : list Z) : list Z :=
  match n with
  | O => h
  | S m => blocks m (compress h (firstn 64 bs)) (skipn 64 bs)
  end.

Definition digest (msg : list Z) : list Z :=
  let p := pad msg in
  flat_map (be_bytes 4) (blocks (length p / 64) H0 p).

End SHA256.

Definition bytes_of_string (s : string) : list Z :=
  map (fun a => Z.of_N (N_of_ascii a)) (list_ascii_of_string s).
Definition string_of_bytes (bs : list Z) : string :=
  string_of_list_ascii (map (fun b => ascii_of_N (Z.to_N b)) bs).

(** [Sha256(e)]: byte strings are Rocq strings (an [ascii] is a byte). *)
Definition Sha256 (s : string) : string :=
  string_of_bytes (SHA256.digest (bytes_of_string s)).

(** ** The AVM fragment the handlers use

    Conventions, after the TEAL specification: a value is a 64-bit
    unsigned integer or a byte string; reading a missing key pushes
    integer 0; [==] fails on operands of different types and the order
    comparisons and the arithmetic fail on byte strings; [+] fails on
    overflow and [-] on underflow; [btoi] fails on more than 8 bytes; an
    argument index out of range fails.  Every account is taken to have
    opted in.  An inner payment is recorded as a request to the transfer
    executor, which is outside the contracts. *)

(** A TEAL stack value: a 64-bit unsigned integer or a byte string. *)
Inductive value : Type :=
  | VInt (n : Z)
  | VBytes (b : string).

Global Instance value_eq_dec : EqDecision value.
Proof. solve_decision. Defined.

Definition MAX_UINT64 : Z := 18446744073709551615.

(** The failure names of the engine.  The AVM itself only rejects the
    transaction; every [Assert] of the source is tagged here with the
    name of the failure it guards.  [RuntimePanic] is an AVM error raised
    while evaluating an expression (operands of different types,
    arithmetic overflow, a missing argument); [Rejected] is
    [Return(Int(0))]. *)
Inductive error : Type :=
  | InvalidArgumentCount | DuplicateId | NotFound | InvalidAmount
  | InvalidFillAmount | InvalidTimelock | NotYetExpired | Expired
  | HashMismatch | AlreadyFinalized | AlreadySet | Unauthorized
  | RuntimePanic | Rejected.

(** An inner payment handed to the transfer executor. *)
Record payment : Type := Payment {
  pay_amount : value;
  pay_receiver : value
}.

(** The transaction and the global fields a handler reads. *)
Record call : Type := Call {
  Txn_application_id : Z;
  Txn_sender : string;
  Txn_application_args : list string;
  Global_latest_timestamp : Z;
  Global_current_application_address : string
}.

(** Application state: the global key-value store, the local stores of
    the accounts (keyed by account and key), and the inner payments
    submitted so far. *)
Record state : Type := State {
  globals : gmap string value;
  locals : gmap (string * string) value;
  inner_txns : list payment
}.

Definition empty_state : state := State ∅ ∅ [].

(** [app_global_get] and [app_local_get] push integer 0 for a missing key. *)
Definition gget (s : state) (k : string) : value :=
  default (VInt 0) (globals s !! k).
Definition lget (s : state) (a k : string) : value :=
  default (VInt 0) (locals s !! (a, k)).
Definition gput (k : string) (v : value) (s : state) : state :=
  State (<[k := v]> (globals s)) (locals s) (inner_txns s).
Definition lput (a k : string) (v : value) (s : state) : state :=
  State (globals s) (<[(a, k) := v]> (locals s)) (inner_txns s).
Definition submit (p : payment) (s : state) : state :=
  State (globals s) (locals s) (inner_txns s ++ [p]).

(** *** Expressions: evaluation may panic ([None]) but never writes *)

Definition expr : Type := call -> state -> option value.

Definition bool_value (b : bool) : value := VInt (if b then 1 else 0).

Definition v_eq (a b : value) : option value :=
  match a, b with
  | VInt x, VInt y => Some (bool_value (x =? y))
  | VBytes x, VBytes y => Some (bool_value (bool_decide (x = y)))
  | _, _ => None
  end.

Definition v_cmp (op : Z -> Z -> bool) (a b : value) : option value :=
  match a, b with
  | VInt x, VInt y => Some (bool_value (op x y))
  | _, _ => None
  end.

Definition v_add (a b : value) : option value :=
  match a, b with
  | VInt x, VInt y => if x + y <=? MAX_UINT64 then Some (VInt (x + y)) else None
  | _, _ => None
  end.

Definition v_minus (a b : value) : option value :=
  match a, b with
  | VInt x, VInt y => if y <=? x then Some (VInt (x - y)) else None
  | _, _ => None
  end.

Definition v_or (a b : value) : option value :=
  match a, b with
  | VInt x, VInt y => Some (bool_value (negb (x =? 0) || negb (y =? 0)))
  | _, _ => None
  end.

Fixpoint btoi_acc (acc : Z) (s : string) : Z :=
  match s with
  | EmptyString => acc
  | String a s' => btoi_acc (acc * 256 + Z.of_N (N_of_ascii a)) s'
  end.

(** [btoi]: big-endian decoding; fails on more than 8 bytes. *)
Definition v_btoi (a : value) : option value :=
  match a with
  | VBytes b => if (String.length b <=? 8)%nat then Some (VInt (btoi_acc 0 b)) else None
  | VInt _ => None
  end.

Definition v_sha256 (a : value) : option value :=
  match a with
  | VBytes b => Some (VBytes (Sha256 b))
  | VInt _ => None
  end.

Definition lift2 (f : value -> value -> option value) (e1 e2 : expr) : expr :=
  fun c s =>
    match e1 c s, e2 c s with
    | Some a, Some b => f a b
    | _, _ => None
    end.

Definition lift1 (f : value -> option value) (e : expr) : expr :=
  fun c s => match e c s with Some a => f a | None => None end.

Definition Int (n : Z) : expr := fun _ _ => Some (VInt n).
Definition Bytes (b : string) : expr := fun _ _ => Some (VBytes b).
(** [v.load()] of a scratch variable holding [v]. *)
Definition Load (v : value) : expr := fun _ _ => Some v.
Definition Eq : expr -> expr -> expr := lift2 v_eq.
Definition Lt : expr -> expr -> expr := lift2 (v_cmp Z.ltb).
Definition Gt : expr -> expr -> expr := lift2 (v_cmp Z.gtb).
Definition Le : expr -> expr -> expr := lift2 (v_cmp Z.leb).
Definition Ge : expr -> expr -> expr := lift2 (v_cmp Z.geb).
Definition Add : expr -> expr -> expr := lift2 v_add.
Definition Minus : expr -> expr -> expr := lift2 v_minus.
Definition Or : expr -> expr -> expr := lift2 v_or.
Definition Btoi : expr -> expr := lift1 v_btoi.
Definition Sha256_ : expr -> expr := lift1 v_sha256.
Definition Txn_application_id_ : expr :=
  fun c _ => Some (VInt (Txn_application_id c)).
Definition Txn_sender_ : expr := fun c _ => Some (VBytes (Txn_sender c)).
Definition Txn_arg (i : nat) : expr :=
  fun c _ => VBytes <$> (Txn_application_args c !! i).
Definition Txn_args_length : expr :=
  fun c _ => Some (VInt (Z.of_nat (length (Txn_application_args c)))).
Definition Global_latest_timestamp_ : expr :=
  fun c _ => Some (VInt (Global_latest_timestamp c)).
Definition Global_current_application_address_ : expr :=
  fun c _ => Some (VBytes (Global_current_application_address c)).
Definition App_globalGet (k : string) : expr := fun _ s => Some (gget s k).
Definition App_localGet (acct : expr) (k : string) : expr :=
  fun c s =>
    match acct c s with
    | Some (VBytes a) => Some (lget s a k)
    | _ => None
    end.

(** *** Statements: a state and abort monad

    [Abort e s] carries the state at the point of failure, so that the
    order of checks and writes inside a handler stays observable. *)

Inductive result (A : Type) : Type :=
  | Ok (a : A) (s : state)
  | Abort (e : error) (s : state).
Arguments Ok {A} a s.
Arguments Abort {A} e s.

Definition M (A : Type) : Type := call -> state -> result A.

Global Instance M_ret : MRet M := fun A a _ s => Ok a s.
Global Instance M_bind : MBind M := fun A B k m c s =>
  match m c s with
  | Ok a s' => k a c s'
  | Abort e s' => Abort e s'
  end.

(** [v.store(e)]: evaluate [e] into a scratch variable. *)
Definition Store (e : expr) : M value :=
  fun c s => match e c s with Some v => Ok v s | None => Abort RuntimePanic s end.

Definition Assert (err : error) (e : expr) : M unit :=
  fun c s =>
    match e c s with
    | Some (VInt n) => if n =? 0 then Abort err s else Ok tt s
    | _ => Abort RuntimePanic s
    end.

Definition App_globalPut (k : string) (e : expr) : M unit :=
  fun c s =>
    match e c s with
    | Some v => Ok tt (gput k v s)
    | None => Abort RuntimePanic s
    end.

Definition App_localPut (acct : expr) (k : string) (e : expr) : M unit :=
  fun c s =>
    match acct c s, e c s with
    | Some (VBytes a), Some v => Ok tt (lput a k v s)
    | _, _ => Abort RuntimePanic s
    end.

(** [App.globalPut(k, v)] with a key computed at run time. *)
Definition App_globalPutDyn (k : expr) (e : expr) : M unit :=
  fun c s =>
    match k c s, e c s with
    | Some (VBytes key), Some v => Ok tt (gput key v s)
    | _, _ => Abort RuntimePanic s
    end.

(** [InnerTxnBuilder.Begin/SetFields/Submit] of a payment: the request is
    handed to the transfer executor. *)
Definition InnerTxn_pay (amount receiver : expr) : M unit :=
  fun c s =>
    match amount c s, receiver c s with
    | Some a, Some r => Ok tt (submit (Payment a r) s)
    | _, _ => Abort RuntimePanic s
    end.

Definition If_ (cond : expr) (thn : M unit) : M unit :=
  fun c s =>
    match cond c s with
    | Some (VInt n) => if n =? 0 then Ok tt s else thn c s
    | _ => Abort RuntimePanic s
    end.

Definition IfElse {A} (cond : expr) (thn els : M A) : M A :=
  fun c s =>
    match cond c s with
    | Some (VInt n) => if n =? 0 then els c s else thn c s
    | _ => Abort RuntimePanic s
    end.

Definition Return (e : expr) : M unit :=
  fun c s =>
    match e c s with
    | Some (VInt n) => if n =? 0 then Abort Rejected s else Ok tt s
    | _ => Abort RuntimePanic s
    end.

(** The ledger keeps the writes of an approved call and discards a
    rejected one. *)
Definition commit (h : M unit) (c : call) (s : state) : state :=
  match h c s with
  | Ok _ s' => s'
  | Abort _ _ => s
  end.

(** [Cond([c1, b1], [c2, b2], ...)]: the first branch whose condition
    holds; the program fails when none does. *)
Fixpoint Cond (branches : list (expr * M unit)) : M unit :=
  match branches with
  | [] => fun _ s => Abort RuntimePanic s
  | (cond, body) :: rest => IfElse cond body (Cond rest)
  end.

(** Reading a call's arguments. *)
Definition arg_bytes (c : call) (i : nat) : option string :=
  Txn_application_args c !! i.
Definition arg_uint (c : call) (i : nat) : option Z :=
  match Txn_application_args c !! i with
  | Some b => if (String.length b <=? 8)%nat then Some (btoi_acc 0 b) else None
  | None => None
  end.

(** [n.to_bytes(8, 'big')], the encoding the client uses for integers. *)
Definition Itob (n : Z) : string := string_of_bytes (SHA256.be_bytes 8 n).

(** States and calls of the examples. *)
Definition mk_call (sender : string) (args : list string) (now : Z) : call :=
  Call 1 sender args now "APP".

(** The completion action of an application call, [Txn.on_completion()].
    It is a parameter of the approval programs that test it; the other
    transaction fields are in [call]. *)
Inductive OnComplete : Type :=
  | NoOp | OptIn | CloseOut | ClearState | UpdateApplication
  | DeleteApplication.

Definition on_complete_code (oc : OnComplete) : Z :=
  match oc with
  | NoOp => 0 | OptIn => 1 | CloseOut => 2 | ClearState => 3
  | UpdateApplication => 4 | DeleteApplication => 5
  end.

Definition Txn_on_completion_ (oc : OnComplete) : expr :=
  fun _ _ => Some (VInt (on_complete_code oc)).
Definition OnComplete_ (oc : OnComplete) : expr := Int (on_complete_code oc).

(** ** FixedAlgorandPartialFillBridge.py: the partial-fill engine *)

Module PartialFill.

Definition total_deposited : string := "total_deposited".
Definition total_filled : string := "total_filled".
Definition remaining_amount : string := "remaining_amount".
Definition executed : string := "executed".
Definition refunded : string := "refunded".
Definition hashlock : string := "hashlock".
Definition timelock : string := "timelock".
Definition recipient : string := "recipient".
Definition maker : string := "maker".
Definition partial_fills_enabled : string := "partial_fills_enabled".

Definition handle_creation : M unit :=
  App_globalPut total_deposited (Int 0) ;;
  App_globalPut total_filled (Int 0) ;;
  App_globalPut remaining_amount (Int 0) ;;
  App_globalPut executed (Int 0) ;;
  App_globalPut refunded (Int 0) ;;
  App_globalPut partial_fills_enabled (Int 0) ;;
  Return (Int 1).

Definition handle_htlc_creation : M unit :=
  hashlock_var ← Store (Txn_arg 1);
  timelock_var ← Store (Btoi (Txn_arg 2));
  recipient_var ← Store (Txn_arg 3);
  maker_var ← Store (Txn_arg 4);
  partial_enabled_var ← Store (Btoi (Txn_arg 5));
  App_globalPut hashlock (Load hashlock_var) ;;
  App_globalPut timelock (Load timelock_var) ;;
  App_globalPut recipient (Load recipient_var) ;;
  App_globalPut maker (Load maker_var) ;;
  App_globalPut partial_fills_enabled (Load partial_enabled_var) ;;
  Return (Int 1).

Definition handle_partial_fill : M unit :=
  fill_amount_var ← Store (Btoi (Txn_arg 1));
  secret_var ← Store (Txn_arg 2);
  Assert AlreadyFinalized (Eq (App_globalGet executed) (Int 0)) ;;
  Assert AlreadyFinalized (Eq (App_globalGet refunded) (Int 0)) ;;
  hashlock_stored ← Store (App_globalGet hashlock);
  secret_hash ← Store (Sha256_ (Load secret_var));
  Assert HashMismatch (Eq (Load hashlock_stored) (Load secret_hash)) ;;
  remaining_var ← Store (App_globalGet remaining_amount);
  Assert InvalidFillAmount (Gt (Load fill_amount_var) (Int 0)) ;;
  Assert InvalidFillAmount (Le (Load fill_amount_var) (Load remaining_var)) ;;
  total_filled_current ← Store (App_globalGet total_filled);
  remaining_current ← Store (App_globalGet remaining_amount);
  App_globalPut total_filled
    (Add (Load total_filled_current) (Load fill_amount_var)) ;;
  App_globalPut remaining_amount
    (Minus (Load remaining_current) (Load fill_amount_var)) ;;
  If_ (Eq (Minus (Load remaining_current) (Load fill_amount_var)) (Int 0))
    (App_globalPut executed (Int 1)) ;;
  Return (Int 1).

Definition handle_withdrawal : M unit :=
  Assert AlreadyFinalized (Eq (App_globalGet executed) (Int 0)) ;;
  Assert AlreadyFinalized (Eq (App_globalGet refunded) (Int 0)) ;;
  Assert Unauthorized (Eq Txn_sender_ (App_globalGet maker)) ;;
  App_globalPut refunded (Int 1) ;;
  Return (Int 1).

Definition handle_public_claim : M unit :=
  secret_var ← Store (Txn_arg 1);
  Assert AlreadyFinalized (Eq (App_globalGet executed) (Int 0)) ;;
  Assert AlreadyFinalized (Eq (App_globalGet refunded) (Int 0)) ;;
  hashlock_stored ← Store (App_globalGet hashlock);
  secret_hash ← Store (Sha256_ (Load secret_var));
  Assert HashMismatch (Eq (Load hashlock_stored) (Load secret_hash)) ;;
  App_globalPut executed (Int 1) ;;
  Return (Int 1).

Definition handle_deposit : M unit :=
  amount_var ← Store (Btoi (Txn_arg 1));
  current_deposited ← Store (App_globalGet total_deposited);
  App_globalPut total_deposited
    (Add (Load current_deposited) (Load amount_var)) ;;
  App_globalPut remaining_amount
    (Add (Load current_deposited) (Load amount_var)) ;;
  Return (Int 1).

Definition program : M unit :=
  Cond [
    (Eq Txn_application_id_ (Int 0), handle_creation);
    (Eq (Txn_arg 0) (Bytes "create_htlc"), handle_htlc_creation);
    (Eq (Txn_arg 0) (Bytes "partial_fill"), handle_partial_fill);
    (Eq (Txn_arg 0) (Bytes "withdraw"), handle_withdrawal);
    (Eq (Txn_arg 0) (Bytes "public_claim"), handle_public_claim);
    (Eq (Txn_arg 0) (Bytes "deposit"), handle_deposit);
    (Int 1, Return (Int 0))
  ].

(** Calls of an existing application, by operation. *)
Inductive op : Type :=
  | OpCreateHtlc | OpPartialFill | OpWithdraw | OpPublicClaim | OpDeposit.

Definition handler (o : op) : M unit :=
  match o with
  | OpCreateHtlc => handle_htlc_creation
  | OpPartialFill => handle_partial_fill
  | OpWithdraw => handle_withdrawal
  | OpPublicClaim => handle_public_claim
  | OpDeposit => handle_deposit
  end.

Definition step (s : state) (oc : op * call) : state :=
  commit (handler oc.1) oc.2 s.
Definition run (tr : list (op * call)) (s : state) : state :=
  fold_left step tr s.

(** A terminal record: [executed] or [refunded] is 1. *)
Definition terminal (s : state) : Prop :=
  gget s executed = VInt 1 \/ gget s refunded = VInt 1.

Global Instance terminal_dec s : Decision (terminal s).
Proof. unfold terminal. apply _. Defined.

(** The calls of a trace that move the record into a terminal state. *)
Fixpoint finalizations (tr : list (op * call)) (s : state) : nat :=
  match tr with
  | [] => 0%nat
  | oc :: tr' =>
      ((if bool_decide (~ terminal s /\ terminal (step s oc)) then 1 else 0)
       + finalizations tr' (step s oc))%nat
  end.

(** The state of a freshly created application. *)
Definition created (c : call) : state := commit handle_creation c empty_state.

(** AlgorandPartialFillBridge.py has the same handlers (bound with [:=]
    instead of scratch variables), no deposit and no default branch. *)
Definition program_unfixed : M unit :=
  Cond [
    (Eq Txn_application_id_ (Int 0), handle_creation);
    (Eq (Txn_arg 0) (Bytes "create_htlc"), handle_htlc_creation);
    (Eq (Txn_arg 0) (Bytes "partial_fill"), handle_partial_fill);
    (Eq (Txn_arg 0) (Bytes "withdraw"), handle_withdrawal);
    (Eq (Txn_arg 0) (Bytes "public_claim"), handle_public_claim)
  ].

End PartialFill.

(** ** Keys shared by the full-amount contracts *)

Definition creator_key : string := "Creator".
Definition eth_chain_id_key : string := "EthChainId".
Definition eth_contract_key : string := "EthContract".
Definition min_timelock_key : string := "MinTimelock".
Definition max_timelock_key : string := "MaxTimelock".
Definition htlc_id_key : string := "HtlcId".
Definition initiator_key : string := "Initiator".
Definition recipient_key : string := "Recipient".
Definition eth_recipient_key : string := "EthRecipient".
Definition amount_key : string := "Amount".
Definition hashlock_key : string := "Hashlock".
Definition timelock_key : string := "Timelock".
Definition eth_address_key : string := "EthAddress".
Definition secret_key : string := "Secret".
Definition withdrawn_key : string := "Withdrawn".
Definition refunded_key : string := "Refunded".

(** ** AlgorandHTLCBridge.py: the bidirectional contract

    The handlers of this file bind their arguments with [:=]; the binding
    is rendered as a scratch store at the place of the binding.  The
    operation name and the HTLC id are both argument 0 here (the fixed
    file reads the id from argument 1). *)

Module HTLCBridge.

Definition handle_creation : M unit :=
  App_globalPut creator_key Txn_sender_ ;;
  App_globalPut eth_chain_id_key (Int 11155111) ;;
  App_globalPut eth_contract_key
    (Bytes "0x0000000000000000000000000000000000000000") ;;
  App_globalPut min_timelock_key (Int 3600) ;;
  App_globalPut max_timelock_key (Int 86400) ;;
  Return (Int 1).

Definition create_htlc : M unit :=
  Assert Unauthorized
    (Or (Eq Txn_sender_ (App_globalGet creator_key)) (Int 1)) ;;
  Assert InvalidArgumentCount (Eq Txn_args_length (Int 7)) ;;
  htlc_id ← Store (Txn_arg 0);
  initiator ← Store (Txn_arg 1);
  recipient ← Store (Txn_arg 2);
  amount ← Store (Btoi (Txn_arg 3));
  hashlock ← Store (Txn_arg 4);
  timelock ← Store (Btoi (Txn_arg 5));
  eth_address ← Store (Txn_arg 6);
  Assert InvalidTimelock
    (Ge (Load timelock)
        (Add Global_latest_timestamp_ (App_globalGet min_timelock_key))) ;;
  Assert InvalidTimelock
    (Le (Load timelock)
        (Add Global_latest_timestamp_ (App_globalGet max_timelock_key))) ;;
  Assert InvalidAmount (Gt (Load amount) (Int 0)) ;;
  Assert DuplicateId (Eq (App_localGet Txn_sender_ htlc_id_key) (Int 0)) ;;
  App_localPut Txn_sender_ htlc_id_key (Load htlc_id) ;;
  App_localPut Txn_sender_ initiator_key (Load initiator) ;;
  App_localPut Txn_sender_ recipient_key (Load recipient) ;;
  App_localPut Txn_sender_ amount_key (Load amount) ;;
  App_localPut Txn_sender_ hashlock_key (Load hashlock) ;;
  App_localPut Txn_sender_ timelock_key (Load timelock) ;;
  App_localPut Txn_sender_ eth_address_key (Load eth_address) ;;
  App_localPut Txn_sender_ withdrawn_key (Int 0) ;;
  App_localPut Txn_sender_ refunded_key (Int 0) ;;
  InnerTxn_pay (Load amount) Global_current_application_address_ ;;
  Return (Int 1).

Definition withdraw_htlc : M unit :=
  Assert InvalidArgumentCount (Eq Txn_args_length (Int 2)) ;;
  htlc_id ← Store (Txn_arg 0);
  secret ← Store (Txn_arg 1);
  Assert NotFound (Eq (App_localGet Txn_sender_ htlc_id_key) (Load htlc_id)) ;;
  Assert AlreadyFinalized (Eq (App_localGet Txn_sender_ withdrawn_key) (Int 0)) ;;
  Assert AlreadyFinalized (Eq (App_localGet Txn_sender_ refunded_key) (Int 0)) ;;
  Assert Expired
    (Lt Global_latest_timestamp_ (App_localGet Txn_sender_ timelock_key)) ;;
  Assert HashMismatch
    (Eq (Sha256_ (Load secret)) (App_localGet Txn_sender_ hashlock_key)) ;;
  App_localPut Txn_sender_ withdrawn_key (Int 1) ;;
  InnerTxn_pay (App_localGet Txn_sender_ amount_key)
               (App_localGet Txn_sender_ recipient_key) ;;
  Return (Int 1).

Definition refund_htlc : M unit :=
  Assert InvalidArgumentCount (Eq Txn_args_length (Int 1)) ;;
  htlc_id ← Store (Txn_arg 0);
  Assert NotFound (Eq (App_localGet Txn_sender_ htlc_id_key) (Load htlc_id)) ;;
  Assert AlreadyFinalized (Eq (App_localGet Txn_sender_ withdrawn_key) (Int 0)) ;;
  Assert AlreadyFinalized (Eq (App_localGet Txn_sender_ refunded_key) (Int 0)) ;;
  Assert NotYetExpired
    (Ge Global_latest_timestamp_ (App_localGet Txn_sender_ timelock_key)) ;;
  App_localPut Txn_sender_ refunded_key (Int 1) ;;
  InnerTxn_pay (App_localGet Txn_sender_ amount_key)
               (App_localGet Txn_sender_ initiator_key) ;;
  Return (Int 1).

Definition get_htlc_status : M unit :=
  Assert InvalidArgumentCount (Eq Txn_args_length (Int 1)) ;;
  htlc_id ← Store (Txn_arg 0);
  Return (App_localGet Txn_sender_ htlc_id_key).

Definition update_contract : M unit :=
  Assert Unauthorized (Eq Txn_sender_ (App_globalGet creator_key)) ;;
  Assert InvalidArgumentCount (Eq Txn_args_length (Int 2)) ;;
  param_key ← Store (Txn_arg 0);
  param_value ← Store (Txn_arg 1);
  App_globalPutDyn (Load param_key) (Load param_value) ;;
  Return (Int 1).

Inductive op : Type :=
  | OpCreate | OpWithdraw | OpRefund | OpStatus | OpUpdate.

Definition handler (o : op) : M unit :=
  match o with
  | OpCreate => create_htlc
  | OpWithdraw => withdraw_htlc
  | OpRefund => refund_htlc
  | OpStatus => get_htlc_status
  | OpUpdate => update_contract
  end.

Definition step (s : state) (oc : op * call) : state :=
  commit (handler oc.1) oc.2 s.
Definition run (tr : list (op * call)) (s : state) : state :=
  fold_left step tr s.

(** The record of account [a] is terminal. *)
Definition terminal (a : string) (s : state) : Prop :=
  lget s a withdrawn_key = VInt 1 \/ lget s a refunded_key = VInt 1.

Global Instance terminal_dec a s : Decision (terminal a s).
Proof. unfold terminal. apply _. Defined.

Fixpoint finalizations (a : string) (tr : list (op * call)) (s : state) : nat :=
  match tr with
  | [] => 0%nat
  | oc :: tr' =>
      ((if bool_decide (~ terminal a s /\ terminal a (step s oc)) then 1 else 0)
       + finalizations a tr' (step s oc))%nat
  end.

Definition created (c : call) : state := commit handle_creation c empty_state.

End HTLCBridge.

(** ** AlgorandHTLCBridgeFixed.py: operation name in argument 0, HTLC
    parameters from argument 1 on *)

Module HTLCBridgeFixed.

Record create_args : Type := CreateArgs {
  ca_htlc_id : value; ca_initiator : value; ca_recipient : value;
  ca_amount : value; ca_hashlock : value; ca_timelock : value;
  ca_eth_address : value
}.

(** The [If] that fills the scratch variables from 8 or from 7 arguments. *)
Definition load_create_args : M create_args :=
  IfElse (Eq Txn_args_length (Int 8))
    (htlc_id ← Store (Txn_arg 1);
     initiator ← Store (Txn_arg 2);
     recipient ← Store (Txn_arg 3);
     amount ← Store (Btoi (Txn_arg 4));
     hashlock ← Store (Txn_arg 5);
     timelock ← Store (Btoi (Txn_arg 6));
     eth_address ← Store (Txn_arg 7);
     mret (CreateArgs htlc_id initiator recipient amount hashlock timelock
                      eth_address))
    (Assert InvalidArgumentCount (Eq Txn_args_length (Int 7)) ;;
     htlc_id ← Store (Txn_arg 1);
     initiator ← Store (Txn_arg 2);
     recipient ← Store (Txn_arg 3);
     amount ← Store (Btoi (Txn_arg 4));
     hashlock ← Store (Txn_arg 5);
     timelock ← Store (Btoi (Txn_arg 6));
     eth_address ← Store (Bytes "");
     mret (CreateArgs htlc_id initiator recipient amount hashlock timelock
                      eth_address)).

Definition create_htlc : M unit :=
  Assert Unauthorized
    (Or (Eq Txn_sender_ (App_globalGet creator_key)) (Int 1)) ;;
  a ← load_create_args;
  Assert InvalidTimelock
    (Ge (Load (ca_timelock a))
        (Add Global_latest_timestamp_ (App_globalGet min_timelock_key))) ;;
  Assert InvalidTimelock
    (Le (Load (ca_timelock a))
        (Add Global_latest_timestamp_ (App_globalGet max_timelock_key))) ;;
  Assert InvalidAmount (Gt (Load (ca_amount a)) (Int 0)) ;;
  Assert DuplicateId (Eq (App_localGet Txn_sender_ htlc_id_key) (Int 0)) ;;
  App_localPut Txn_sender_ htlc_id_key (Load (ca_htlc_id a)) ;;
  App_localPut Txn_sender_ initiator_key (Load (ca_initiator a)) ;;
  App_localPut Txn_sender_ recipient_key (Load (ca_recipient a)) ;;
  App_localPut Txn_sender_ amount_key (Load (ca_amount a)) ;;
  App_localPut Txn_sender_ hashlock_key (Load (ca_hashlock a)) ;;
  App_localPut Txn_sender_ timelock_key (Load (ca_timelock a)) ;;
  App_localPut Txn_sender_ eth_address_key (Load (ca_eth_address a)) ;;
  App_localPut Txn_sender_ withdrawn_key (Int 0) ;;
  App_localPut Txn_sender_ refunded_key (Int 0) ;;
  InnerTxn_pay (Load (ca_amount a)) Global_current_application_address_ ;;
  Return (Int 1).

Definition withdraw_htlc : M unit :=
  Assert InvalidArgumentCount (Eq Txn_args_length (Int 3)) ;;
  htlc_id ← Store (Txn_arg 1);
  secret ← Store (Txn_arg 2);
  Assert NotFound (Eq (App_localGet Txn_sender_ htlc_id_key) (Load htlc_id)) ;;
  Assert AlreadyFinalized (Eq (App_localGet Txn_sender_ withdrawn_key) (Int 0)) ;;
  Assert AlreadyFinalized (Eq (App_localGet Txn_sender_ refunded_key) (Int 0)) ;;
  Assert Expired
    (Lt Global_latest_timestamp_ (App_localGet Txn_sender_ timelock_key)) ;;
  Assert HashMismatch
    (Eq (Sha256_ (Load secret)) (App_localGet Txn_sender_ hashlock_key)) ;;
  App_localPut Txn_sender_ withdrawn_key (Int 1) ;;
  InnerTxn_pay (App_localGet Txn_sender_ amount_key)
               (App_localGet Txn_sender_ recipient_key) ;;
  Return (Int 1).

Definition refund_htlc : M unit :=
  Assert InvalidArgumentCount (Eq Txn_args_length (Int 2)) ;;
  htlc_id ← Store (Txn_arg 1);
  Assert NotFound (Eq (App_localGet Txn_sender_ htlc_id_key) (Load htlc_id)) ;;
  Assert AlreadyFinalized (Eq (App_localGet Txn_sender_ withdrawn_key) (Int 0)) ;;
  Assert AlreadyFinalized (Eq (App_localGet Txn_sender_ refunded_key) (Int 0)) ;;
  Assert NotYetExpired
    (Ge Global_latest_timestamp_ (App_localGet Txn_sender_ timelock_key)) ;;
  App_localPut Txn_sender_ refunded_key (Int 1) ;;
  InnerTxn_pay (App_localGet Txn_sender_ amount_key)
               (App_localGet Txn_sender_ initiator_key) ;;
  Return (Int 1).

Definition handle_creation : M unit :=
  App_globalPut creator_key Txn_sender_ ;;
  App_globalPut eth_chain_id_key (Int 11155111) ;;
  App_globalPut eth_contract_key
    (Bytes "0x0000000000000000000000000000000000000000") ;;
  App_globalPut min_timelock_key (Int 3600) ;;
  App_globalPut max_timelock_key (Int 86400) ;;
  Return (Int 1).

Definition get_htlc_status : M unit :=
  Assert InvalidArgumentCount (Eq Txn_args_length (Int 2)) ;;
  htlc_id ← Store (Txn_arg 1);
  Return (App_localGet Txn_sender_ htlc_id_key).

Definition update_contract : M unit :=
  Assert Unauthorized (Eq Txn_sender_ (App_globalGet creator_key)) ;;
  Assert InvalidArgumentCount (Eq Txn_args_length (Int 3)) ;;
  param_key ← Store (Txn_arg 1);
  param_value ← Store (Txn_arg 2);
  App_globalPutDyn (Load param_key) (Load param_value) ;;
  Return (Int 1).

Definition program (oc : OnComplete) : M unit :=
  Cond [
    (Eq Txn_application_id_ (Int 0), handle_creation);
    (Eq (Txn_on_completion_ oc) (OnComplete_ OptIn), Return (Int 1));
    (Eq (Txn_on_completion_ oc) (OnComplete_ CloseOut), Return (Int 1));
    (Eq (Txn_on_completion_ oc) (OnComplete_ UpdateApplication), Return (Int 0));
    (Eq (Txn_on_completion_ oc) (OnComplete_ DeleteApplication), Return (Int 0));
    (Eq (Txn_arg 0) (Bytes "create_htlc"), create_htlc);
    (Eq (Txn_arg 0) (Bytes "create"), create_htlc);
    (Eq (Txn_arg 0) (Bytes "withdraw"), withdraw_htlc);
    (Eq (Txn_arg 0) (Bytes "withdraw_htlc"), withdraw_htlc);
    (Eq (Txn_arg 0) (Bytes "claim_htlc"), withdraw_htlc);
    (Eq (Txn_arg 0) (Bytes "refund"), refund_htlc);
    (Eq (Txn_arg 0) (Bytes "refund_htlc"), refund_htlc);
    (Eq (Txn_arg 0) (Bytes "status"), get_htlc_status);
    (Eq (Txn_arg 0) (Bytes "get_htlc_status"), get_htlc_status);
    (Eq (Txn_arg 0) (Bytes "update"), update_contract);
    (Eq (Txn_arg 0) (Bytes "update_contract"), update_contract)
  ].

(** The value [htlc_bridge_contract] returns: the program behind a test
    on the number of arguments. *)
Definition htlc_bridge_contract (oc : OnComplete) : M unit :=
  IfElse (Gt Txn_args_length (Int 0)) (program oc) (Return (Int 0)).

(** Calls of an existing application, by operation. *)
Inductive op : Type :=
  | OpCreate | OpWithdraw | OpRefund | OpStatus | OpUpdate.

Definition handler (o : op) : M unit :=
  match o with
  | OpCreate => create_htlc
  | OpWithdraw => withdraw_htlc
  | OpRefund => refund_htlc
  | OpStatus => get_htlc_status
  | OpUpdate => update_contract
  end.

Definition step (s : state) (oc : op * call) : state :=
  commit (handler oc.1) oc.2 s.
Definition run (tr : list (op * call)) (s : state) : state :=
  fold_left step tr s.

Definition created (c : call) : state := commit handle_creation c empty_state.

End HTLCBridgeFixed.

(** ** AlgorandHTLCBridge_EthToAlgo.py: claim and refund of a remote-initiated swap *)

Module EthToAlgo.

Definition create_htlc : M unit :=
  Assert InvalidArgumentCount (Eq Txn_args_length (Int 6)) ;;
  htlc_id ← Store (Txn_arg 1);
  recipient ← Store (Txn_arg 2);
  amount ← Store (Btoi (Txn_arg 3));
  hashlock ← Store (Txn_arg 4);
  timelock ← Store (Btoi (Txn_arg 5));
  Assert InvalidAmount (Gt (Load amount) (Int 0)) ;;
  Assert DuplicateId (Eq (App_localGet Txn_sender_ htlc_id_key) (Int 0)) ;;
  App_localPut Txn_sender_ htlc_id_key (Load htlc_id) ;;
  App_localPut Txn_sender_ recipient_key (Load recipient) ;;
  App_localPut Txn_sender_ amount_key (Load amount) ;;
  App_localPut Txn_sender_ hashlock_key (Load hashlock) ;;
  App_localPut Txn_sender_ timelock_key (Load timelock) ;;
  App_localPut Txn_sender_ withdrawn_key (Int 0) ;;
  App_localPut Txn_sender_ refunded_key (Int 0) ;;
  InnerTxn_pay (Load amount) Global_current_application_address_ ;;
  Return (Int 1).

Definition claim_htlc : M unit :=
  Assert InvalidArgumentCount (Eq Txn_args_length (Int 3)) ;;
  htlc_id ← Store (Txn_arg 1);
  secret ← Store (Txn_arg 2);
  Assert NotFound (Eq (App_localGet Txn_sender_ htlc_id_key) (Load htlc_id)) ;;
  Assert AlreadyFinalized (Eq (App_localGet Txn_sender_ withdrawn_key) (Int 0)) ;;
  Assert AlreadyFinalized (Eq (App_localGet Txn_sender_ refunded_key) (Int 0)) ;;
  Assert Expired
    (Lt Global_latest_timestamp_ (App_localGet Txn_sender_ timelock_key)) ;;
  Assert HashMismatch
    (Eq (Sha256_ (Load secret)) (App_localGet Txn_sender_ hashlock_key)) ;;
  App_localPut Txn_sender_ withdrawn_key (Int 1) ;;
  InnerTxn_pay (App_localGet Txn_sender_ amount_key)
               (App_localGet Txn_sender_ recipient_key) ;;
  Return (Int 1).

Definition refund_htlc : M unit :=
  Assert InvalidArgumentCount (Eq Txn_args_length (Int 2)) ;;
  htlc_id ← Store (Txn_arg 1);
  Assert NotFound (Eq (App_localGet Txn_sender_ htlc_id_key) (Load htlc_id)) ;;
  Assert AlreadyFinalized (Eq (App_localGet Txn_sender_ withdrawn_key) (Int 0)) ;;
  Assert AlreadyFinalized (Eq (App_localGet Txn_sender_ refunded_key) (Int 0)) ;;
  Assert NotYetExpired
    (Ge Global_latest_timestamp_ (App_localGet Txn_sender_ timelock_key)) ;;
  App_localPut Txn_sender_ refunded_key (Int 1) ;;
  InnerTxn_pay (App_localGet Txn_sender_ amount_key) Txn_sender_ ;;
  Return (Int 1).

Definition program (oc : OnComplete) : M unit :=
  Cond [
    (Eq Txn_application_id_ (Int 0), Return (Int 1));
    (Eq (Txn_on_completion_ oc) (OnComplete_ OptIn), Return (Int 1));
    (Eq (Txn_on_completion_ oc) (OnComplete_ CloseOut), Return (Int 1));
    (Eq (Txn_on_completion_ oc) (OnComplete_ UpdateApplication), Return (Int 0));
    (Eq (Txn_on_completion_ oc) (OnComplete_ DeleteApplication), Return (Int 0));
    (Eq (Txn_arg 0) (Bytes "create_htlc"), create_htlc);
    (Eq (Txn_arg 0) (Bytes "claim_htlc"), claim_htlc);
    (Eq (Txn_arg 0) (Bytes "refund_htlc"), refund_htlc)
  ].

Inductive op : Type := OpCreate | OpClaim | OpRefund.

Definition handler (o : op) : M unit :=
  match o with
  | OpCreate => create_htlc
  | OpClaim => claim_htlc
  | OpRefund => refund_htlc
  end.

Definition step (s : state) (oc : op * call) : state :=
  commit (handler oc.1) oc.2 s.
Definition run (tr : list (op * call)) (s : state) : state :=
  fold_left step tr s.

End EthToAlgo.

(** ** AlgorandHTLCBridge_EthToAlgo_Minimal.py: claim only *)

Module Minimal.

Definition claim_htlc : M unit :=
  Assert InvalidArgumentCount (Eq Txn_args_length (Int 3)) ;;
  htlc_id ← Store (Txn_arg 1);
  secret ← Store (Txn_arg 2);
  Assert NotFound (Eq (App_localGet Txn_sender_ htlc_id_key) (Load htlc_id)) ;;
  Assert AlreadyFinalized (Eq (App_localGet Txn_sender_ withdrawn_key) (Int 0)) ;;
  Assert HashMismatch
    (Eq (Sha256_ (Load secret)) (App_localGet Txn_sender_ hashlock_key)) ;;
  App_localPut Txn_sender_ withdrawn_key (Int 1) ;;
  InnerTxn_pay (App_localGet Txn_sender_ amount_key)
               (App_localGet Txn_sender_ recipient_key) ;;
  Return (Int 1).

Definition program (oc : OnComplete) : M unit :=
  Cond [
    (Eq Txn_application_id_ (Int 0), Return (Int 1));
    (Eq (Txn_on_completion_ oc) (OnComplete_ OptIn), Return (Int 1));
    (Eq (Txn_on_completion_ oc) (OnComplete_ CloseOut), Return (Int 1));
    (Eq (Txn_on_completion_ oc) (OnComplete_ UpdateApplication), Return (Int 0));
    (Eq (Txn_on_completion_ oc) (OnComplete_ DeleteApplication), Return (Int 0));
    (Eq (Txn_arg 0) (Bytes "claim_htlc"), claim_htlc)
  ].

End Minimal.

(** ** AlgorandHTLCBridge_AlgoToEth.py: lock and reveal for a locally initiated swap *)

Module AlgoToEth.

Definition create_htlc : M unit :=
  Assert InvalidArgumentCount (Eq Txn_args_length (Int 6)) ;;
  htlc_id ← Store (Txn_arg 1);
  eth_recipient ← Store (Txn_arg 2);
  amount ← Store (Btoi (Txn_arg 3));
  hashlock ← Store (Txn_arg 4);
  timelock ← Store (Btoi (Txn_arg 5));
  Assert InvalidAmount (Gt (Load amount) (Int 0)) ;;
  Assert DuplicateId (Eq (App_localGet Txn_sender_ htlc_id_key) (Int 0)) ;;
  App_localPut Txn_sender_ htlc_id_key (Load htlc_id) ;;
  App_localPut Txn_sender_ eth_recipient_key (Load eth_recipient) ;;
  App_localPut Txn_sender_ amount_key (Load amount) ;;
  App_localPut Txn_sender_ hashlock_key (Load hashlock) ;;
  App_localPut Txn_sender_ timelock_key (Load timelock) ;;
  App_localPut Txn_sender_ withdrawn_key (Int 0) ;;
  App_localPut Txn_sender_ refunded_key (Int 0) ;;
  App_localPut Txn_sender_ secret_key (Bytes "") ;;
  InnerTxn_pay (Load amount) Global_current_application_address_ ;;
  Return (Int 1).

Definition reveal_secret : M unit :=
  Assert InvalidArgumentCount (Eq Txn_args_length (Int 3)) ;;
  htlc_id ← Store (Txn_arg 1);
  secret ← Store (Txn_arg 2);
  Assert NotFound (Eq (App_localGet Txn_sender_ htlc_id_key) (Load htlc_id)) ;;
  Assert AlreadySet (Eq (App_localGet Txn_sender_ secret_key) (Bytes "")) ;;
  Assert HashMismatch
    (Eq (Sha256_ (Load secret)) (App_localGet Txn_sender_ hashlock_key)) ;;
  App_localPut Txn_sender_ secret_key (Load secret) ;;
  Return (Int 1).

Definition program (oc : OnComplete) : M unit :=
  Cond [
    (Eq Txn_application_id_ (Int 0), Return (Int 1));
    (Eq (Txn_on_completion_ oc) (OnComplete_ OptIn), Return (Int 1));
    (Eq (Txn_on_completion_ oc) (OnComplete_ CloseOut), Return (Int 1));
    (Eq (Txn_on_completion_ oc) (OnComplete_ UpdateApplication), Return (Int 0));
    (Eq (Txn_on_completion_ oc) (OnComplete_ DeleteApplication), Return (Int 0));
    (Eq (Txn_arg 0) (Bytes "create_htlc"), create_htlc);
    (Eq (Txn_arg 0) (Bytes "reveal_secret"), reveal_secret)
  ].

Inductive op : Type := OpCreate | OpReveal.

Definition handler (o : op) : M unit :=
  match o with
  | OpCreate => create_htlc
  | OpReveal => reveal_secret
  end.

Definition step (s : state) (oc : op * call) : state :=
  commit (handler oc.1) oc.2 s.
Definition run (tr : list (op * call)) (s : state) : state :=
  fold_left step tr s.

(** The secret of account [a]'s record, when one is recorded. *)
Definition secret_of (s : state) (a : string) : option string :=
  match lget s a secret_key with
  | VBytes b => if bool_decide (b = "") then None else Some b
  | VInt _ => None
  end.

End AlgoToEth.

(** All state-changing handlers of the five contracts. *)
Definition all_handlers : list (M unit) :=
  [ PartialFill.handle_htlc_creation; PartialFill.handle_partial_fill;
    PartialFill.handle_withdrawal; PartialFill.handle_public_claim;
    PartialFill.handle_deposit;
    HTLCBridge.create_htlc; HTLCBridge.withdraw_htlc; HTLCBridge.refund_htlc;
    HTLCBridge.get_htlc_status; HTLCBridge.update_contract;
    HTLCBridgeFixed.create_htlc; HTLCBridgeFixed.withdraw_htlc;
    HTLCBridgeFixed.refund_htlc;
    EthToAlgo.create_htlc; EthToAlgo.claim_htlc; EthToAlgo.refund_htlc;
    AlgoToEth.create_htlc; AlgoToEth.reveal_secret ].

(** ** Derived notions used in the statements *)

(** The state a successful fill of [f] leaves, from counters [t] and [r]. *)
Definition filled (t r f : Z) (s : state) : state :=
  let s' := gput PartialFill.remaining_amount (VInt (r - f))
              (gput PartialFill.total_filled (VInt (t + f)) s) in
  if r - f =? 0 then gput PartialFill.executed (VInt 1) s' else s'.

(** The state a successful deposit of [a] leaves, from [total_deposited = d]. *)
Definition deposited (d a : Z) (s : state) : state :=
  gput PartialFill.remaining_amount (VInt (d + a))
    (gput PartialFill.total_deposited (VInt (d + a)) s).

(** The two terminal flags hold 0 or 1 and are not both 1. *)
Definition pf_flags_wf (s : state) : Prop :=
  (gget s PartialFill.executed = VInt 0 \/ gget s PartialFill.executed = VInt 1) /\
  (gget s PartialFill.refunded = VInt 0 \/ gget s PartialFill.refunded = VInt 1) /\
  ~ (gget s PartialFill.executed = VInt 1 /\ gget s PartialFill.refunded = VInt 1).

(** The call carries the arguments its handler reads before the
    terminal-flag checks. *)
Definition pf_args_present (o : PartialFill.op) (c : call) : Prop :=
  match o with
  | PartialFill.OpPartialFill => is_Some (arg_uint c 1) /\ is_Some (arg_bytes c 2)
  | PartialFill.OpPublicClaim => is_Some (arg_bytes c 1)
  | _ => True
  end.

(** The operations guarded by the terminal flags. *)
Definition pf_guarded : list PartialFill.op :=
  [PartialFill.OpPartialFill; PartialFill.OpWithdraw; PartialFill.OpPublicClaim].

(** The local state [create_htlc] of AlgorandHTLCBridge.py writes for the
    sender [a], followed by the escrow payment. *)
Definition bridge_created (a app id ini rcp : string) (amt : Z)
    (h : string) (tl : Z) (eth : string) (s : state) : state :=
  submit (Payment (VInt amt) (VBytes app))
    (lput a refunded_key (VInt 0)
    (lput a withdrawn_key (VInt 0)
    (lput a eth_address_key (VBytes eth)
    (lput a timelock_key (VInt tl)
    (lput a hashlock_key (VBytes h)
    (lput a amount_key (VInt amt)
    (lput a recipient_key (VBytes rcp)
    (lput a initiator_key (VBytes ini)
    (lput a htlc_id_key (VBytes id) s))))))))).

(** The state a successful claim leaves: [Withdrawn] set, one payment of
    the record's amount to its recipient. *)
Definition claimed (a : string) (s : state) : state :=
  submit (Payment (lget s a amount_key) (lget s a recipient_key))
    (lput a withdrawn_key (VInt 1) s).

(** The state a successful refund leaves, paying [to]. *)
Definition refunded_to (a : string) (to : value) (s : state) : state :=
  submit (Payment (lget s a amount_key) to)
    (lput a refunded_key (VInt 1) s).

(** Account [a] holds a record: its [HtlcId] is a byte string. *)
Definition has_record (s : state) (a : string) : Prop :=
  exists id, lget s a htlc_id_key = VBytes id.

(** Lifecycle invariant of account [a]'s record in the full-amount
    contracts: the flags are 0/0, or a record exists and exactly one is 1. *)
Definition bridge_inv (a : string) (s : state) : Prop :=
  (lget s a withdrawn_key = VInt 0 /\ lget s a refunded_key = VInt 0) \/
  (has_record s a /\
   ((lget s a withdrawn_key = VInt 1 /\ lget s a refunded_key = VInt 0) \/
    (lget s a withdrawn_key = VInt 0 /\ lget s a refunded_key = VInt 1))).

(** The local state [create_htlc] of AlgorandHTLCBridge_AlgoToEth.py writes
    for the sender [a], followed by the escrow payment. *)
Definition a2e_created (a app id rcp : string) (amt : Z)
    (h : string) (tl : Z) (s : state) : state :=
  submit (Payment (VInt amt) (VBytes app))
    (lput a secret_key (VBytes "")
    (lput a refunded_key (VInt 0)
    (lput a withdrawn_key (VInt 0)
    (lput a timelock_key (VInt tl)
    (lput a hashlock_key (VBytes h)
    (lput a amount_key (VInt amt)
    (lput a eth_recipient_key (VBytes rcp)
    (lput a htlc_id_key (VBytes id) s)))))))).

(** Invariant of account [a]'s record in the ALGO-to-ETH contract: a
    recorded secret belongs to an existing record and hashes to its
    hashlock. *)
Definition a2e_inv (a : string) (s : state) : Prop :=
  forall b, AlgoToEth.secret_of s a = Some b ->
    has_record s a /\ lget s a hashlock_key = VBytes (Sha256 b).

(** The call addresses the sender's record with the arguments its
    handler reads before the terminal-flag checks. *)
Definition bridge_args_present (o : HTLCBridge.op) (c : call) (s : state) : Prop :=
  match o with
  | HTLCBridge.OpWithdraw =>
      length (Txn_application_args c) = 2%nat /\
      exists id sec, arg_bytes c 0 = Some id /\ arg_bytes c 1 = Some sec /\
        lget s (Txn_sender c) htlc_id_key = VBytes id
  | HTLCBridge.OpRefund =>
      length (Txn_application_args c) = 1%nat /\
      exists id, arg_bytes c 0 = Some id /\
        lget s (Txn_sender c) htlc_id_key = VBytes id
  | _ => True
  end.

(** The same call evaluated at clock reading [now]. *)
Definition at_time (c : call) (now : Z) : call :=
  Call (Txn_application_id c) (Txn_sender c) (Txn_application_args c) now
       (Global_current_application_address c).

(** The hash-commitment check the handlers assert,
    [Sha256(secret) == hashlock]. *)
Definition verify (secret hashlock : expr) : expr := Eq (Sha256_ secret) hashlock.

(** The checks [create_htlc] of AlgorandHTLCBridge.py makes before the
    timelock bounds pass: seven arguments, a creator on record, integer
    arguments and integer delays whose sums fit in 64 bits. *)
Definition bridge_create_ready (c : call) (s : state)
    (amt tl mn mx : Z) : Prop :=
  length (Txn_application_args c) = 7%nat /\
  (exists cr, gget s creator_key = VBytes cr) /\
  arg_uint c 3 = Some amt /\ arg_uint c 5 = Some tl /\
  gget s min_timelock_key = VInt mn /\ gget s max_timelock_key = VInt mx /\
  Global_latest_timestamp c + mn <= MAX_UINT64 /\
  Global_latest_timestamp c + mx <= MAX_UINT64.

Definition sumZ (l : list Z) : Z := foldr Z.add 0 l.

(** The fill amounts requested by a list of [partial_fill] calls. *)
Definition fill_amounts (cs : list call) : list Z :=
  map (fun c => default 0 (arg_uint c 1)) cs.

(** Every call of the list, in order, is an accepted partial fill; the
    result is the final state. *)
Fixpoint fills_accepted (cs : list call) (s s_end : state) : Prop :=
  match cs with
  | [] => s_end = s
  | c :: cs' =>
      exists s', PartialFill.handle_partial_fill c s = Ok tt s' /\
                 fills_accepted cs' s' s_end
  end.

(** Running calls through the approval programs. *)
Definition pf_exec (cs : list call) (s : state) : state :=
  fold_left (fun s c => commit PartialFill.program c s) cs s.

(** *** Example calls *)

Definition pf_create (hashlock : string) : call :=
  mk_call "MAKER" ["create_htlc"; hashlock; Itob 7200; "RECIPIENT"; "MAKER"; Itob 1] 0.
Definition pf_deposit (n : Z) : call := mk_call "MAKER" ["deposit"; Itob n] 0.
Definition pf_fill (n : Z) (secret : string) (now : Z) : call :=
  mk_call "RESOLVER" ["partial_fill"; Itob n; secret] now.
Definition pf_public_claim (secret : string) : call :=
  mk_call "ANYONE" ["public_claim"; secret] 0.
Definition pf_withdraw : call := mk_call "MAKER" ["withdraw"] 0.

(** A created application holding an HTLC on the secret "abc". *)
Definition pf_abc : state :=
  pf_exec [pf_create (Sha256 "abc")] (PartialFill.created (mk_call "MAKER" [] 0)).
(** ... after a deposit of 100, of 500. *)
Definition pf_s100 : state := pf_exec [pf_deposit 100] pf_abc.
Definition pf_s500 : state := pf_exec [pf_deposit 500] pf_abc.
(** ... after 100 deposited and 30 filled. *)
Definition pf_s100_filled30 : state := pf_exec [pf_fill 30 "abc" 0] pf_s100.
(** ... after 100 deposited and all of it filled. *)
Definition pf_s100_settled : state := pf_exec [pf_fill 100 "abc" 0] pf_s100.
(** ... after deposit 2^63+1, fill 2^63, deposit 0. *)
Definition pf_near_overflow : state :=
  pf_exec [pf_deposit 9223372036854775809;
           pf_fill 9223372036854775808 "abc" 0;
           pf_deposit 0] pf_abc.
(** An HTLC on the empty secret, with 100 deposited. *)
Definition pf_empty_hash : state :=
  pf_exec [pf_create (Sha256 ""); pf_deposit 100]
    (PartialFill.created (mk_call "MAKER" [] 0)).
(** The settled record again, as a sequence of operations. *)
Definition pf_settling_trace : list (PartialFill.op * call) :=
  [(PartialFill.OpCreateHtlc, pf_create (Sha256 "abc"));
   (PartialFill.OpDeposit, pf_deposit 100);
   (PartialFill.OpPartialFill, pf_fill 100 "abc" 0)].
Definition pf_settled_by_trace : state :=
  PartialFill.run pf_settling_trace (PartialFill.created (mk_call "MAKER" [] 0)).

Definition e2a_create (id : string) (amount : Z) (hashlock : string) (tl now : Z) : call :=
  mk_call "ALICE" ["create_htlc"; id; "BOB"; Itob amount; hashlock; Itob tl] now.
Definition e2a_claim (id secret : string) (now : Z) : call :=
  mk_call "ALICE" ["claim_htlc"; id; secret] now.

Definition a2e_create (id : string) (amount : Z) (hashlock : string) (tl now : Z) : call :=
  mk_call "ALICE" ["create_htlc"; id; "0xB0B"; Itob amount; hashlock; Itob tl] now.
Definition a2e_reveal (id secret : string) : call :=
  mk_call "ALICE" ["reveal_secret"; id; secret] 0.

Definition bridge_create (amount tl now : Z) (hashlock : string) : call :=
  mk_call "ALICE" ["create"; "ALICE"; "BOB"; Itob amount; hashlock; Itob tl; "0xB0B"] now.
Definition bridge_withdraw (id secret : string) (now : Z) : call :=
  mk_call "ALICE" [id; secret] now.
Definition bridge_refund (id : string) (now : Z) : call :=
  mk_call "ALICE" [id] now.

(** Account [a] holds the non-terminal record [id] with timelock [tl] and
    hashlock [h]. *)
Definition open_record (s : state) (a id : string) (tl : Z) (h : string) : Prop :=
  lget s a htlc_id_key = VBytes id /\
  lget s a withdrawn_key = VInt 0 /\ lget s a refunded_key = VInt 0 /\
  lget s a timelock_key = VInt tl /\ lget s a hashlock_key = VBytes h.

(** What a secret-gated claim handler does on an open record, for a call
    with [nargs] arguments carrying the id at [i_id] and the secret at
    [i_secret]. *)
Definition claim_spec (claim : M unit) (nargs i_id i_secret : nat) : Prop :=
  forall c s id sec tl h,
    length (Txn_application_args c) = nargs ->
    arg_bytes c i_id = Some id -> arg_bytes c i_secret = Some sec ->
    open_record s (Txn_sender c) id tl h ->
    (Sha256 sec = h -> Global_latest_timestamp c < tl ->
       claim c s = Ok tt (claimed (Txn_sender c) s) /\
       lget (claimed (Txn_sender c) s) (Txn_sender c) withdrawn_key = VInt 1 /\
       inner_txns (claimed (Txn_sender c) s) =
         (inner_txns s ++
            [Payment (lget s (Txn_sender c) amount_key)
                     (lget s (Txn_sender c) recipient_key)])%list /\
       (forall a' k, (a', k) ≠ (Txn_sender c, withdrawn_key) ->
          lget (claimed (Txn_sender c) s) a' k = lget s a' k) /\
       globals (claimed (Txn_sender c) s) = globals s /\
       claim c (claimed (Txn_sender c) s) =
         Abort AlreadyFinalized (claimed (Txn_sender c) s)) /\
    (tl <= Global_latest_timestamp c -> claim c s = Abort Expired s) /\
    (Sha256 sec ≠ h -> Global_latest_timestamp c < tl ->
       claim c s = Abort HashMismatch s).

(** *** Atomicity of a statement *)

(** When the statement aborts, nothing has been written. *)
Definition aborts_clean {A} (m : M A) : Prop :=
  forall c s e s', m c s = Abort e s' -> s' = s.

(** The statement only reads: when it succeeds the state is as before. *)
Definition reads_only {A} (m : M A) : Prop :=
  forall c s a s', m c s = Ok a s' -> s' = s.

(** The statement cannot abort. *)
Definition never_aborts {A} (m : M A) : Prop :=
  forall c s e s', m c s ≠ Abort e s'.

(** The expression cannot panic. *)
Definition expr_total (e : expr) : Prop := forall c s, is_Some (e c s).

(** ALICE's record "s1": 1000 locked on "abc" until 7200. *)
Definition e2a_s1 : state :=
  commit EthToAlgo.create_htlc
    (e2a_create "s1" 1000 (Sha256 "abc") 7200 0) empty_state.
(** A record locked on the empty secret. *)
Definition a2e_s1_empty_hash : state :=
  commit AlgoToEth.create_htlc
    (a2e_create "s1" 1000 (Sha256 "") 7200 0) empty_state.
(** Record "s1" after "abc" was revealed. *)
Definition a2e_s1_revealed : state :=
  AlgoToEth.run
    [(AlgoToEth.OpCreate, a2e_create "s1" 1000 (Sha256 "abc") 7200 0);
     (AlgoToEth.OpReveal, a2e_reveal "s1" "abc")] empty_state.
(** The bidirectional contract right after application creation. *)
Definition bridge_fresh : state := HTLCBridge.created (mk_call "CREATOR" [] 0).

(** The failure a run ended with, if any. *)
Definition outcome {A} (r : result A) : option error :=
  match r with
  | Ok _ _ => None
  | Abort e _ => Some e
  end.

(** ALICE's record in the bidirectional contract: 1000 locked on "abc"
    until 7200, then withdrawn at time 10.  The id of a record made by
    [create_htlc] of that file is its argument 0. *)
Definition bridge_settling_trace : list (HTLCBridge.op * call) :=
  [(HTLCBridge.OpCreate, bridge_create 1000 7200 0 (Sha256 "abc"));
   (HTLCBridge.OpWithdraw, bridge_withdraw "create" "abc" 10)].
Definition bridge_settled : state :=
  HTLCBridge.run bridge_settling_trace (HTLCBridge.created (mk_call "CREATOR" [] 0)).
(** A fresh ALGO-to-ETH record locked on "abc". *)
Definition a2e_s1 : state :=
  commit AlgoToEth.create_htlc
    (a2e_create "s1" 1000 (Sha256 "abc") 7200 0) empty_state.

(** ** Notions for the remaining handlers and the approval programs *)

(** What a refund handler does on an open record, for a call with
    [nargs] arguments carrying the id at [i_id]; the handler pays
    [payee c s]. *)
Definition refund_spec (refund : M unit) (nargs i_id : nat)
    (payee : call -> state -> value) : Prop :=
  forall c s id tl h,
    length (Txn_application_args c) = nargs ->
    arg_bytes c i_id = Some id ->
    open_record s (Txn_sender c) id tl h ->
    (tl <= Global_latest_timestamp c ->
       refund c s = Ok tt (refunded_to (Txn_sender c) (payee c s) s) /\
       lget (refunded_to (Txn_sender c) (payee c s) s) (Txn_sender c)
         refunded_key = VInt 1 /\
       inner_txns (refunded_to (Txn_sender c) (payee c s) s) =
         (inner_txns s ++
            [Payment (lget s (Txn_sender c) amount_key) (payee c s)])%list /\
       (forall a' k, (a', k) ≠ (Txn_sender c, refunded_key) ->
          lget (refunded_to (Txn_sender c) (payee c s) s) a' k = lget s a' k) /\
       globals (refunded_to (Txn_sender c) (payee c s) s) = globals s /\
       refund c (refunded_to (Txn_sender c) (payee c s) s) =
         Abort AlreadyFinalized (refunded_to (Txn_sender c) (payee c s) s)) /\
    (Global_latest_timestamp c < tl -> refund c s = Abort NotYetExpired s).

(** The payee of a refund: the stored initiator, or the caller. *)
Definition pay_initiator (c : call) (s : state) : value :=
  lget s (Txn_sender c) initiator_key.
Definition pay_sender (c : call) (s : state) : value := VBytes (Txn_sender c).

(** Claim and refund of one contract split the time line of an open
    record at its timelock: a claim call [cc] carrying the right secret
    and a refund call [cr] of the same account, both evaluated at clock
    reading [now]. *)
Definition windows_spec (claim refund : M unit)
    (nc i_id i_secret nr j_id : nat) : Prop :=
  forall cc cr s id sec tl now,
    Txn_sender cr = Txn_sender cc ->
    length (Txn_application_args cc) = nc ->
    arg_bytes cc i_id = Some id -> arg_bytes cc i_secret = Some sec ->
    length (Txn_application_args cr) = nr ->
    arg_bytes cr j_id = Some id ->
    open_record s (Txn_sender cc) id tl (Sha256 sec) ->
    (now < tl ->
       outcome (claim (at_time cc now) s) = None /\
       refund (at_time cr now) s = Abort NotYetExpired s) /\
    (tl <= now ->
       claim (at_time cc now) s = Abort Expired s /\
       outcome (refund (at_time cr now) s) = None).

(** A relation every successful run of a statement stays within. *)
Definition respects {A} (R : call -> state -> state -> Prop) (m : M A) : Prop :=
  forall c s a s', m c s = Ok a s' -> R c s s'.

(** The globals and the local state of every account but the sender are
    as before. *)
Definition own_record_only (c : call) (s s' : state) : Prop :=
  globals s' = globals s /\
  forall a k, a ≠ Txn_sender c -> locals s' !! (a, k) = locals s !! (a, k).

(** No local state written and no payment submitted. *)
Definition globals_only (c : call) (s s' : state) : Prop :=
  locals s' = locals s /\ inner_txns s' = inner_txns s.

(** Running handlers, each on its call. *)
Definition run_handlers (tr : list (M unit * call)) (s : state) : state :=
  fold_left (fun s hc => commit hc.1 hc.2 s) tr s.

(** The handlers of the contracts that keep one record per account in
    local state, [update_contract] apart. *)
Definition record_handlers : list (M unit) :=
  [ HTLCBridge.create_htlc; HTLCBridge.withdraw_htlc; HTLCBridge.refund_htlc;
    HTLCBridge.get_htlc_status;
    HTLCBridgeFixed.create_htlc; HTLCBridgeFixed.withdraw_htlc;
    HTLCBridgeFixed.refund_htlc; HTLCBridgeFixed.get_htlc_status;
    EthToAlgo.create_htlc; EthToAlgo.claim_htlc; EthToAlgo.refund_htlc;
    AlgoToEth.create_htlc; AlgoToEth.reveal_secret;
    Minimal.claim_htlc ].

Definition update_handlers : list (M unit) :=
  [ HTLCBridge.update_contract; HTLCBridgeFixed.update_contract ].

(** The keys of a record that a settlement or a reveal may write. *)
Definition settlement_keys : list string :=
  [withdrawn_key; refunded_key; secret_key].

(** Every [HtlcId] is unset or a byte string. *)
Definition ids_wf (s : state) : Prop :=
  forall a, lget s a htlc_id_key = VInt 0 \/ has_record s a.

(** A record is written once: over every run of a contract, the keys of
    an existing record other than the settlement keys keep their values,
    and its account cannot create again. *)
Definition record_fixed_spec {Op : Type}
    (run : list (Op * call) -> state -> state) (create : M unit) : Prop :=
  forall a tr s, has_record s a ->
    (forall k, k ∉ settlement_keys -> lget (run tr s) a k = lget s a k) /\
    (forall c s', Txn_sender c = a -> create c (run tr s) ≠ Ok tt s').

(** What [update_contract] does, for a call with [nargs] arguments
    carrying the key at [i_key] and the value at [i_val]. *)
Definition update_spec (update : M unit) (nargs i_key i_val : nat) : Prop :=
  forall c s,
    (forall s', update c s = Ok tt s' <->
       gget s creator_key = VBytes (Txn_sender c) /\
       length (Txn_application_args c) = nargs /\
       exists k v, arg_bytes c i_key = Some k /\ arg_bytes c i_val = Some v /\
                   s' = gput k (VBytes v) s) /\
    (forall cr, gget s creator_key = VBytes cr -> cr ≠ Txn_sender c ->
       update c s = Abort Unauthorized s).

(** The two delay bounds of the bidirectional contract. *)
Definition timelock_bound_keys : list string :=
  [min_timelock_key; max_timelock_key].

(** The operation names AlgorandHTLCBridgeFixed.py routes, each with the
    operation it selects. *)
Definition fixed_routes : list (string * HTLCBridgeFixed.op) :=
  [ ("create_htlc", HTLCBridgeFixed.OpCreate);
    ("create", HTLCBridgeFixed.OpCreate);
    ("withdraw", HTLCBridgeFixed.OpWithdraw);
    ("withdraw_htlc", HTLCBridgeFixed.OpWithdraw);
    ("claim_htlc", HTLCBridgeFixed.OpWithdraw);
    ("refund", HTLCBridgeFixed.OpRefund);
    ("refund_htlc", HTLCBridgeFixed.OpRefund);
    ("status", HTLCBridgeFixed.OpStatus);
    ("get_htlc_status", HTLCBridgeFixed.OpStatus);
    ("update", HTLCBridgeFixed.OpUpdate);
    ("update_contract", HTLCBridgeFixed.OpUpdate) ].

(** The approval programs that test the completion action. *)
Definition guarded_programs : list (OnComplete -> M unit) :=
  [ HTLCBridgeFixed.program; EthToAlgo.program; AlgoToEth.program;
    Minimal.program ].

(** Traces of operations as traces of handlers. *)
Definition bridge_trace (tr : list (HTLCBridge.op * call)) : list (M unit * call) :=
  map (fun oc => (HTLCBridge.handler oc.1, oc.2)) tr.
Definition fixed_trace (tr : list (HTLCBridgeFixed.op * call)) : list (M unit * call) :=
  map (fun oc => (HTLCBridgeFixed.handler oc.1, oc.2)) tr.
Definition e2a_trace (tr : list (EthToAlgo.op * call)) : list (M unit * call) :=
  map (fun oc => (EthToAlgo.handler oc.1, oc.2)) tr.
Definition a2e_trace (tr : list (AlgoToEth.op * call)) : list (M unit * call) :=
  map (fun oc => (AlgoToEth.handler oc.1, oc.2)) tr.

(** The same call with other arguments. *)
Definition with_args (c : call) (args : list string) : call :=
  Call (Txn_application_id c) (Txn_sender c) args (Global_latest_timestamp c)
       (Global_current_application_address c).

(** The call of the fixed contract that corresponds to [c]: the
    operation name in front of the arguments of [c]. *)
Definition shifted (name : string) (c : call) : call :=
  with_args c (name :: Txn_application_args c).

(** Running transactions through an approval program that tests the
    completion action. *)
Definition run_program (p : OnComplete -> M unit)
    (txs : list (OnComplete * call)) (s : state) : state :=
  fold_left (fun s t => commit (p t.1) t.2 s) txs s.

(** The operation names the partial-fill program routes. *)
Definition pf_routes : list (string * PartialFill.op) :=
  [ ("create_htlc", PartialFill.OpCreateHtlc);
    ("partial_fill", PartialFill.OpPartialFill);
    ("withdraw", PartialFill.OpWithdraw);
    ("public_claim", PartialFill.OpPublicClaim);
    ("deposit", PartialFill.OpDeposit) ].

(** The state [create_htlc] of the partial-fill engine leaves. *)
Definition pf_htlc_set (h : string) (tl : Z) (rcp mk : string) (fl : Z)
    (s : state) : state :=
  gput PartialFill.partial_fills_enabled (VInt fl)
    (gput PartialFill.maker (VBytes mk)
    (gput PartialFill.recipient (VBytes rcp)
    (gput PartialFill.timelock (VInt tl)
    (gput PartialFill.hashlock (VBytes h) s)))).

(** The local state [create_htlc] of AlgorandHTLCBridge_EthToAlgo.py writes
    for the sender [a], followed by the escrow payment. *)
Definition e2a_created (a app id rcp : string) (amt : Z)
    (h : string) (tl : Z) (s : state) : state :=
  submit (Payment (VInt amt) (VBytes app))
    (lput a refunded_key (VInt 0)
    (lput a withdrawn_key (VInt 0)
    (lput a timelock_key (VInt tl)
    (lput a hashlock_key (VBytes h)
    (lput a amount_key (VInt amt)
    (lput a recipient_key (VBytes rcp)
    (lput a htlc_id_key (VBytes id) s))))))).

(** When a create of the one-way contracts succeeds, and what it
    leaves: [post a app id rcp amt h tl s]. *)
Definition one_way_create_spec (create : M unit)
    (post : string -> string -> string -> string -> Z -> string -> Z ->
            state -> state) : Prop :=
  forall c s s',
    create c s = Ok tt s' <->
    exists id rcp amt h tl,
      length (Txn_application_args c) = 6%nat /\
      arg_bytes c 1 = Some id /\ arg_bytes c 2 = Some rcp /\
      arg_uint c 3 = Some amt /\ arg_bytes c 4 = Some h /\
      arg_uint c 5 = Some tl /\ 0 < amt /\
      lget s (Txn_sender c) htlc_id_key = VInt 0 /\
      s' = post (Txn_sender c) (Global_current_application_address c)
             id rcp amt h tl s.

(** Running the operations of a contract, each through its handler. *)
Definition run_ops {Op : Type} (handler : Op -> M unit)
    (tr : list (Op * call)) (s : state) : state :=
  fold_left (fun s oc => commit (handler oc.1) oc.2 s) tr s.

(** The record of [a] is settled. *)
Definition record_terminal (a : string) (s : state) : Prop :=
  lget s a withdrawn_key = VInt 1 \/ lget s a refunded_key = VInt 1.

(** What one call does to the record of account [a]: nothing, or it
    creates the record, or it sets exactly one terminal flag of a record
    whose flags were both 0. *)
Definition record_effect (a : string) (s s' : state) : Prop :=
  (forall k, lget s' a k = lget s a k) \/
  (lget s a htlc_id_key = VInt 0 /\ has_record s' a /\
   lget s' a withdrawn_key = VInt 0 /\ lget s' a refunded_key = VInt 0) \/
  (has_record s a /\
   lget s a withdrawn_key = VInt 0 /\ lget s a refunded_key = VInt 0 /\
   lget s' a htlc_id_key = lget s a htlc_id_key /\
   ((lget s' a withdrawn_key = VInt 1 /\ lget s' a refunded_key = VInt 0) \/
    (lget s' a withdrawn_key = VInt 0 /\ lget s' a refunded_key = VInt 1))).

(** A record settles at most once: from a state in which the flags of
    [a] are 0, no run sets both; and once one is set, the settling
    operations sent by [a] fail and the record stays as it is. *)
Definition settles_once_spec {Op : Type} (handler : Op -> M unit)
    (run : list (Op * call) -> state -> state) (settling : list Op) : Prop :=
  forall a tr s,
    lget s a withdrawn_key = VInt 0 -> lget s a refunded_key = VInt 0 ->
    ~ (lget (run tr s) a withdrawn_key = VInt 1 /\
       lget (run tr s) a refunded_key = VInt 1) /\
    (record_terminal a (run tr s) ->
       (forall o c s',
          o ∈ settling -> Txn_sender c = a ->
          handler o c (run tr s) ≠ Ok tt s') /\
       (forall post k,
          lget (run post (run tr s)) a k = lget (run tr s) a k)).

(** Calls of an existing application. *)
Definition existing_app (cs : list call) : Prop :=
  Forall (fun c => Txn_application_id c ≠ 0) cs.

(** *** More example calls *)

Definition e2a_refund (id : string) (now : Z) : call :=
  mk_call "ALICE" ["refund_htlc"; id] now.

Definition fixed_create (id : string) (amount tl now : Z) (hashlock : string) : call :=
  mk_call "ALICE"
    ["create_htlc"; id; "ALICE"; "BOB"; Itob amount; hashlock; Itob tl; "0xB0B"]
    now.
Definition fixed_status (id : string) : call := mk_call "ALICE" ["status"; id] 0.
Definition fixed_update (sender key val : string) : call :=
  mk_call sender ["update"; key; val] 0.

(** The fixed bidirectional contract right after application creation,
    and after ALICE locked 1000 on "abc" until 7200. *)
Definition fixed_fresh : state :=
  HTLCBridgeFixed.created (mk_call "CREATOR" ["init"] 0).
Definition fixed_s1 : state :=
  HTLCBridgeFixed.run
    [(HTLCBridgeFixed.OpCreate, fixed_create "h1" 1000 7200 0 (Sha256 "abc"))]
    fixed_fresh.

(** ALICE's record "s1" locked on the three-byte hashlock "abc". *)
Definition e2a_s1_malformed : state :=
  commit EthToAlgo.create_htlc (e2a_create "s1" 1000 "abc" 7200 0) empty_state.

(** Record "s1" created and then claimed at time 10. *)
Definition e2a_s1_claimed : state :=
  EthToAlgo.run
    [(EthToAlgo.OpCreate, e2a_create "s1" 1000 (Sha256 "abc") 7200 0);
     (EthToAlgo.OpClaim, e2a_claim "s1" "abc" 10)] empty_state.

(** A [create_htlc] sent to the partial-fill engine by a third party. *)
Definition pf_takeover : call :=
  mk_call "MALLORY"
    ["create_htlc"; Sha256 "mine"; Itob 1; "MALLORY"; "MALLORY"; Itob 1] 0.

(** The fixed contract after its creator stored "60" under [MinTimelock]. *)
Definition fixed_retuned : state :=
  commit HTLCBridgeFixed.update_contract
    (fixed_update "CREATOR" min_timelock_key (Itob 60)) fixed_fresh.

(** ** AlgorandPartialFillBridge.py: schemas and client calls *)

Module PartialFillClient.

(** [StateSchema(num_uints, num_byte_slices)]. *)
Record StateSchema : Type := MkStateSchema {
  num_uints : nat;
  num_byte_slices : nat
}.

Definition get_local_schema : StateSchema := MkStateSchema 2 0.
Definition get_global_schema : StateSchema := MkStateSchema 10 5.

(** [n.to_bytes(8, 'big')]: raises [OverflowError] (here [None]) on a
    negative number and on one that does not fit eight bytes. *)
Definition to_bytes (n : Z) : option string :=
  if (0 <=? n) && (n <=? MAX_UINT64) then Some (Itob n) else None.

(** The [app_args] built by [create_htlc]. *)
Definition create_htlc (hashlock : string) (timelock : Z)
    (recipient maker : string) (partial_fills_enabled : bool)
    : option (list string) :=
  tl ← to_bytes timelock;
  fl ← to_bytes (if partial_fills_enabled then 1 else 0);
  Some ["create_htlc"; hashlock; tl; recipient; maker; fl].

(** The [app_args] built by [execute_partial_fill]. *)
Definition execute_partial_fill (fill_amount : Z) (secret : string)
    : option (list string) :=
  amt ← to_bytes fill_amount;
  Some ["partial_fill"; amt; secret].

(** *** [wait_for_confirmation]

    The node is reached through [client]; its answers are JSON objects,
    of which the loop reads integers and strings.  A call of the client
    returns or raises. *)

Inductive py : Type := PyInt (n : Z) | PyStr (s : string) | PyNone.

Inductive exception : Type :=
  | ClientError
  | KeyError (key : string)
  | TypeError
  | PoolError (v : py)
  | NotFoundInRounds (timeout : Z).

Inductive py_result (A : Type) : Type :=
  | Returns (a : A)
  | Raises (e : exception).
Arguments Returns {A} a.
Arguments Raises {A} e.

(** The client: [status()], the answer to the [k]-th
    [pending_transaction_info] request for a transaction, and
    [status_after_block(round)]. *)
Record algod_client : Type := AlgodClient {
  status : py_result (gmap string py);
  pending_transaction_info : string -> nat -> py_result (gmap string py);
  status_after_block : Z -> py_result unit
}.

(** [v > 0]: defined on integers only. *)
Definition gt_zero (v : py) : py_result bool :=
  match v with
  | PyInt n => Returns (0 <? n)
  | _ => Raises TypeError
  end.

(** The truth value of [v] in a condition. *)
Definition truthy (v : py) : bool :=
  match v with
  | PyInt n => negb (n =? 0)
  | PyStr s => negb (bool_decide (s = ""))
  | PyNone => false
  end.

(** The [while] loop; [polls] counts the requests made so far.  [None]
    when [fuel] iterations were not enough. *)
Fixpoint wait_loop (fuel : nat) (client : algod_client)
    (transaction_id : string) (timeout start_round current_round : Z)
    (polls : nat) : option (py_result (option (gmap string py))) :=
  match fuel with
  | O => None
  | S fuel' =>
      if current_round <? start_round + timeout then
        match pending_transaction_info client transaction_id polls with
        | Raises _ => Some (Returns None)
        | Returns pending_txn =>
            match gt_zero (default (PyInt 0) (pending_txn !! "confirmed-round")) with
            | Raises e => Some (Raises e)
            | Returns true => Some (Returns (Some pending_txn))
            | Returns false =>
                match pending_txn !! "pool-error" with
                | None => Some (Raises (KeyError "pool-error"))
                | Some v =>
                    if truthy v then Some (Raises (PoolError v))
                    else
                      match status_after_block client current_round with
                      | Raises e => Some (Raises e)
                      | Returns _ =>
                          wait_loop fuel' client transaction_id timeout
                            start_round (current_round + 1) (S polls)
                      end
                end
            end
        end
      else Some (Raises (NotFoundInRounds timeout))
  end.

Definition wait_for_confirmation (fuel : nat) (client : algod_client)
    (transaction_id : string) (timeout : Z)
    : option (py_result (option (gmap string py))) :=
  match status client with
  | Raises e => Some (Raises e)
  | Returns st =>
      match st !! "last-round" with
      | None => Some (Raises (KeyError "last-round"))
      | Some (PyInt n) =>
          wait_loop fuel client transaction_id timeout (n + 1) (n + 1) 0
      | Some _ => Some (Raises TypeError)
      end
  end.

(** What one answer decides, if anything: a failed request ends the wait
    with [None]; a positive "confirmed-round" returns the answer; a
    "confirmed-round" that is no integer, a missing "pool-error" and a
    "pool-error" that holds raise.  [None] when the loop goes on. *)
Definition verdict (answer : py_result (gmap string py))
    : option (py_result (option (gmap string py))) :=
  match answer with
  | Raises _ => Some (Returns None)
  | Returns pending_txn =>
      match default (PyInt 0) (pending_txn !! "confirmed-round") with
      | PyInt n =>
          if 0 <? n then Some (Returns (Some pending_txn))
          else match pending_txn !! "pool-error" with
               | None => Some (Raises (KeyError "pool-error"))
               | Some v => if truthy v then Some (Raises (PoolError v)) else None
               end
      | _ => Some (Raises TypeError)
      end
  end.

(** A node at round 100 that confirms the transaction at the second
    request, and one that never does. *)
Definition still_pending : gmap string py := {[ "pool-error" := PyStr "" ]}.
Definition confirmed_at_102 : gmap string py :=
  {[ "confirmed-round" := PyInt 102; "pool-error" := PyStr "" ]}.
Definition node_confirming : algod_client :=
  AlgodClient (Returns {[ "last-round" := PyInt 100 ]})
    (fun _ k => match k with
                | O => Returns still_pending
                | _ => Returns confirmed_at_102
                end)
    (fun _ => Returns tt).
Definition node_silent : algod_client :=
  AlgodClient (Returns {[ "last-round" := PyInt 100 ]})
    (fun _ _ => Returns still_pending)
    (fun _ => Returns tt).

End PartialFillClient.

(** The global keys of the partial-fill engine, by the type they hold. *)
Definition pf_uint_keys : list string :=
  [ PartialFill.total_deposited; PartialFill.total_filled;
    PartialFill.remaining_amount; PartialFill.executed; PartialFill.refunded;
    PartialFill.timelock; PartialFill.partial_fills_enabled ].
Definition pf_bytes_keys : list string :=
  [ PartialFill.hashlock; PartialFill.recipient; PartialFill.maker ].

Definition is_uint (v : value) : bool :=
  match v with VInt _ => true | VBytes _ => false end.
Definition is_bytes (v : value) : bool :=
  match v with VInt _ => false | VBytes _ => true end.

(** The number of global keys holding an integer, a byte string: what
    the ledger charges against the schema. *)
Definition uint_slots (s : state) : nat :=
  size (filter (fun kv : string * value => is_uint kv.2) (globals s)).
Definition byte_slots (s : state) : nat :=
  size (filter (fun kv : string * value => is_bytes kv.2) (globals s)).

(** Every global key is one of the engine's, with a value of its type. *)
Definition pf_typed (s : state) : Prop :=
  forall k v, globals s !! k = Some v ->
    (k ∈ pf_uint_keys /\ is_uint v) \/ (k ∈ pf_bytes_keys /\ is_bytes v).

(** * Proofs *)

Arguments Sha256 : simpl never.
Arguments gget : simpl never.
Arguments lget : simpl never.
Arguments gput : simpl never.
Arguments lput : simpl never.
Arguments submit : simpl never.
Arguments btoi_acc : simpl never.
Arguments bool_value b /.
Arguments v_eq : simpl never.
Arguments v_cmp : simpl never.
Arguments v_add : simpl never.
Arguments v_minus : simpl never.

(** ** SHA-256 test vectors (FIPS 180-4, appendix B) *)

Example sha256_abc :
  bytes_of_string (Sha256 "abc") =
  [0xba; 0x78; 0x16; 0xbf; 0x8f; 0x01; 0xcf; 0xea; 0x41; 0x41; 0x40; 0xde;
   0x5d; 0xae; 0x22; 0x23; 0xb0; 0x03; 0x61; 0xa3; 0x96; 0x17; 0x7a; 0x9c;
   0xb4; 0x10; 0xff; 0x61; 0xf2; 0x00; 0x15; 0xad].
Proof. vm_compute. reflexivity. Qed.

Example sha256_empty :
  bytes_of_string (Sha256 "") =
  [0xe3; 0xb0; 0xc4; 0x42; 0x98; 0xfc; 0x1c; 0x14; 0x9a; 0xfb; 0xf4; 0xc8;
   0x99; 0x6f; 0xb9; 0x24; 0x27; 0xae; 0x41; 0xe4; 0x64; 0x9b; 0x93; 0x4c;
   0xa4; 0x95; 0x99; 0x1b; 0x78; 0x52; 0xb8; 0x55].
Proof. vm_compute. reflexivity. Qed.

Example sha256_two_blocks :
  bytes_of_string
    (Sha256 "abcdbcdecdefdefgefghfghighijhijkijkljklmklmnlmnomnopnopq") =
  [0x24; 0x8d; 0x6a; 0x61; 0xd2; 0x06; 0x38; 0xb8; 0xe5; 0xc0; 0x26; 0x93;
   0x0c; 0x3e; 0x60; 0x39; 0xa3; 0x3c; 0xe4; 0x59; 0x64; 0xff; 0x21; 0x67;
   0xf6; 0xec; 0xed; 0xd4; 0x19; 0xdb; 0x06; 0xc1].
Proof. vm_compute. reflexivity. Qed.

(** ** Reading after writing *)

Section Store.
Implicit Types (s : state) (v : value) (k a : string) (p : payment).

Lemma gget_gput_eq k v s : gget (gput k v s) k = v.
Proof. unfold gget, gput; simpl. by rewrite lookup_insert_eq. Qed.

Lemma gget_gput_ne k k' v s : k ≠ k' -> gget (gput k v s) k' = gget s k'.
Proof. intros. unfold gget, gput; simpl. by rewrite lookup_insert_ne. Qed.

Lemma lget_lput_eq a k v s : lget (lput a k v s) a k = v.
Proof. unfold lget, lput; simpl. by rewrite lookup_insert_eq. Qed.

Lemma lget_lput_ne a k a' k' v s :
  (a, k) ≠ (a', k') -> lget (lput a k v s) a' k' = lget s a' k'.
Proof. intros. unfold lget, lput; simpl. by rewrite lookup_insert_ne. Qed.

Lemma lget_lput_key a k k' v s :
  k ≠ k' -> lget (lput a k v s) a k' = lget s a k'.
Proof. intros. apply lget_lput_ne. congruence. Qed.

Lemma lget_lput_acct a k a' k' v s :
  a ≠ a' -> lget (lput a k v s) a' k' = lget s a' k'.
Proof. intros. apply lget_lput_ne. congruence. Qed.

Lemma lget_gput a k k' v s : lget (gput k' v s) a k = lget s a k.
Proof. reflexivity. Qed.
Lemma gget_lput a k k' v s : gget (lput a k v s) k' = gget s k'.
Proof. reflexivity. Qed.
Lemma lget_submit a k p s : lget (submit p s) a k = lget s a k.
Proof. reflexivity. Qed.
Lemma gget_submit k p s : gget (submit p s) k = gget s k.
Proof. reflexivity. Qed.
Lemma inner_txns_gput k v s : inner_txns (gput k v s) = inner_txns s.
Proof. reflexivity. Qed.
Lemma inner_txns_lput a k v s : inner_txns (lput a k v s) = inner_txns s.
Proof. reflexivity. Qed.
Lemma inner_txns_submit p s : inner_txns (submit p s) = (inner_txns s ++ [p])%list.
Proof. reflexivity. Qed.
End Store.

Create Rewrite HintDb teal.
#[export] Hint Rewrite gget_gput_eq lget_lput_eq lget_gput gget_lput
  lget_submit gget_submit inner_txns_gput inner_txns_lput inner_txns_submit
  : teal.
#[export] Hint Rewrite gget_gput_ne lget_lput_key using done : teal.

(** ** Values and checks *)

Lemma v_eq_true a b n : v_eq a b = Some (VInt n) -> n ≠ 0 -> a = b.
Proof.
  unfold v_eq, bool_value.
  destruct a as [x|x], b as [y|y]; intros H Hn; try done.
  - destruct (x =? y) eqn:E; [apply Z.eqb_eq in E; congruence | congruence].
  - case_bool_decide; congruence.
Qed.

Lemma v_eq_false a b : v_eq a b = Some (VInt 0) -> a ≠ b.
Proof.
  unfold v_eq, bool_value.
  destruct a as [x|x], b as [y|y]; intros H; try done.
  - destruct (x =? y) eqn:E; [done | apply Z.eqb_neq in E; congruence].
  - case_bool_decide; [done | congruence].
Qed.

Lemma v_eq_refl_int n : v_eq (VInt n) (VInt n) = Some (VInt 1).
Proof. unfold v_eq. by rewrite Z.eqb_refl. Qed.

Lemma v_eq_refl_bytes b : v_eq (VBytes b) (VBytes b) = Some (VInt 1).
Proof. unfold v_eq. by rewrite bool_decide_eq_true_2. Qed.

Lemma v_eq_int x y :
  v_eq (VInt x) (VInt y) = Some (VInt (if x =? y then 1 else 0)).
Proof. reflexivity. Qed.

Lemma v_eq_bytes_ne x y : x ≠ y -> v_eq (VBytes x) (VBytes y) = Some (VInt 0).
Proof. intros. unfold v_eq. by rewrite bool_decide_eq_false_2. Qed.

Lemma v_cmp_true op x y :
  op x y = true -> v_cmp op (VInt x) (VInt y) = Some (VInt 1).
Proof. intros H. unfold v_cmp. by rewrite H. Qed.

Lemma v_cmp_false op x y :
  op x y = false -> v_cmp op (VInt x) (VInt y) = Some (VInt 0).
Proof. intros H. unfold v_cmp. by rewrite H. Qed.

Lemma v_add_ok x y :
  x + y <= MAX_UINT64 -> v_add (VInt x) (VInt y) = Some (VInt (x + y)).
Proof. intros H. unfold v_add. by rewrite (proj2 (Z.leb_le _ _) H). Qed.

Lemma v_add_overflow x y :
  MAX_UINT64 < x + y -> v_add (VInt x) (VInt y) = None.
Proof. intros H. unfold v_add. by rewrite (proj2 (Z.leb_gt _ _) H). Qed.

Lemma v_minus_ok x y :
  y <= x -> v_minus (VInt x) (VInt y) = Some (VInt (x - y)).
Proof. intros H. unfold v_minus. by rewrite (proj2 (Z.leb_le _ _) H). Qed.

#[export] Hint Rewrite v_eq_refl_int v_eq_refl_bytes : teal.
#[export] Hint Rewrite v_cmp_true v_cmp_false v_add_ok v_add_overflow
  v_minus_ok using lia : teal.
#[export] Hint Rewrite v_eq_bytes_ne using congruence : teal.

(** Unfolding the combinators down to the value operations. *)
Ltac teal_unfold :=
  unfold mbind, M_bind, mret, M_ret, Store, Assert, App_globalPut,
    App_globalPutDyn, App_localPut,
    InnerTxn_pay, If_, IfElse, Return, Eq, Lt, Gt, Le, Ge, Add, Minus, Or,
    Btoi, Sha256_, lift1, lift2, Int, Bytes, Load, Txn_sender_, Txn_arg,
    Txn_args_length, Global_latest_timestamp_, Txn_application_id_,
    Global_current_application_address_, App_globalGet, App_localGet in *.

Ltac teal_cases :=
  repeat (simpl in *; simplify_eq; try done; case_match).

(** Symbolic execution: rewrite the reads with what is known of the state. *)
Ltac teal_hyp :=
  match goal with
  | H : gget ?s ?k = _ |- context [gget ?s ?k] => rewrite H
  | H : lget ?s ?a ?k = _ |- context [lget ?s ?a ?k] => rewrite H
  | H : Txn_application_args ?c !! ?i = _
    |- context [Txn_application_args ?c !! ?i] => rewrite H
  | H : length (Txn_application_args ?c) = _
    |- context [length (Txn_application_args ?c)] => rewrite H
  end.
Ltac teal_run :=
  repeat (cbn; first [teal_hyp | progress autorewrite with teal]); cbn.

(** Case analysis on every check of an unfolded handler. *)
Ltac teal_crush :=
  teal_unfold; teal_cases;
  try (unfold v_eq, v_cmp, v_add, v_minus, v_or, v_btoi, v_sha256,
         bool_value in *; teal_cases).

(** ** Inversion of a successful run, statement by statement *)

Section Inversion.
Context {A : Type}.
Implicit Types (c : call) (s : state) (e : expr) (k : M A).

Lemma Assert_ok_inv err e k c s a s' :
  (Assert err e ;; k) c s = Ok a s' ->
  exists n, e c s = Some (VInt n) /\ n ≠ 0 /\ k c s = Ok a s'.
Proof.
  unfold mbind, M_bind, Assert.
  destruct (e c s) as [[n|]|]; try done.
  destruct (n =? 0) eqn:E; [done|]. apply Z.eqb_neq in E. eauto.
Qed.

Lemma Store_ok_inv e (f : value -> M A) c s a s' :
  (Store e ≫= f) c s = Ok a s' ->
  exists v, e c s = Some v /\ f v c s = Ok a s'.
Proof. unfold mbind, M_bind, Store. destruct (e c s); [eauto | done]. Qed.

Lemma globalPut_ok_inv key e k c s a s' :
  (App_globalPut key e ;; k) c s = Ok a s' ->
  exists v, e c s = Some v /\ k c (gput key v s) = Ok a s'.
Proof.
  unfold mbind, M_bind, App_globalPut. destruct (e c s); [eauto | done].
Qed.

Lemma localPut_ok_inv key e k c s a s' :
  (App_localPut Txn_sender_ key e ;; k) c s = Ok a s' ->
  exists v, e c s = Some v /\ k c (lput (Txn_sender c) key v s) = Ok a s'.
Proof.
  unfold mbind, M_bind, App_localPut, Txn_sender_.
  destruct (e c s); [eauto | done].
Qed.

Lemma pay_ok_inv amount receiver k c s a s' :
  (InnerTxn_pay amount receiver ;; k) c s = Ok a s' ->
  exists x r, amount c s = Some x /\ receiver c s = Some r /\
              k c (submit (Payment x r) s) = Ok a s'.
Proof.
  unfold mbind, M_bind, InnerTxn_pay.
  destruct (amount c s), (receiver c s); try done. eauto.
Qed.

Lemma If_ok_inv cond thn k c s a s' :
  (If_ cond thn ;; k) c s = Ok a s' ->
  exists n, cond c s = Some (VInt n) /\
    ((n = 0 /\ k c s = Ok a s') \/
     (n ≠ 0 /\ exists s1, thn c s = Ok tt s1 /\ k c s1 = Ok a s')).
Proof.
  unfold mbind, M_bind, If_.
  destruct (cond c s) as [[n|]|]; try done.
  destruct (n =? 0) eqn:E.
  - apply Z.eqb_eq in E. eauto.
  - apply Z.eqb_neq in E. destruct (thn c s) as [[] s1|]; [|done].
    intros. exists n. split; [done|]. right. eauto.
Qed.
End Inversion.

Lemma Return_ok_inv e c s s' :
  Return e c s = Ok tt s' -> s' = s.
Proof.
  unfold Return. destruct (e c s) as [[n|]|]; try done.
  destruct (n =? 0); congruence.
Qed.

Lemma globalPut_last_inv key e c s s' :
  App_globalPut key e c s = Ok tt s' ->
  exists v, e c s = Some v /\ s' = gput key v s.
Proof. unfold App_globalPut. destruct (e c s); [|done]. intros; simplify_eq; eauto. Qed.

Lemma v_cmp_inv op a b n :
  v_cmp op a b = Some (VInt n) -> n ≠ 0 ->
  exists x y, a = VInt x /\ b = VInt y /\ op x y = true.
Proof.
  unfold v_cmp. destruct a as [x|], b as [y|]; try done.
  destruct (op x y) eqn:E; cbn; intros; simplify_eq; eauto.
Qed.

Lemma v_add_inv a b v :
  v_add a b = Some v ->
  exists x y, a = VInt x /\ b = VInt y /\ x + y <= MAX_UINT64 /\ v = VInt (x + y).
Proof.
  unfold v_add. destruct a as [x|], b as [y|]; try done.
  destruct (x + y <=? MAX_UINT64) eqn:E; [|done].
  apply Z.leb_le in E. intros; simplify_eq. eauto 6.
Qed.

Lemma v_minus_inv a b v :
  v_minus a b = Some v ->
  exists x y, a = VInt x /\ b = VInt y /\ y <= x /\ v = VInt (x - y).
Proof.
  unfold v_minus. destruct a as [x|], b as [y|]; try done.
  destruct (y <=? x) eqn:E; [|done].
  apply Z.leb_le in E. intros; simplify_eq. eauto 6.
Qed.

Lemma Btoi_arg i c s :
  Btoi (Txn_arg i) c s = VInt <$> arg_uint c i.
Proof.
  unfold Btoi, lift1, Txn_arg, arg_uint.
  destruct (Txn_application_args c !! i) as [b|]; cbn; [|done].
  by destruct (String.length b <=? 8)%nat.
Qed.

Lemma Btoi_arg_inv i c s v :
  Btoi (Txn_arg i) c s = Some v -> exists n, arg_uint c i = Some n /\ v = VInt n.
Proof.
  rewrite Btoi_arg. destruct (arg_uint c i); cbn; intros; simplify_eq; eauto.
Qed.

Lemma Txn_arg_inv i c s v :
  Txn_arg i c s = Some v -> exists b, arg_bytes c i = Some b /\ v = VBytes b.
Proof.
  unfold Txn_arg, arg_bytes.
  destruct (Txn_application_args c !! i); cbn; intros; simplify_eq; eauto.
Qed.

Lemma Sha256_inv e c s v :
  Sha256_ e c s = Some v ->
  exists b, e c s = Some (VBytes b) /\ v = VBytes (Sha256 b).
Proof.
  unfold Sha256_, lift1. destruct (e c s) as [[|b]|]; cbn; intros; simplify_eq; eauto.
Qed.

Lemma lift2_inv f e1 e2 c s v :
  lift2 f e1 e2 c s = Some v ->
  exists a b, e1 c s = Some a /\ e2 c s = Some b /\ f a b = Some v.
Proof.
  unfold lift2. destruct (e1 c s), (e2 c s); try done. eauto.
Qed.

(** Peel the statements of a successful handler run [H] one by one. *)
Ltac teal_inv H :=
  repeat first
    [ apply Assert_ok_inv in H as (? & ? & ? & H)
    | apply Store_ok_inv in H as (? & ? & H)
    | apply globalPut_ok_inv in H as (? & ? & H)
    | apply localPut_ok_inv in H as (? & ? & H)
    | apply pay_ok_inv in H as (? & ? & ? & ? & H)
    | apply Return_ok_inv in H ].

(** Reduce the recorded expression facts to facts on values. *)
Ltac teal_facts :=
  repeat match goal with
  | H : Btoi (Txn_arg _) _ _ = Some _ |- _ =>
      apply Btoi_arg_inv in H as (? & ? & ?)
  | H : Txn_arg _ _ _ = Some _ |- _ => apply Txn_arg_inv in H as (? & ? & ?)
  | H : Sha256_ _ _ _ = Some _ |- _ => apply Sha256_inv in H as (? & ? & ?)
  | H : Load _ _ _ = Some _ |- _ => unfold Load in H
  | H : Int _ _ _ = Some _ |- _ => unfold Int in H
  | H : Bytes _ _ _ = Some _ |- _ => unfold Bytes in H
  | H : App_globalGet _ _ _ = Some _ |- _ => unfold App_globalGet in H
  | H : App_localGet Txn_sender_ _ _ _ = Some _ |- _ =>
      unfold App_localGet, Txn_sender_ in H
  | H : Txn_sender_ _ _ = Some _ |- _ => unfold Txn_sender_ in H
  | H : Txn_args_length _ _ = Some _ |- _ => unfold Txn_args_length in H
  | H : Global_latest_timestamp_ _ _ = Some _ |- _ =>
      unfold Global_latest_timestamp_ in H
  | H : Global_current_application_address_ _ _ = Some _ |- _ =>
      unfold Global_current_application_address_ in H
  | H : Eq _ _ _ _ = Some _ |- _ =>
      unfold Eq in H; apply lift2_inv in H as (? & ? & ? & ? & H)
  | H : Lt _ _ _ _ = Some _ |- _ =>
      unfold Lt in H; apply lift2_inv in H as (? & ? & ? & ? & H)
  | H : Gt _ _ _ _ = Some _ |- _ =>
      unfold Gt in H; apply lift2_inv in H as (? & ? & ? & ? & H)
  | H : Le _ _ _ _ = Some _ |- _ =>
      unfold Le in H; apply lift2_inv in H as (? & ? & ? & ? & H)
  | H : Ge _ _ _ _ = Some _ |- _ =>
      unfold Ge in H; apply lift2_inv in H as (? & ? & ? & ? & H)
  | H : Add _ _ _ _ = Some _ |- _ =>
      unfold Add in H; apply lift2_inv in H as (? & ? & ? & ? & H)
  | H : Minus _ _ _ _ = Some _ |- _ =>
      unfold Minus in H; apply lift2_inv in H as (? & ? & ? & ? & H)
  | H : Or _ _ _ _ = Some _ |- _ =>
      unfold Or in H; apply lift2_inv in H as (? & ? & ? & ? & H)
  | H : v_eq _ _ = Some (VInt ?n), Hn : ?n ≠ 0 |- _ =>
      apply v_eq_true in H; [|exact Hn]
  | H : v_cmp _ _ _ = Some (VInt ?n), Hn : ?n ≠ 0 |- _ =>
      apply v_cmp_inv in H as (? & ? & ? & ? & H); [|exact Hn]
  | H : v_add _ _ = Some _ |- _ => apply v_add_inv in H as (? & ? & ? & ? & ? & ?)
  | H : v_minus _ _ = Some _ |- _ =>
      apply v_minus_inv in H as (? & ? & ? & ? & ? & ?)
  | H : Some _ = Some _ |- _ => injection H as H
  | H1 : ?t = VInt ?a, H2 : ?t = VInt ?b |- _ =>
      assert (a = b) by congruence; clear H2
  | H1 : ?t = VBytes ?a, H2 : ?t = VBytes ?b |- _ =>
      assert (a = b) by congruence; clear H2
  | H : VInt _ = VInt _ |- _ => injection H as H
  | H : VBytes _ = VBytes _ |- _ => injection H as H
  | _ => progress subst
  end.

#[export] Hint Rewrite lget_lput_acct using congruence : teal.

Lemma Store_Btoi_arg i c s f (k : value -> M unit) :
  arg_uint c i = Some f ->
  (Store (Btoi (Txn_arg i)) ≫= k) c s = k (VInt f) c s.
Proof.
  intros H. unfold mbind, M_bind, Store. rewrite Btoi_arg, H. done.
Qed.

Lemma Store_arg i c s b (k : value -> M unit) :
  arg_bytes c i = Some b ->
  (Store (Txn_arg i) ≫= k) c s = k (VBytes b) c s.
Proof.
  unfold arg_bytes. intros H. unfold mbind, M_bind, Store, Txn_arg.
  rewrite H. done.
Qed.

Lemma args_length_inv c n :
  VInt (Z.of_nat (length (Txn_application_args c))) = VInt (Z.of_nat n) ->
  length (Txn_application_args c) = n.
Proof. intros H. injection H as H. lia. Qed.

Lemma bind_assoc {A B C} (m : M A) (f : A -> M B) (g : B -> M C) c s :
  ((m ≫= f) ≫= g) c s = (m ≫= (fun x => f x ≫= g)) c s.
Proof. unfold mbind, M_bind. by destruct (m c s). Qed.

Lemma mret_bind {A B} (x : A) (k : A -> M B) c s : (mret x ≫= k) c s = k x c s.
Proof. reflexivity. Qed.

Lemma IfElse_bind_ok_inv {A B} cond (thn els : M A) (k : A -> M B) c s b s' :
  (IfElse cond thn els ≫= k) c s = Ok b s' ->
  exists n, cond c s = Some (VInt n) /\
    ((n ≠ 0 /\ (thn ≫= k) c s = Ok b s') \/
     (n = 0 /\ (els ≫= k) c s = Ok b s')).
Proof.
  unfold mbind, M_bind, IfElse.
  destruct (cond c s) as [[n|]|]; try done.
  destruct (n =? 0) eqn:E.
  - apply Z.eqb_eq in E. eauto.
  - apply Z.eqb_neq in E. eauto.
Qed.

(** [teal_inv] for a handler whose statements are nested to the left. *)
Ltac teal_inv_assoc H :=
  repeat first
    [ rewrite bind_assoc in H; cbv beta in H
    | rewrite mret_bind in H; cbv beta in H
    | apply Assert_ok_inv in H as (? & ? & ? & H)
    | apply Store_ok_inv in H as (? & ? & H); cbv beta in H
    | apply globalPut_ok_inv in H as (? & ? & H)
    | apply localPut_ok_inv in H as (? & ? & H)
    | apply pay_ok_inv in H as (? & ? & ? & ? & H)
    | apply Return_ok_inv in H ].

(** Closed goals about concrete runs, decided by evaluation. *)
Ltac by_vm :=
  repeat match goal with |- _ /\ _ => split end;
  vm_compute; first [reflexivity | discriminate].

(** ** A failed handler has written nothing

    Checks ([Assert], [Store]) only read, so a sequence of checks aborts
    with the state it started from; the writes that follow the last check
    take their values from scratch variables and cannot abort. *)

Section Atomicity.
Context {A B : Type}.
Implicit Types (m : M A) (k : A -> M B).

Lemma bind_aborts_clean m k :
reads_only m -> aborts_clean m -> (forall a, aborts_clean (k a)) ->
aborts_clean (m ≫= k).
Proof.
intros Hr Hm Hk c s e s'. unfold mbind, M_bind.
destruct (m c s) as [a s1 | e1 s1] eqn:E.
- apply Hr in E as ->. apply Hk.
- intros H. injection H as <- <-. by apply Hm in E.
Qed.

Lemma bind_reads_only m k :
reads_only m -> (forall a, reads_only (k a)) -> reads_only (m ≫= k).
Proof.
intros Hr Hk c s b s'. unfold mbind, M_bind.
destruct (m c s) as [a s1 | e1 s1] eqn:E; [|done].
apply Hr in E as ->. apply Hk.
Qed.

Lemma bind_never_aborts m k :
never_aborts m -> (forall a, never_aborts (k a)) -> never_aborts (m ≫= k).
Proof.
intros Hm Hk c s e s'. unfold mbind, M_bind.
destruct (m c s) as [a s1 | e1 s1] eqn:E; [apply Hk|].
by apply Hm in E.
Qed.

Lemma never_aborts_clean m : never_aborts m -> aborts_clean m.
Proof. intros H c s e s' E. by apply H in E. Qed.

Lemma mret_reads_only (a : A) : reads_only (mret a : M A).
Proof. intros c s a' s' H. by injection H as _ <-. Qed.

Lemma IfElse_reads_only cond (thn els : M A) :
reads_only thn -> reads_only els -> reads_only (IfElse cond thn els).
Proof.
intros Ht He c s a s'. unfold IfElse.
destruct (cond c s) as [[n|]|]; try done.
destruct (n =? 0); [apply He | apply Ht].
Qed.

Lemma IfElse_aborts_clean cond (thn els : M A) :
aborts_clean thn -> aborts_clean els -> aborts_clean (IfElse cond thn els).
Proof.
intros Ht He c s e s'. unfold IfElse.
destruct (cond c s) as [[n|]|]; try (intros H; by injection H as <- <-).
destruct (n =? 0); [apply He | apply Ht].
Qed.
End Atomicity.

Lemma Assert_reads_only err e : reads_only (Assert err e).
Proof.
  intros c s a s'. unfold Assert. destruct (e c s) as [[n|]|]; try done.
  destruct (n =? 0); [done|]. intros H. by injection H as <-.
Qed.

Lemma Assert_aborts_clean err e : aborts_clean (Assert err e).
Proof.
  intros c s x s'. unfold Assert.
  destruct (e c s) as [[n|]|]; try (intros H; by injection H as <- <-).
  destruct (n =? 0); [|done]. intros H. by injection H as <- <-.
Qed.

Lemma Store_reads_only e : reads_only (Store e).
Proof.
  intros c s a s'. unfold Store. destruct (e c s); [|done].
  intros H. by injection H as _ <-.
Qed.

Lemma Store_aborts_clean e : aborts_clean (Store e).
Proof.
  intros c s x s'. unfold Store. destruct (e c s); [done|].
  intros H. by injection H as <- <-.
Qed.

Lemma globalPut_never_aborts k e :
  expr_total e -> never_aborts (App_globalPut k e).
Proof.
  intros He c s x s'. unfold App_globalPut. by destruct (He c s) as [v ->].
Qed.

Lemma localPut_never_aborts k e :
  expr_total e -> never_aborts (App_localPut Txn_sender_ k e).
Proof.
  intros He c s x s'. unfold App_localPut, Txn_sender_.
  by destruct (He c s) as [v ->].
Qed.

Lemma pay_never_aborts a r :
  expr_total a -> expr_total r -> never_aborts (InnerTxn_pay a r).
Proof.
  intros Ha Hr c s x s'. unfold InnerTxn_pay.
  destruct (Ha c s) as [v ->]. by destruct (Hr c s) as [w ->].
Qed.

Lemma Return_aborts_clean e : aborts_clean (Return e).
Proof.
  intros c s x s'. unfold Return.
  destruct (e c s) as [[n|]|]; try (intros H; by injection H as <- <-).
  destruct (n =? 0); [|done]. intros H. by injection H as <- <-.
Qed.

Lemma Return_one_never_aborts : never_aborts (Return (Int 1)).
Proof. intros c s x s'. done. Qed.

Lemma Load_total v : expr_total (Load v).
Proof. intros c s. by eexists. Qed.
Lemma Int_total n : expr_total (Int n).
Proof. intros c s. by eexists. Qed.
Lemma Bytes_total b : expr_total (Bytes b).
Proof. intros c s. by eexists. Qed.
Lemma Txn_sender_total : expr_total Txn_sender_.
Proof. intros c s. by eexists. Qed.
Lemma app_address_total : expr_total Global_current_application_address_.
Proof. intros c s. by eexists. Qed.
Lemma localGet_sender_total k : expr_total (App_localGet Txn_sender_ k).
Proof. intros c s. by eexists. Qed.

(** One step of the atomicity argument, driven by the next statement. *)
Ltac atomic_step :=
  lazymatch goal with
  | |- aborts_clean (Assert _ _ ≫= _) =>
      apply bind_aborts_clean;
        [apply Assert_reads_only | apply Assert_aborts_clean | intros ?]
  | |- aborts_clean (Store _ ≫= _) =>
      apply bind_aborts_clean;
        [apply Store_reads_only | apply Store_aborts_clean | intros ?]
  | |- aborts_clean _ => apply never_aborts_clean
  | |- reads_only (Assert _ _ ≫= _) =>
      apply bind_reads_only; [apply Assert_reads_only | intros ?]
  | |- reads_only (Store _ ≫= _) =>
      apply bind_reads_only; [apply Store_reads_only | intros ?]
  | |- reads_only (mret _) => apply mret_reads_only
  | |- never_aborts (_ ≫= _) => apply bind_never_aborts; [|intros ?]
  | |- never_aborts (App_localPut Txn_sender_ _ _) =>
      apply localPut_never_aborts
  | |- never_aborts (App_globalPut _ _) => apply globalPut_never_aborts
  | |- never_aborts (InnerTxn_pay _ _) => apply pay_never_aborts
  | |- never_aborts (Return (Int 1)) => apply Return_one_never_aborts
  | |- expr_total (Load _) => apply Load_total
  | |- expr_total (Int _) => apply Int_total
  | |- expr_total (Bytes _) => apply Bytes_total
  | |- expr_total Txn_sender_ => apply Txn_sender_total
  | |- expr_total Global_current_application_address_ =>
      apply app_address_total
  | |- expr_total (App_localGet Txn_sender_ _) => apply localGet_sender_total
  end.
Ltac atomic := repeat atomic_step.

Lemma pf_htlc_creation_abort c s e s' :
  PartialFill.handle_htlc_creation c s = Abort e s' -> s' = s.
Proof.
  revert c s e s'. change (aborts_clean PartialFill.handle_htlc_creation).
  unfold PartialFill.handle_htlc_creation. atomic.
Qed.

(** The writes of a fill evaluate arithmetic: here the checks before them
    are what rules out a failure after the first write. *)
Lemma pf_partial_fill_abort c s e s' :
  PartialFill.handle_partial_fill c s = Abort e s' -> s' = s.
Proof. unfold PartialFill.handle_partial_fill. intros H. teal_crush. Qed.

Lemma pf_withdrawal_abort c s e s' :
  PartialFill.handle_withdrawal c s = Abort e s' -> s' = s.
Proof.
  revert c s e s'. change (aborts_clean PartialFill.handle_withdrawal).
  unfold PartialFill.handle_withdrawal. atomic.
Qed.

Lemma pf_public_claim_abort c s e s' :
  PartialFill.handle_public_claim c s = Abort e s' -> s' = s.
Proof.
  revert c s e s'. change (aborts_clean PartialFill.handle_public_claim).
  unfold PartialFill.handle_public_claim. atomic.
Qed.

(** Both writes of a deposit evaluate the same sum. *)
Lemma pf_deposit_abort c s e s' :
  PartialFill.handle_deposit c s = Abort e s' -> s' = s.
Proof. unfold PartialFill.handle_deposit. intros H. teal_crush. Qed.

Lemma bridge_create_abort c s e s' :
  HTLCBridge.create_htlc c s = Abort e s' -> s' = s.
Proof.
  revert c s e s'. change (aborts_clean HTLCBridge.create_htlc).
  unfold HTLCBridge.create_htlc. atomic.
Qed.

Lemma bridge_withdraw_abort c s e s' :
  HTLCBridge.withdraw_htlc c s = Abort e s' -> s' = s.
Proof.
  revert c s e s'. change (aborts_clean HTLCBridge.withdraw_htlc).
  unfold HTLCBridge.withdraw_htlc. atomic.
Qed.

Lemma bridge_refund_abort c s e s' :
  HTLCBridge.refund_htlc c s = Abort e s' -> s' = s.
Proof.
  revert c s e s'. change (aborts_clean HTLCBridge.refund_htlc).
  unfold HTLCBridge.refund_htlc. atomic.
Qed.

Lemma bridge_status_abort c s e s' :
  HTLCBridge.get_htlc_status c s = Abort e s' -> s' = s.
Proof.
  revert c s e s'. change (aborts_clean HTLCBridge.get_htlc_status).
  unfold HTLCBridge.get_htlc_status. do 2 atomic_step.
  apply Return_aborts_clean.
Qed.

(** The key of an update is whatever argument 0 holds; a byte string
    always. *)
Lemma bridge_update_abort c s e s' :
  HTLCBridge.update_contract c s = Abort e s' -> s' = s.
Proof.
  unfold HTLCBridge.update_contract. intros H. teal_crush.
Qed.

Lemma load_create_args_reads_only : reads_only HTLCBridgeFixed.load_create_args.
Proof.
  unfold HTLCBridgeFixed.load_create_args.
  apply IfElse_reads_only; atomic.
Qed.

Lemma load_create_args_aborts_clean :
  aborts_clean HTLCBridgeFixed.load_create_args.
Proof.
  unfold HTLCBridgeFixed.load_create_args.
  apply IfElse_aborts_clean; atomic; intros c s e s' H; done.
Qed.

Lemma fixed_create_abort c s e s' :
  HTLCBridgeFixed.create_htlc c s = Abort e s' -> s' = s.
Proof.
  revert c s e s'. change (aborts_clean HTLCBridgeFixed.create_htlc).
  unfold HTLCBridgeFixed.create_htlc. atomic_step.
  apply bind_aborts_clean;
    [apply load_create_args_reads_only | apply load_create_args_aborts_clean |].
  intros args. atomic.
Qed.

Lemma fixed_withdraw_abort c s e s' :
  HTLCBridgeFixed.withdraw_htlc c s = Abort e s' -> s' = s.
Proof.
  revert c s e s'. change (aborts_clean HTLCBridgeFixed.withdraw_htlc).
  unfold HTLCBridgeFixed.withdraw_htlc. atomic.
Qed.

Lemma fixed_refund_abort c s e s' :
  HTLCBridgeFixed.refund_htlc c s = Abort e s' -> s' = s.
Proof.
  revert c s e s'. change (aborts_clean HTLCBridgeFixed.refund_htlc).
  unfold HTLCBridgeFixed.refund_htlc. atomic.
Qed.

Lemma e2a_create_abort c s e s' :
  EthToAlgo.create_htlc c s = Abort e s' -> s' = s.
Proof.
  revert c s e s'. change (aborts_clean EthToAlgo.create_htlc).
  unfold EthToAlgo.create_htlc. atomic.
Qed.

Lemma e2a_claim_abort c s e s' :
  EthToAlgo.claim_htlc c s = Abort e s' -> s' = s.
Proof.
  revert c s e s'. change (aborts_clean EthToAlgo.claim_htlc).
  unfold EthToAlgo.claim_htlc. atomic.
Qed.

Lemma e2a_refund_abort c s e s' :
  EthToAlgo.refund_htlc c s = Abort e s' -> s' = s.
Proof.
  revert c s e s'. change (aborts_clean EthToAlgo.refund_htlc).
  unfold EthToAlgo.refund_htlc. atomic.
Qed.

Lemma a2e_create_abort c s e s' :
  AlgoToEth.create_htlc c s = Abort e s' -> s' = s.
Proof.
  revert c s e s'. change (aborts_clean AlgoToEth.create_htlc).
  unfold AlgoToEth.create_htlc. atomic.
Qed.

Lemma a2e_reveal_abort c s e s' :
  AlgoToEth.reveal_secret c s = Abort e s' -> s' = s.
Proof.
  revert c s e s'. change (aborts_clean AlgoToEth.reveal_secret).
  unfold AlgoToEth.reveal_secret. atomic.
Qed.

(** Deciding a concrete run by its outcome alone. *)
Lemma ok_commit (h : M unit) c s :
  outcome (h c s) = None -> h c s = Ok tt (commit h c s).
Proof. unfold commit. by destruct (h c s) as [[] s' | e s']. Qed.

Lemma abort_outcome (h : M unit) c s e :
  aborts_clean h -> outcome (h c s) = Some e -> h c s = Abort e s.
Proof.
  intros Hh. destruct (h c s) as [[] s' | e' s'] eqn:E; [done|].
  intros H. injection H as ->. by apply Hh in E as ->.
Qed.

(** ** The partial-fill engine: what each handler does *)

Section PartialFillFacts.
Import PartialFill.
Implicit Types (c : call) (s : state).

Lemma pf_partial_fill_ok c s f sec t r :
  arg_uint c 1 = Some f -> arg_bytes c 2 = Some sec ->
  gget s executed = VInt 0 -> gget s refunded = VInt 0 ->
  gget s hashlock = VBytes (Sha256 sec) ->
  gget s remaining_amount = VInt r -> gget s total_filled = VInt t ->
  0 < f <= r -> t + f <= MAX_UINT64 ->
  handle_partial_fill c s = Ok tt (filled t r f s).
Proof.
  intros Hf Hs He Hr Hh Hrem Ht Hrange Hov.
  unfold handle_partial_fill, filled.
  rewrite (Store_Btoi_arg _ _ _ _ _ Hf), (Store_arg _ _ _ _ _ Hs).
  teal_unfold. teal_run. rewrite v_eq_int.
  destruct (r - f =? 0); reflexivity.
Qed.

Lemma pf_partial_fill_inv c s s' :
  handle_partial_fill c s = Ok tt s' ->
  exists f sec t r,
    arg_uint c 1 = Some f /\ arg_bytes c 2 = Some sec /\
    gget s executed = VInt 0 /\ gget s refunded = VInt 0 /\
    gget s hashlock = VBytes (Sha256 sec) /\
    gget s remaining_amount = VInt r /\ gget s total_filled = VInt t /\
    0 < f <= r /\ t + f <= MAX_UINT64 /\ s' = filled t r f s.
Proof.
  unfold handle_partial_fill. intros H. teal_inv H.
  apply If_ok_inv in H as (n & Hc & H).
  teal_facts.
  match goal with
  | H1 : arg_uint c 1 = Some ?f, H2 : arg_bytes c 2 = Some ?sec,
    H3 : gget s remaining_amount = VInt ?r,
    H4 : gget s total_filled = VInt ?t |- _ => exists f, sec, t, r
  end.
  repeat split; try done; try lia.
  unfold filled. rewrite v_eq_int in Hc.
  destruct (_ =? 0) eqn:E; simplify_eq.
  - destruct H as [[? _]|[_ (s1 & Hput & Hret)]]; [done|].
    apply Return_ok_inv in Hret.
    apply globalPut_last_inv in Hput as (v & Hv & ->).
    unfold Int in Hv. by simplify_eq.
  - destruct H as [[_ H]|[? _]]; [|done].
    by apply Return_ok_inv in H.
Qed.

Lemma pf_withdrawal_inv c s s' :
  handle_withdrawal c s = Ok tt s' ->
  gget s executed = VInt 0 /\ gget s refunded = VInt 0 /\
  gget s maker = VBytes (Txn_sender c) /\ s' = gput refunded (VInt 1) s.
Proof.
  unfold handle_withdrawal. intros H. teal_inv H. teal_facts. done.
Qed.

Lemma pf_withdrawal_ok c s :
  gget s executed = VInt 0 -> gget s refunded = VInt 0 ->
  gget s maker = VBytes (Txn_sender c) ->
  handle_withdrawal c s = Ok tt (gput refunded (VInt 1) s).
Proof.
  intros He Hr Hm. unfold handle_withdrawal. teal_unfold. teal_run. done.
Qed.

Lemma pf_public_claim_inv c s s' :
  handle_public_claim c s = Ok tt s' ->
  exists sec, arg_bytes c 1 = Some sec /\
    gget s executed = VInt 0 /\ gget s refunded = VInt 0 /\
    gget s hashlock = VBytes (Sha256 sec) /\ s' = gput executed (VInt 1) s.
Proof.
  unfold handle_public_claim. intros H. teal_inv H. teal_facts. eauto 6.
Qed.

Lemma pf_public_claim_ok c s sec :
  arg_bytes c 1 = Some sec ->
  gget s executed = VInt 0 -> gget s refunded = VInt 0 ->
  gget s hashlock = VBytes (Sha256 sec) ->
  handle_public_claim c s = Ok tt (gput executed (VInt 1) s).
Proof.
  intros Hs He Hr Hh. unfold handle_public_claim.
  rewrite (Store_arg _ _ _ _ _ Hs). teal_unfold. teal_run. done.
Qed.

Lemma pf_deposit_inv c s s' :
  handle_deposit c s = Ok tt s' ->
  exists a d, arg_uint c 1 = Some a /\ gget s total_deposited = VInt d /\
    d + a <= MAX_UINT64 /\ s' = deposited d a s.
Proof.
  unfold handle_deposit. intros H. teal_inv H. teal_facts.
  unfold deposited. eauto 6.
Qed.

Lemma pf_deposit_ok c s a d :
  arg_uint c 1 = Some a -> gget s total_deposited = VInt d ->
  d + a <= MAX_UINT64 ->
  handle_deposit c s = Ok tt (deposited d a s).
Proof.
  intros Ha Hd Hov. unfold handle_deposit, deposited.
  rewrite (Store_Btoi_arg _ _ _ _ _ Ha). teal_unfold. teal_run. done.
Qed.

Lemma pf_htlc_creation_inv c s s' :
  handle_htlc_creation c s = Ok tt s' ->
  exists h T r m p,
    s' = gput partial_fills_enabled p (gput maker m (gput recipient r
           (gput timelock T (gput hashlock h s)))).
Proof.
  unfold handle_htlc_creation. intros H. teal_inv H. teal_facts. eauto 6.
Qed.
End PartialFillFacts.

(** ** The partial-fill engine over sequences of calls *)

Section PartialFillTrace.
Import PartialFill.
Implicit Types (c : call) (s : state) (oc : op * call) (tr : list (op * call)).

Lemma pf_created c :
  gget (created c) executed = VInt 0 /\ gget (created c) refunded = VInt 0 /\
  gget (created c) total_filled = VInt 0 /\
  gget (created c) remaining_amount = VInt 0 /\
  gget (created c) total_deposited = VInt 0.
Proof. repeat split; reflexivity. Qed.

Lemma pf_step_ok s oc :
  step s oc = s \/ handler oc.1 oc.2 s = Ok tt (step s oc).
Proof.
  unfold step, commit. destruct (handler oc.1 oc.2 s) as [[] s'|]; auto.
Qed.

Lemma pf_run_cons oc tr s : run (oc :: tr) s = run tr (step s oc).
Proof. reflexivity. Qed.

(** A call leaves both flags alone, or moves a record with both flags 0
    to exactly one flag set. *)
Lemma pf_step_flags s oc :
  (gget (step s oc) executed = gget s executed /\
   gget (step s oc) refunded = gget s refunded) \/
  (gget s executed = VInt 0 /\ gget s refunded = VInt 0 /\
   ((gget (step s oc) executed = VInt 1 /\ gget (step s oc) refunded = VInt 0) \/
    (gget (step s oc) executed = VInt 0 /\ gget (step s oc) refunded = VInt 1))).
Proof.
  destruct (pf_step_ok s oc) as [-> | H]; [by left|].
  destruct oc as [o c]; simpl in H. destruct o; simpl in H.
  - apply pf_htlc_creation_inv in H as (h & T & r & m & p & ->).
    left. by autorewrite with teal.
  - apply pf_partial_fill_inv in H
      as (f & sec & t & r & _ & _ & He & Hr & _ & _ & _ & _ & _ & ->).
    unfold filled. destruct (r - f =? 0).
    + right. autorewrite with teal. rewrite Hr. auto.
    + left. by autorewrite with teal.
  - apply pf_withdrawal_inv in H as (He & Hr & _ & ->).
    right. autorewrite with teal. rewrite He. auto.
  - apply pf_public_claim_inv in H as (sec & _ & He & Hr & _ & ->).
    right. autorewrite with teal. rewrite Hr. auto.
  - apply pf_deposit_inv in H as (a & d & _ & _ & _ & ->).
    left. unfold deposited. by autorewrite with teal.
Qed.

Lemma pf_flags_wf_step s oc : pf_flags_wf s -> pf_flags_wf (step s oc).
Proof.
  unfold pf_flags_wf. intros (He & Hr & Hn).
  destruct (pf_step_flags s oc) as [[-> ->] | (E0 & R0 & [[-> ->] | [-> ->]])];
    naive_solver.
Qed.

Lemma pf_flags_wf_run tr s : pf_flags_wf s -> pf_flags_wf (run tr s).
Proof.
  revert s. induction tr as [|oc tr IH]; intros s H; [done|].
  rewrite pf_run_cons. by apply IH, pf_flags_wf_step.
Qed.

Lemma pf_flags_wf_created c : pf_flags_wf (created c).
Proof.
  destruct (pf_created c) as (He & Hr & _).
  unfold pf_flags_wf. rewrite He, Hr. naive_solver.
Qed.

(** Terminal records are frozen. *)
Lemma pf_terminal_step s oc :
  terminal s ->
  gget (step s oc) executed = gget s executed /\
  gget (step s oc) refunded = gget s refunded.
Proof.
  intros Ht. destruct (pf_step_flags s oc) as [H | (E0 & R0 & _)]; [done|].
  destruct Ht as [Ht | Ht]; congruence.
Qed.

Lemma pf_terminal_run tr s :
  terminal s ->
  gget (run tr s) executed = gget s executed /\
  gget (run tr s) refunded = gget s refunded.
Proof.
  revert s. induction tr as [|oc tr IH]; intros s Ht; [done|].
  rewrite pf_run_cons.
  destruct (pf_terminal_step s oc Ht) as [He Hr].
  destruct (IH (step s oc)) as [He' Hr'].
  - unfold terminal in *. rewrite He, Hr. done.
  - split; congruence.
Qed.

Lemma pf_finalizations_terminal tr s :
  terminal s -> finalizations tr s = 0%nat.
Proof.
  revert s. induction tr as [|oc tr IH]; intros s Ht; [done|].
  simpl. rewrite bool_decide_eq_false_2 by tauto.
  rewrite IH; [done|].
  destruct (pf_terminal_step s oc Ht) as [He Hr].
  unfold terminal in *. by rewrite He, Hr.
Qed.

Lemma pf_finalizations_le tr s : (finalizations tr s <= 1)%nat.
Proof.
  revert s. induction tr as [|oc tr IH]; intros s; simpl; [lia|].
  case_bool_decide as Hd.
  - rewrite pf_finalizations_terminal by tauto. lia.
  - specialize (IH (step s oc)). lia.
Qed.

(** Every guarded handler rejects a terminal record. *)
Lemma pf_terminal_rejects o c s :
  terminal s -> o ∈ pf_guarded -> forall s', handler o c s ≠ Ok tt s'.
Proof.
  intros Ht Ho s' H. unfold pf_guarded in Ho.
  assert (gget s executed = VInt 0 /\ gget s refunded = VInt 0) as [He Hr].
  { repeat (apply elem_of_cons in Ho as [-> | Ho]); simpl in H.
    - apply pf_partial_fill_inv in H. naive_solver.
    - apply pf_withdrawal_inv in H. naive_solver.
    - apply pf_public_claim_inv in H. naive_solver.
    - by apply elem_of_nil in Ho. }
  destruct Ht; congruence.
Qed.

Lemma pf_terminal_label o c s :
  pf_flags_wf s -> terminal s -> o ∈ pf_guarded -> pf_args_present o c ->
  handler o c s = Abort AlreadyFinalized s.
Proof.
  intros (He & Hr & Hn) Ht Ho Ha. unfold pf_guarded in Ho.
  assert ((gget s executed = VInt 1 /\ gget s refunded = VInt 0) \/
          (gget s executed = VInt 0 /\ gget s refunded = VInt 1))
    as [[E R] | [E R]] by (unfold terminal in Ht; naive_solver).
  all: repeat (apply elem_of_cons in Ho as [-> | Ho]);
    try (by apply elem_of_nil in Ho); simpl in *.
  all: try (destruct Ha as [[f Hf] [sec Hs]]; unfold handle_partial_fill;
            rewrite (Store_Btoi_arg _ _ _ _ _ Hf), (Store_arg _ _ _ _ _ Hs)).
  all: try (destruct Ha as [sec Hs]; unfold handle_public_claim;
            rewrite (Store_arg _ _ _ _ _ Hs)).
  all: try unfold handle_withdrawal.
  all: teal_unfold; teal_run; done.
Qed.
End PartialFillTrace.

(** ** AlgorandHTLCBridge.py: what each handler does *)

Section BridgeFacts.
Import HTLCBridge.
Implicit Types (c : call) (s : state).

Lemma bridge_withdraw_inv c s s' :
  withdraw_htlc c s = Ok tt s' ->
  exists id sec tl,
    length (Txn_application_args c) = 2%nat /\
    arg_bytes c 0 = Some id /\ arg_bytes c 1 = Some sec /\
    lget s (Txn_sender c) htlc_id_key = VBytes id /\
    lget s (Txn_sender c) withdrawn_key = VInt 0 /\
    lget s (Txn_sender c) refunded_key = VInt 0 /\
    lget s (Txn_sender c) timelock_key = VInt tl /\
    Global_latest_timestamp c < tl /\
    lget s (Txn_sender c) hashlock_key = VBytes (Sha256 sec) /\
    s' = claimed (Txn_sender c) s.
Proof.
  unfold withdraw_htlc. intros H. teal_inv H. teal_facts.
  unfold claimed. autorewrite with teal.
  do 3 eexists. repeat split; eauto; lia.
Qed.

Lemma bridge_withdraw_ok c s id sec tl :
  length (Txn_application_args c) = 2%nat ->
  arg_bytes c 0 = Some id -> arg_bytes c 1 = Some sec ->
  lget s (Txn_sender c) htlc_id_key = VBytes id ->
  lget s (Txn_sender c) withdrawn_key = VInt 0 ->
  lget s (Txn_sender c) refunded_key = VInt 0 ->
  lget s (Txn_sender c) timelock_key = VInt tl ->
  Global_latest_timestamp c < tl ->
  lget s (Txn_sender c) hashlock_key = VBytes (Sha256 sec) ->
  withdraw_htlc c s = Ok tt (claimed (Txn_sender c) s).
Proof.
  unfold arg_bytes. intros Hl Hid Hsec Hi Hw Hr Ht Hnow Hh.
  unfold withdraw_htlc, claimed. teal_unfold. teal_run. done.
Qed.

Lemma bridge_refund_inv c s s' :
  refund_htlc c s = Ok tt s' ->
  exists id tl,
    length (Txn_application_args c) = 1%nat /\
    arg_bytes c 0 = Some id /\
    lget s (Txn_sender c) htlc_id_key = VBytes id /\
    lget s (Txn_sender c) withdrawn_key = VInt 0 /\
    lget s (Txn_sender c) refunded_key = VInt 0 /\
    lget s (Txn_sender c) timelock_key = VInt tl /\
    tl <= Global_latest_timestamp c /\
    s' = refunded_to (Txn_sender c)
           (lget s (Txn_sender c) initiator_key) s.
Proof.
  unfold refund_htlc. intros H. teal_inv H. teal_facts.
  unfold refunded_to. autorewrite with teal.
  do 2 eexists. repeat split; eauto; lia.
Qed.

Lemma bridge_refund_ok c s id tl :
  length (Txn_application_args c) = 1%nat ->
  arg_bytes c 0 = Some id ->
  lget s (Txn_sender c) htlc_id_key = VBytes id ->
  lget s (Txn_sender c) withdrawn_key = VInt 0 ->
  lget s (Txn_sender c) refunded_key = VInt 0 ->
  lget s (Txn_sender c) timelock_key = VInt tl ->
  tl <= Global_latest_timestamp c ->
  refund_htlc c s =
    Ok tt (refunded_to (Txn_sender c) (lget s (Txn_sender c) initiator_key) s).
Proof.
  unfold arg_bytes. intros Hl Hid Hi Hw Hr Ht Hnow.
  unfold refund_htlc, refunded_to. teal_unfold. teal_run. done.
Qed.

Lemma bridge_create_inv c s s' :
  create_htlc c s = Ok tt s' ->
  exists id ini rcp amt h tl eth mn mx,
    length (Txn_application_args c) = 7%nat /\
    arg_bytes c 0 = Some id /\ arg_bytes c 1 = Some ini /\
    arg_bytes c 2 = Some rcp /\ arg_uint c 3 = Some amt /\
    arg_bytes c 4 = Some h /\ arg_uint c 5 = Some tl /\
    arg_bytes c 6 = Some eth /\
    gget s min_timelock_key = VInt mn /\ gget s max_timelock_key = VInt mx /\
    Global_latest_timestamp c + mn <= tl <= Global_latest_timestamp c + mx /\
    0 < amt /\
    lget s (Txn_sender c) htlc_id_key = VInt 0 /\
    s' = bridge_created (Txn_sender c) (Global_current_application_address c)
           id ini rcp amt h tl eth s.
Proof.
  unfold create_htlc. intros H. teal_inv H. teal_facts.
  unfold bridge_created.
  do 9 eexists. repeat split; eauto; lia.
Qed.

Lemma bridge_status_inv c s s' : get_htlc_status c s = Ok tt s' -> s' = s.
Proof. unfold get_htlc_status. intros H. teal_inv H. done. Qed.

Lemma bridge_update_inv c s s' :
  update_contract c s = Ok tt s' -> exists k v, s' = gput k v s.
Proof.
  unfold update_contract. intros H. teal_inv H.
  unfold mbind, M_bind, App_globalPutDyn in H.
  destruct (Load _ c s) as [[|k]|]; try done.
  destruct (Load _ c s) as [v|]; try done.
  apply Return_ok_inv in H. eauto.
Qed.
End BridgeFacts.

(** ** AlgorandHTLCBridge.py over sequences of calls *)

Section BridgeTrace.
Import HTLCBridge.
Implicit Types (c : call) (s : state) (a : string)
  (oc : op * call) (tr : list (op * call)).

Lemma bridge_step_ok s oc :
  step s oc = s \/ handler oc.1 oc.2 s = Ok tt (step s oc).
Proof.
  unfold step, commit. destruct (handler oc.1 oc.2 s) as [[] s'|]; auto.
Qed.

Lemma bridge_run_cons oc tr s : run (oc :: tr) s = run tr (step s oc).
Proof. reflexivity. Qed.

(** What one call does to the record of account [a]: nothing, or it
    creates the record, or it sets exactly one terminal flag of a
    record whose flags were both 0. *)
Lemma bridge_step_effect a s oc :
  (forall k, lget (step s oc) a k = lget s a k) \/
  (lget s a htlc_id_key = VInt 0 /\ has_record (step s oc) a /\
   lget (step s oc) a withdrawn_key = VInt 0 /\
   lget (step s oc) a refunded_key = VInt 0) \/
  (has_record s a /\
   lget s a withdrawn_key = VInt 0 /\ lget s a refunded_key = VInt 0 /\
   lget (step s oc) a htlc_id_key = lget s a htlc_id_key /\
   ((lget (step s oc) a withdrawn_key = VInt 1 /\
     lget (step s oc) a refunded_key = VInt 0) \/
    (lget (step s oc) a withdrawn_key = VInt 0 /\
     lget (step s oc) a refunded_key = VInt 1))).
Proof.
  destruct (bridge_step_ok s oc) as [-> | H]; [by left|].
  destruct oc as [o c]; simpl in H.
  destruct (decide (Txn_sender c = a)) as [<- | Hne].
  - destruct o; simpl in H.
    + apply bridge_create_inv in H
        as (id & ini & rcp & amt & h & tl & eth & mn & mx & H).
      destruct H as (_&_&_&_&_&_&_&_&_&_&_&_& Hid & ->).
      right; left. unfold bridge_created, has_record.
      autorewrite with teal. eauto.
    + apply bridge_withdraw_inv in H
        as (id & sec & tl & _ & _ & _ & Hid & Hw & Hr & _ & _ & _ & ->).
      right; right. unfold claimed, has_record.
      autorewrite with teal. rewrite Hr. eauto 10.
    + apply bridge_refund_inv in H
        as (id & tl & _ & _ & Hid & Hw & Hr & _ & _ & ->).
      right; right. unfold refunded_to, has_record.
      autorewrite with teal. rewrite Hw. eauto 10.
    + apply bridge_status_inv in H as ->. by left.
    + apply bridge_update_inv in H as (k & v & ->). by left.
  - left. intros k. destruct o; simpl in H.
    + apply bridge_create_inv in H
        as (id & ini & rcp & amt & h & tl & eth & mn & mx & H).
      destruct H as (_&_&_&_&_&_&_&_&_&_&_&_& _ & ->).
      unfold bridge_created. by autorewrite with teal.
    + apply bridge_withdraw_inv in H
        as (id & sec & tl & _ & _ & _ & _ & _ & _ & _ & _ & _ & ->).
      unfold claimed. by autorewrite with teal.
    + apply bridge_refund_inv in H
        as (id & tl & _ & _ & _ & _ & _ & _ & _ & ->).
      unfold refunded_to. by autorewrite with teal.
    + by apply bridge_status_inv in H as ->.
    + by apply bridge_update_inv in H as (k' & v & ->).
Qed.

Lemma bridge_inv_step a s oc : bridge_inv a s -> bridge_inv a (step s oc).
Proof.
  unfold bridge_inv, has_record. intros Hinv.
  destruct (bridge_step_effect a s oc)
    as [Hsame | [(Hid & Hrec & Hw & Hr) | (Hrec & Hw & Hr & Hid & Hfl)]].
  - by rewrite !Hsame.
  - left. done.
  - right. split; [|done]. unfold has_record in *. by rewrite Hid.
Qed.

Lemma bridge_inv_run a tr s : bridge_inv a s -> bridge_inv a (run tr s).
Proof.
  revert s. induction tr as [|oc tr IH]; intros s H; [done|].
  rewrite bridge_run_cons. by apply IH, bridge_inv_step.
Qed.

Lemma bridge_inv_fresh a s :
  lget s a withdrawn_key = VInt 0 -> lget s a refunded_key = VInt 0 ->
  bridge_inv a s.
Proof. unfold bridge_inv. auto. Qed.

(** Terminal records are frozen. *)
Lemma bridge_terminal_step a s oc :
  bridge_inv a s -> terminal a s ->
  forall k, lget (step s oc) a k = lget s a k.
Proof.
  intros Hinv Ht.
  destruct (bridge_step_effect a s oc)
    as [Hsame | [(Hid & _) | (_ & Hw & Hr & _)]]; [done| |].
  - exfalso. unfold bridge_inv, terminal, has_record in *.
    destruct Hinv as [[Hw Hr] | [[id Hrec] _]]; [|congruence].
    destruct Ht; congruence.
  - exfalso. unfold terminal in Ht. destruct Ht; congruence.
Qed.

Lemma bridge_terminal_run a tr s :
  bridge_inv a s -> terminal a s ->
  forall k, lget (run tr s) a k = lget s a k.
Proof.
  revert s. induction tr as [|oc tr IH]; intros s Hinv Ht k; [done|].
  rewrite bridge_run_cons.
  pose proof (bridge_terminal_step a s oc Hinv Ht) as Hs.
  rewrite IH, Hs; [done | by apply bridge_inv_step |].
  unfold terminal in *. by rewrite !Hs.
Qed.

Lemma bridge_finalizations_terminal a tr s :
  bridge_inv a s -> terminal a s -> finalizations a tr s = 0%nat.
Proof.
  revert s. induction tr as [|oc tr IH]; intros s Hinv Ht; [done|].
  simpl. rewrite bool_decide_eq_false_2 by tauto.
  rewrite IH; [done | by apply bridge_inv_step |].
  pose proof (bridge_terminal_step a s oc Hinv Ht) as Hs.
  unfold terminal in *. by rewrite !Hs.
Qed.

Lemma bridge_finalizations_le a tr s :
  bridge_inv a s -> (finalizations a tr s <= 1)%nat.
Proof.
  revert s. induction tr as [|oc tr IH]; intros s Hinv; simpl; [lia|].
  pose proof (bridge_inv_step a s oc Hinv) as Hinv'.
  case_bool_decide as Hd.
  - rewrite bridge_finalizations_terminal by tauto. lia.
  - specialize (IH (step s oc) Hinv'). lia.
Qed.

Lemma bridge_inv_not_both a s :
  bridge_inv a s ->
  ~ (lget s a withdrawn_key = VInt 1 /\ lget s a refunded_key = VInt 1).
Proof.
  unfold bridge_inv. intros H [Hw Hr].
  destruct H as [[W R] | [_ [[W R] | [W R]]]]; congruence.
Qed.

(** Claim and refund reject a terminal record. *)
Lemma bridge_terminal_rejects o c s :
  terminal (Txn_sender c) s -> o ∈ [OpWithdraw; OpRefund] ->
  forall s', handler o c s ≠ Ok tt s'.
Proof.
  intros Ht Ho s' H.
  assert (lget s (Txn_sender c) withdrawn_key = VInt 0 /\
          lget s (Txn_sender c) refunded_key = VInt 0) as [Hw Hr].
  { repeat (apply elem_of_cons in Ho as [-> | Ho]); simpl in H.
    - apply bridge_withdraw_inv in H
        as (id & sec & tl & _ & _ & _ & _ & Hw & Hr & _). done.
    - apply bridge_refund_inv in H as (id & tl & _ & _ & _ & Hw & Hr & _).
      done.
    - by apply elem_of_nil in Ho. }
  destruct Ht; congruence.
Qed.

Lemma bridge_terminal_withdraw_label c s id sec :
  length (Txn_application_args c) = 2%nat ->
  arg_bytes c 0 = Some id -> arg_bytes c 1 = Some sec ->
  lget s (Txn_sender c) htlc_id_key = VBytes id ->
  bridge_inv (Txn_sender c) s -> terminal (Txn_sender c) s ->
  withdraw_htlc c s = Abort AlreadyFinalized s.
Proof.
  unfold arg_bytes. intros Hl Hid Hsec Hi Hinv Ht.
  assert ((lget s (Txn_sender c) withdrawn_key = VInt 1 /\
           lget s (Txn_sender c) refunded_key = VInt 0) \/
          (lget s (Txn_sender c) withdrawn_key = VInt 0 /\
           lget s (Txn_sender c) refunded_key = VInt 1))
    as [[W R] | [W R]]
    by (unfold bridge_inv, terminal in *;
        destruct Hinv as [[W R] | [_ [[W R] | [W R]]]]; [|auto..];
        destruct Ht; congruence).
  all: unfold withdraw_htlc; teal_unfold; teal_run; done.
Qed.

Lemma bridge_terminal_refund_label c s id :
  length (Txn_application_args c) = 1%nat ->
  arg_bytes c 0 = Some id ->
  lget s (Txn_sender c) htlc_id_key = VBytes id ->
  bridge_inv (Txn_sender c) s -> terminal (Txn_sender c) s ->
  refund_htlc c s = Abort AlreadyFinalized s.
Proof.
  unfold arg_bytes. intros Hl Hid Hi Hinv Ht.
  assert ((lget s (Txn_sender c) withdrawn_key = VInt 1 /\
           lget s (Txn_sender c) refunded_key = VInt 0) \/
          (lget s (Txn_sender c) withdrawn_key = VInt 0 /\
           lget s (Txn_sender c) refunded_key = VInt 1))
    as [[W R] | [W R]]
    by (unfold bridge_inv, terminal in *;
        destruct Hinv as [[W R] | [_ [[W R] | [W R]]]]; [|auto..];
        destruct Ht; congruence).
  all: unfold refund_htlc; teal_unfold; teal_run; done.
Qed.
(** In this file argument 0 is both the operation selector and the
    HTLC id: a record made by a call dispatched as "create" has id
    "create", and no call dispatched as "withdraw" addresses it. *)
Lemma bridge_withdraw_after_create c1 c2 s s1 s2 :
  arg_bytes c1 0 = Some "create" -> arg_bytes c2 0 = Some "withdraw" ->
  Txn_sender c2 = Txn_sender c1 ->
  create_htlc c1 s = Ok tt s1 -> withdraw_htlc c2 s1 ≠ Ok tt s2.
Proof.
  intros H1 H2 Hs Hc Hw.
  apply bridge_create_inv in Hc
    as (id & ini & rcp & amt & h & tl & eth & mn & mx & Hc).
  destruct Hc as (_& Hid &_&_&_&_&_&_&_&_&_&_&_& ->).
  apply bridge_withdraw_inv in Hw
    as (id' & sec & tl' & _ & Hid' & _ & Hrec & _).
  rewrite Hs in Hrec. unfold bridge_created in Hrec.
  revert Hrec. autorewrite with teal. congruence.
Qed.
End BridgeTrace.

(** ** AlgorandHTLCBridge_EthToAlgo.py: claim *)

Section EthToAlgoFacts.
Import EthToAlgo.
Implicit Types (c : call) (s : state).

Lemma e2a_claim_inv c s s' :
  claim_htlc c s = Ok tt s' ->
  exists id sec tl,
    length (Txn_application_args c) = 3%nat /\
    arg_bytes c 1 = Some id /\ arg_bytes c 2 = Some sec /\
    lget s (Txn_sender c) htlc_id_key = VBytes id /\
    lget s (Txn_sender c) withdrawn_key = VInt 0 /\
    lget s (Txn_sender c) refunded_key = VInt 0 /\
    lget s (Txn_sender c) timelock_key = VInt tl /\
    Global_latest_timestamp c < tl /\
    lget s (Txn_sender c) hashlock_key = VBytes (Sha256 sec) /\
    s' = claimed (Txn_sender c) s.
Proof.
  unfold claim_htlc. intros H. teal_inv H. teal_facts.
  unfold claimed. autorewrite with teal.
  do 3 eexists. repeat split; eauto; lia.
Qed.

Lemma e2a_claim_ok c s id sec tl :
  length (Txn_application_args c) = 3%nat ->
  arg_bytes c 1 = Some id -> arg_bytes c 2 = Some sec ->
  lget s (Txn_sender c) htlc_id_key = VBytes id ->
  lget s (Txn_sender c) withdrawn_key = VInt 0 ->
  lget s (Txn_sender c) refunded_key = VInt 0 ->
  lget s (Txn_sender c) timelock_key = VInt tl ->
  Global_latest_timestamp c < tl ->
  lget s (Txn_sender c) hashlock_key = VBytes (Sha256 sec) ->
  claim_htlc c s = Ok tt (claimed (Txn_sender c) s).
Proof.
  unfold arg_bytes. intros Hl Hid Hsec Hi Hw Hr Ht Hnow Hh.
  unfold claim_htlc, claimed. teal_unfold. teal_run. done.
Qed.
End EthToAlgoFacts.

(** ** AlgorandHTLCBridge_AlgoToEth.py: create and reveal *)

Section AlgoToEthFacts.
Import AlgoToEth.
Implicit Types (c : call) (s : state) (a : string)
  (oc : op * call) (tr : list (op * call)).

Lemma a2e_create_inv c s s' :
  create_htlc c s = Ok tt s' ->
  exists id rcp amt h tl,
    length (Txn_application_args c) = 6%nat /\
    arg_bytes c 1 = Some id /\ arg_bytes c 2 = Some rcp /\
    arg_uint c 3 = Some amt /\ arg_bytes c 4 = Some h /\
    arg_uint c 5 = Some tl /\ 0 < amt /\
    lget s (Txn_sender c) htlc_id_key = VInt 0 /\
    s' = a2e_created (Txn_sender c) (Global_current_application_address c)
           id rcp amt h tl s.
Proof.
  unfold create_htlc. intros H. teal_inv H. teal_facts.
  unfold a2e_created.
  do 5 eexists. repeat split; eauto; lia.
Qed.

Lemma a2e_reveal_inv c s s' :
  reveal_secret c s = Ok tt s' ->
  exists id sec,
    length (Txn_application_args c) = 3%nat /\
    arg_bytes c 1 = Some id /\ arg_bytes c 2 = Some sec /\
    lget s (Txn_sender c) htlc_id_key = VBytes id /\
    lget s (Txn_sender c) secret_key = VBytes "" /\
    lget s (Txn_sender c) hashlock_key = VBytes (Sha256 sec) /\
    s' = lput (Txn_sender c) secret_key (VBytes sec) s.
Proof.
  unfold reveal_secret. intros H. teal_inv H. teal_facts.
  do 2 eexists. repeat split; eauto; lia.
Qed.

Lemma a2e_reveal_ok c s id sec :
  length (Txn_application_args c) = 3%nat ->
  arg_bytes c 1 = Some id -> arg_bytes c 2 = Some sec ->
  lget s (Txn_sender c) htlc_id_key = VBytes id ->
  lget s (Txn_sender c) secret_key = VBytes "" ->
  lget s (Txn_sender c) hashlock_key = VBytes (Sha256 sec) ->
  reveal_secret c s = Ok tt (lput (Txn_sender c) secret_key (VBytes sec) s).
Proof.
  unfold arg_bytes. intros Hl Hid Hsec Hi Hs Hh.
  unfold reveal_secret. teal_unfold. teal_run. done.
Qed.

Lemma a2e_reveal_already_set c s id sec b :
  length (Txn_application_args c) = 3%nat ->
  arg_bytes c 1 = Some id -> arg_bytes c 2 = Some sec ->
  lget s (Txn_sender c) htlc_id_key = VBytes id ->
  lget s (Txn_sender c) secret_key = VBytes b -> b ≠ "" ->
  reveal_secret c s = Abort AlreadySet s.
Proof.
  unfold arg_bytes. intros Hl Hid Hsec Hi Hs Hb.
  unfold reveal_secret. teal_unfold. teal_run. done.
Qed.

Lemma a2e_reveal_mismatch c s id sec h :
  length (Txn_application_args c) = 3%nat ->
  arg_bytes c 1 = Some id -> arg_bytes c 2 = Some sec ->
  lget s (Txn_sender c) htlc_id_key = VBytes id ->
  lget s (Txn_sender c) secret_key = VBytes "" ->
  lget s (Txn_sender c) hashlock_key = VBytes h -> Sha256 sec ≠ h ->
  reveal_secret c s = Abort HashMismatch s.
Proof.
  unfold arg_bytes. intros Hl Hid Hsec Hi Hs Hh Hne.
  unfold reveal_secret. teal_unfold. teal_run. done.
Qed.

Lemma a2e_step_ok s oc :
  step s oc = s \/ handler oc.1 oc.2 s = Ok tt (step s oc).
Proof.
  unfold step, commit. destruct (handler oc.1 oc.2 s) as [[] s'|]; auto.
Qed.

Lemma a2e_run_cons oc tr s : run (oc :: tr) s = run tr (step s oc).
Proof. reflexivity. Qed.

Lemma secret_of_Some s a b :
  secret_of s a = Some b <-> lget s a secret_key = VBytes b /\ b ≠ "".
Proof.
  unfold secret_of. destruct (lget s a secret_key) as [n|b']; [naive_solver|].
  case_bool_decide; naive_solver.
Qed.

(** What one call does to the record of account [a]. *)
Lemma a2e_step_effect a s oc :
  (forall k, lget (step s oc) a k = lget s a k) \/
  (lget s a htlc_id_key = VInt 0 /\ has_record (step s oc) a /\
   lget (step s oc) a secret_key = VBytes "") \/
  (exists sec, has_record s a /\ lget s a secret_key = VBytes "" /\
     lget s a hashlock_key = VBytes (Sha256 sec) /\
     lget (step s oc) a secret_key = VBytes sec /\
     forall k, k ≠ secret_key -> lget (step s oc) a k = lget s a k).
Proof.
  destruct (a2e_step_ok s oc) as [-> | H]; [by left|].
  destruct oc as [o c]; simpl in H.
  destruct (decide (Txn_sender c = a)) as [<- | Hne].
  - destruct o; simpl in H.
    + apply a2e_create_inv in H as (id & rcp & amt & h & tl & H).
      destruct H as (_&_&_&_&_&_&_& Hid & ->).
      right; left. unfold a2e_created, has_record.
      autorewrite with teal. eauto.
    + apply a2e_reveal_inv in H
        as (id & sec & _ & _ & _ & Hid & Hs & Hh & ->).
      right; right. exists sec. unfold has_record.
      autorewrite with teal. repeat split; eauto.
      intros k Hk. by rewrite lget_lput_key.
  - left. intros k. destruct o; simpl in H.
    + apply a2e_create_inv in H as (id & rcp & amt & h & tl & H).
      destruct H as (_&_&_&_&_&_&_& _ & ->).
      unfold a2e_created. by autorewrite with teal.
    + apply a2e_reveal_inv in H as (id & sec & _ & _ & _ & _ & _ & _ & ->).
      by autorewrite with teal.
Qed.

Lemma a2e_inv_step a s oc : a2e_inv a s -> a2e_inv a (step s oc).
Proof.
  unfold a2e_inv. intros Hinv b Hb. apply secret_of_Some in Hb as [Hb Hne].
  destruct (a2e_step_effect a s oc)
    as [Hsame | [(Hid & Hrec & Hs) | (sec & Hrec & Hs & Hh & Hs' & Hk)]].
  - unfold has_record. rewrite !Hsame.
    apply Hinv, secret_of_Some. by rewrite <- Hsame.
  - congruence.
  - assert (b = sec) as -> by congruence.
    unfold has_record in *. rewrite !Hk by done. done.
Qed.

Lemma a2e_inv_run a tr s : a2e_inv a s -> a2e_inv a (run tr s).
Proof.
  revert s. induction tr as [|oc tr IH]; intros s H; [done|].
  rewrite a2e_run_cons. by apply IH, a2e_inv_step.
Qed.

Lemma a2e_inv_empty a : a2e_inv a empty_state.
Proof. intros b Hb. apply secret_of_Some in Hb as [Hb _]. done. Qed.

(** A recorded secret is never overwritten. *)
Lemma a2e_secret_step a s oc b :
  a2e_inv a s -> secret_of s a = Some b -> secret_of (step s oc) a = Some b.
Proof.
  intros Hinv Hb. destruct (Hinv b Hb) as [[id Hid] Hh].
  apply secret_of_Some in Hb as [Hb Hne].
  apply secret_of_Some. split; [|done].
  destruct (a2e_step_effect a s oc)
    as [Hsame | [(Hid' & _) | (sec & _ & Hs & _)]].
  - by rewrite Hsame.
  - congruence.
  - congruence.
Qed.

Lemma a2e_secret_run a tr s b :
  a2e_inv a s -> secret_of s a = Some b -> secret_of (run tr s) a = Some b.
Proof.
  revert s. induction tr as [|oc tr IH]; intros s Hinv Hb; [done|].
  rewrite a2e_run_cons. apply IH; [by apply a2e_inv_step|].
  by apply a2e_secret_step.
Qed.
End AlgoToEthFacts.

(** ** AlgorandHTLCBridgeFixed.py: create *)

Section FixedFacts.
Import HTLCBridgeFixed.
Implicit Types (c : call) (s : state).

Lemma fixed_create_inv c s s' :
  create_htlc c s = Ok tt s' ->
  exists amt tl mn mx,
    arg_uint c 4 = Some amt /\ arg_uint c 6 = Some tl /\
    gget s min_timelock_key = VInt mn /\ gget s max_timelock_key = VInt mx /\
    Global_latest_timestamp c + mn <= tl <= Global_latest_timestamp c + mx /\
    0 < amt /\
    lget s (Txn_sender c) htlc_id_key = VInt 0 /\
    lget s' (Txn_sender c) amount_key = VInt amt /\
    lget s' (Txn_sender c) timelock_key = VInt tl /\
    lget s' (Txn_sender c) withdrawn_key = VInt 0 /\
    lget s' (Txn_sender c) refunded_key = VInt 0 /\
    inner_txns s' =
      (inner_txns s ++
         [Payment (VInt amt)
            (VBytes (Global_current_application_address c))])%list.
Proof.
  unfold create_htlc, load_create_args. intros H.
  apply Assert_ok_inv in H as (n0 & Hor & Hn0 & H).
  apply IfElse_bind_ok_inv in H as (n & Hcond & [[Hn H] | [Hn H]]).
  - teal_inv_assoc H. simpl in *. teal_facts.
    autorewrite with teal.
    do 4 eexists. repeat split; eauto; lia.
  - teal_inv_assoc H. simpl in *. teal_facts.
    autorewrite with teal.
    do 4 eexists. repeat split; eauto; lia.
Qed.
End FixedFacts.

(** * Properties of the engine *)

Lemma pf_handler_abort o c s e s' :
  PartialFill.handler o c s = Abort e s' -> s' = s.
Proof.
  destruct o; simpl.
  - apply pf_htlc_creation_abort.
  - apply pf_partial_fill_abort.
  - apply pf_withdrawal_abort.
  - apply pf_public_claim_abort.
  - apply pf_deposit_abort.
Qed.

(** C1.  Exactly-once settlement.  Over any sequence of calls from
    application creation: the terminal flags of a record are never both
    set; at most one call moves the record into a terminal state; and once
    a flag is set, every later claim/withdraw, refund, partial fill,
    public claim and maker withdraw on that record aborts with the state
    unchanged (with [AlreadyFinalized] when the call carries its
    arguments), and no later sequence of calls changes the flags.  Stated
    for the partial-fill engine (global record) and for the bidirectional
    contract (one record per account). *)
Theorem C1_exactly_once_settlement :
  (forall c0 pre,
     let s := PartialFill.run pre (PartialFill.created c0) in
     ~ (gget s PartialFill.executed = VInt 1 /\
        gget s PartialFill.refunded = VInt 1) /\
     (PartialFill.finalizations pre (PartialFill.created c0) <= 1)%nat /\
     (PartialFill.terminal s ->
      (forall o c, o ∈ pf_guarded ->
         exists e, PartialFill.handler o c s = Abort e s /\
                   (pf_args_present o c -> e = AlreadyFinalized)) /\
      (forall post,
         gget (PartialFill.run post s) PartialFill.executed =
           gget s PartialFill.executed /\
         gget (PartialFill.run post s) PartialFill.refunded =
           gget s PartialFill.refunded))) /\
  (forall c0 pre a,
     let s := HTLCBridge.run pre (HTLCBridge.created c0) in
     ~ (lget s a withdrawn_key = VInt 1 /\ lget s a refunded_key = VInt 1) /\
     (HTLCBridge.finalizations a pre (HTLCBridge.created c0) <= 1)%nat /\
     (HTLCBridge.terminal a s ->
      (forall o c, Txn_sender c = a ->
         o ∈ [HTLCBridge.OpWithdraw; HTLCBridge.OpRefund] ->
         exists e, HTLCBridge.handler o c s = Abort e s /\
                   (bridge_args_present o c s -> e = AlreadyFinalized)) /\
      (forall post,
         lget (HTLCBridge.run post s) a withdrawn_key = lget s a withdrawn_key /\
         lget (HTLCBridge.run post s) a refunded_key = lget s a refunded_key))).
Proof.
  split.
  - intros c0 pre s.
    assert (pf_flags_wf s) as Hwf
      by apply pf_flags_wf_run, pf_flags_wf_created.
    split; [apply Hwf|]. split; [apply pf_finalizations_le|].
    intros Ht. split; [|intros post; by apply pf_terminal_run].
    intros o c Ho.
    destruct (PartialFill.handler o c s) as [[] s1 | e s1] eqn:H.
    + by apply pf_terminal_rejects in H.
    + apply pf_handler_abort in H as Hs. subst s1.
      exists e. split; [done|]. intros Ha.
      rewrite (pf_terminal_label o c s Hwf Ht Ho Ha) in H. congruence.
  - intros c0 pre a s.
    assert (bridge_inv a s) as Hinv
      by (apply bridge_inv_run, bridge_inv_fresh; reflexivity).
    split; [by apply bridge_inv_not_both|].
    split; [apply bridge_finalizations_le, bridge_inv_fresh; reflexivity|].
    intros Ht. split.
    2:{ intros post. split; by apply bridge_terminal_run. }
    intros o c <- Ho.
    destruct (HTLCBridge.handler o c s) as [[] s1 | e s1] eqn:H.
    + by apply bridge_terminal_rejects in H.
    + assert (s1 = s) as ->.
      { repeat (apply elem_of_cons in Ho as [-> | Ho]); simpl in H.
        - by apply bridge_withdraw_abort in H.
        - by apply bridge_refund_abort in H.
        - by apply elem_of_nil in Ho. }
      exists e. split; [done|]. intros Ha.
      repeat (apply elem_of_cons in Ho as [-> | Ho]); simpl in H, Ha.
      * destruct Ha as (Hl & id & sec & H0 & H1 & Hid).
        rewrite (bridge_terminal_withdraw_label c s id sec) in H; congruence.
      * destruct Ha as (Hl & id & H0 & Hid).
        rewrite (bridge_terminal_refund_label c s id) in H; congruence.
      * by apply elem_of_nil in Ho.
Qed.

(** A settled partial-fill record rejects a later public claim, and a
    withdrawn record of the bidirectional contract rejects a refund. *)
Lemma C1_witness :
  (PartialFill.terminal pf_settled_by_trace /\
   PartialFill.handler PartialFill.OpPublicClaim (pf_public_claim "abc")
     pf_settled_by_trace =
     Abort AlreadyFinalized pf_settled_by_trace) /\
  (HTLCBridge.terminal "ALICE" bridge_settled /\
   HTLCBridge.handler HTLCBridge.OpRefund (bridge_refund "create" 8000)
     bridge_settled =
     Abort AlreadyFinalized bridge_settled).
Proof.
  destruct C1_exactly_once_settlement as [Hpf Hbr]. split.
  - assert (PartialFill.terminal pf_settled_by_trace) as Ht
      by (left; vm_compute; reflexivity).
    split; [exact Ht|].
    destruct (Hpf (mk_call "MAKER" [] 0) pf_settling_trace) as (_ & _ & Hterm).
    destruct (Hterm Ht) as [Hrej _].
    destruct (Hrej PartialFill.OpPublicClaim (pf_public_claim "abc"))
      as (e & He & Hlabel).
    { unfold pf_guarded. apply elem_of_cons; right. apply elem_of_cons; right.
      apply elem_of_cons; left. reflexivity. }
    rewrite (Hlabel (ltac:(simpl; eauto))) in He. exact He.
  - assert (HTLCBridge.terminal "ALICE" bridge_settled) as Ht
      by (left; vm_compute; reflexivity).
    split; [exact Ht|].
    destruct (Hbr (mk_call "CREATOR" [] 0) bridge_settling_trace "ALICE")
      as (_ & _ & Hterm).
    destruct (Hterm Ht) as [Hrej _].
    destruct (Hrej HTLCBridge.OpRefund (bridge_refund "create" 8000))
      as (e & He & Hlabel).
    { reflexivity. }
    { apply elem_of_cons; right. apply elem_of_cons; left. reflexivity. }
    rewrite Hlabel in He; [exact He|].
    split; [reflexivity|]. exists "create".
    split; [reflexivity | vm_compute; reflexivity].
Defined.



Section ClaimSpec.
Implicit Types (c : call) (s : state).

Lemma claimed_facts a s :
  lget (claimed a s) a withdrawn_key = VInt 1 /\
  inner_txns (claimed a s) =
    (inner_txns s ++ [Payment (lget s a amount_key) (lget s a recipient_key)])%list /\
  (forall a' k, (a', k) ≠ (a, withdrawn_key) ->
     lget (claimed a s) a' k = lget s a' k) /\
  globals (claimed a s) = globals s.
Proof.
  unfold claimed. autorewrite with teal. repeat split; try done.
  intros a' k Hne. rewrite lget_submit. by apply lget_lput_ne.
Qed.

Lemma bridge_withdraw_spec : claim_spec HTLCBridge.withdraw_htlc 2 0 1.
Proof.
  unfold claim_spec, open_record, arg_bytes.
  intros c s id sec tl h Hl Hid Hsec (Hi & Hw & Hr & Ht & Hh).
  split; [|split].
  - intros <- Hnow. split; [by apply (bridge_withdraw_ok c s id sec tl)|].
    destruct (claimed_facts (Txn_sender c) s) as (F1 & F2 & F3 & F4).
    repeat (split; [assumption|]).
    unfold claimed, HTLCBridge.withdraw_htlc. teal_unfold. teal_run. done.
  - intros Hexp. unfold HTLCBridge.withdraw_htlc. teal_unfold. teal_run. done.
  - intros Hne Hnow. unfold HTLCBridge.withdraw_htlc. teal_unfold. teal_run. done.
Qed.

Lemma e2a_claim_spec : claim_spec EthToAlgo.claim_htlc 3 1 2.
Proof.
  unfold claim_spec, open_record, arg_bytes.
  intros c s id sec tl h Hl Hid Hsec (Hi & Hw & Hr & Ht & Hh).
  split; [|split].
  - intros <- Hnow. split; [by apply (e2a_claim_ok c s id sec tl)|].
    destruct (claimed_facts (Txn_sender c) s) as (F1 & F2 & F3 & F4).
    repeat (split; [assumption|]).
    unfold claimed, EthToAlgo.claim_htlc. teal_unfold. teal_run. done.
  - intros Hexp. unfold EthToAlgo.claim_htlc. teal_unfold. teal_run. done.
  - intros Hne Hnow. unfold EthToAlgo.claim_htlc. teal_unfold. teal_run. done.
Qed.

Lemma fixed_withdraw_spec : claim_spec HTLCBridgeFixed.withdraw_htlc 3 1 2.
Proof.
  unfold claim_spec, open_record, arg_bytes.
  intros c s id sec tl h Hl Hid Hsec (Hi & Hw & Hr & Ht & Hh).
  split; [|split].
  - intros <- Hnow. split; [unfold claimed, HTLCBridgeFixed.withdraw_htlc; teal_unfold; teal_run; done|].
    destruct (claimed_facts (Txn_sender c) s) as (F1 & F2 & F3 & F4).
    repeat (split; [assumption|]).
    unfold claimed, HTLCBridgeFixed.withdraw_htlc. teal_unfold. teal_run. done.
  - intros Hexp. unfold HTLCBridgeFixed.withdraw_htlc. teal_unfold. teal_run. done.
  - intros Hne Hnow. unfold HTLCBridgeFixed.withdraw_htlc. teal_unfold. teal_run. done.
Qed.
End ClaimSpec.




Section Fills.
Import PartialFill.
Implicit Types (c : call) (s : state) (cs : list call).

Lemma filled_counters t r f s :
  gget (filled t r f s) total_filled = VInt (t + f) /\
  gget (filled t r f s) remaining_amount = VInt (r - f) /\
  gget (filled t r f s) refunded = gget s refunded /\
  gget (filled t r f s) hashlock = gget s hashlock /\
  gget (filled t r f s) executed =
    (if r - f =? 0 then VInt 1 else gget s executed).
Proof.
  unfold filled. destruct (r - f =? 0); by autorewrite with teal.
Qed.

Lemma sumZ_nonneg (l : list Z) : Forall (fun x => 0 < x) l -> 0 <= sumZ l.
Proof. induction 1; unfold sumZ in *; simpl; lia. Qed.

Lemma sumZ_cons x (l : list Z) : sumZ (x :: l) = x + sumZ l.
Proof. reflexivity. Qed.

(** Accepted fills add up. *)
Lemma fills_accepted_sum cs s s_end t r :
  gget s total_filled = VInt t -> gget s remaining_amount = VInt r ->
  0 <= r -> fills_accepted cs s s_end ->
  gget s_end total_filled = VInt (t + sumZ (fill_amounts cs)) /\
  gget s_end remaining_amount = VInt (r - sumZ (fill_amounts cs)) /\
  Forall (fun f => 0 < f) (fill_amounts cs) /\
  sumZ (fill_amounts cs) <= r.
Proof.
  revert s t r. induction cs as [|c cs IH]; intros s t r Ht Hr Hr0 Hacc.
  - simpl in *. subst. rewrite Ht, Hr. unfold sumZ; simpl.
    repeat split; [f_equal; lia | f_equal; lia | constructor | done].
  - destruct Hacc as (s' & Hok & Hrest).
    apply pf_partial_fill_inv in Hok
      as (f & sec & t' & r' & Hf & _ & _ & _ & _ & Hr' & Ht' & Hrange & _ & ->).
    assert (t' = t) as -> by congruence.
    assert (r' = r) as -> by congruence.
    destruct (filled_counters t r f s) as (F1 & F2 & _).
    destruct (IH _ _ _ F1 F2 ltac:(lia) Hrest) as (I1 & I2 & I3 & I4).
    unfold fill_amounts in *. simpl. rewrite Hf. simpl.
    unfold sumZ in *. simpl.
    repeat split.
    + rewrite I1. f_equal. lia.
    + rewrite I2. f_equal. lia.
    + constructor; [lia | done].
    + lia.
Qed.

(** Positive fills that fit in the remaining amount are all accepted. *)
Lemma fills_accepted_total cs s t r h :
  gget s executed = VInt 0 -> gget s refunded = VInt 0 ->
  gget s hashlock = VBytes h ->
  gget s total_filled = VInt t -> gget s remaining_amount = VInt r ->
  t + r <= MAX_UINT64 ->
  Forall (fun c => exists f sec, arg_uint c 1 = Some f /\ 0 < f /\
                     arg_bytes c 2 = Some sec /\ Sha256 sec = h) cs ->
  sumZ (fill_amounts cs) <= r ->
  exists s_end, fills_accepted cs s s_end.
Proof.
  revert s t r. induction cs as [|c cs IH];
    intros s t r He Hr Hh Ht Hrem Hov Hall Hsum.
  - by exists s.
  - apply Forall_cons in Hall as [(f & sec & Hf & Hpos & Hsec & Hs) Hall].
    assert (Forall (fun x => 0 < x) (fill_amounts cs)) as Hposs.
    { unfold fill_amounts. apply Forall_fmap.
      eapply Forall_impl; [exact Hall|].
      intros c' (f' & sec' & Hf' & ? & _). simpl. by rewrite Hf'. }
    pose proof (sumZ_nonneg _ Hposs) as Hnn.
    unfold fill_amounts in Hsum. simpl in Hsum. rewrite Hf in Hsum.
    unfold sumZ in Hsum. simpl in Hsum.
    fold (fill_amounts cs) in Hsum. fold (sumZ (fill_amounts cs)) in Hsum.
    subst h.
    pose proof (pf_partial_fill_ok c s f sec t r Hf Hsec He Hr Hh Hrem Ht
                  ltac:(lia) ltac:(lia)) as Hok.
    destruct (filled_counters t r f s) as (F1 & F2 & F3 & F4 & F5).
    destruct cs as [|c' cs'].
    + exists (filled t r f s). simpl. eauto.
    + assert (0 < sumZ (fill_amounts (c' :: cs'))) as Hnext.
      { change (fill_amounts (c' :: cs'))
          with (default 0 (arg_uint c' 1) :: fill_amounts cs') in *.
        apply Forall_cons in Hposs as [Hp Hps].
        pose proof (sumZ_nonneg _ Hps). rewrite sumZ_cons. lia. }
      destruct (IH (filled t r f s) (t + f) (r - f)) as (s_end & Hend);
        try done; try lia.
      * rewrite F5. destruct (r - f =? 0) eqn:E; [|done].
        apply Z.eqb_eq in E. lia.
      * congruence.
      * congruence.
      * exists s_end. simpl. exists (filled t r f s). split; [done|].
        exact Hend.
Qed.
End Fills.



(** C5, at the failing inputs.  [handle_deposit] stores
    [total_deposited + amount] into both counters and checks no flag:
    after 100 deposited and 30 filled, a deposit of 10 leaves
    [remaining_amount] at 110, not 80; and on a record already executed a
    deposit of 5 is accepted and raises [remaining_amount] from 0 to 105. *)
Theorem C5_deposit_overwrites_remaining :
  (gget pf_s100_filled30 PartialFill.total_deposited = VInt 100 /\
   gget pf_s100_filled30 PartialFill.total_filled = VInt 30 /\
   gget pf_s100_filled30 PartialFill.remaining_amount = VInt 70 /\
   PartialFill.handle_deposit (pf_deposit 10) pf_s100_filled30 =
     Ok tt (deposited 100 10 pf_s100_filled30) /\
   gget (deposited 100 10 pf_s100_filled30) PartialFill.total_deposited =
     VInt 110 /\
   gget (deposited 100 10 pf_s100_filled30) PartialFill.total_filled =
     VInt 30 /\
   gget (deposited 100 10 pf_s100_filled30) PartialFill.remaining_amount =
     VInt 110) /\
  (gget pf_s100_settled PartialFill.executed = VInt 1 /\
   gget pf_s100_settled PartialFill.remaining_amount = VInt 0 /\
   PartialFill.handle_deposit (pf_deposit 5) pf_s100_settled =
     Ok tt (deposited 100 5 pf_s100_settled) /\
   gget (deposited 100 5 pf_s100_settled) PartialFill.executed = VInt 1 /\
   gget (deposited 100 5 pf_s100_settled) PartialFill.remaining_amount =
     VInt 105).
Proof.
  split.
  - do 3 (split; [vm_compute; reflexivity|]). split.
    + apply pf_deposit_ok; vm_compute; first [reflexivity | discriminate].
    + by_vm.
  - do 2 (split; [vm_compute; reflexivity|]). split.
    + apply pf_deposit_ok; vm_compute; first [reflexivity | discriminate].
    + by_vm.
Qed.

(** C10, as the code has it.  On a non-terminal record, a fill with
    [0 < fillAmount <= remaining_amount], a secret hashing to the
    hashlock, and [total_filled + fillAmount] within 64 bits succeeds,
    whatever [partial_fills_enabled] and [timelock] hold and whatever the
    clock reads; a public claim with a matching secret succeeds likewise. *)
Theorem C10_fill_ignores_flag_and_timelock :
  (forall c s f sec t r enabled tl now,
     arg_uint c 1 = Some f -> arg_bytes c 2 = Some sec ->
     gget s PartialFill.executed = VInt 0 ->
     gget s PartialFill.refunded = VInt 0 ->
     gget s PartialFill.hashlock = VBytes (Sha256 sec) ->
     gget s PartialFill.remaining_amount = VInt r ->
     gget s PartialFill.total_filled = VInt t ->
     0 < f <= r -> t + f <= MAX_UINT64 ->
     PartialFill.handle_partial_fill (at_time c now)
       (gput PartialFill.partial_fills_enabled enabled
          (gput PartialFill.timelock tl s)) =
     Ok tt (filled t r f
              (gput PartialFill.partial_fills_enabled enabled
                 (gput PartialFill.timelock tl s)))) /\
  (forall c s sec enabled tl now,
     arg_bytes c 1 = Some sec ->
     gget s PartialFill.executed = VInt 0 ->
     gget s PartialFill.refunded = VInt 0 ->
     gget s PartialFill.hashlock = VBytes (Sha256 sec) ->
     PartialFill.handle_public_claim (at_time c now)
       (gput PartialFill.partial_fills_enabled enabled
          (gput PartialFill.timelock tl s)) =
     Ok tt (gput PartialFill.executed (VInt 1)
              (gput PartialFill.partial_fills_enabled enabled
                 (gput PartialFill.timelock tl s)))).
Proof.
  split.
  - intros c s f sec t r enabled tl now Hf Hsec He Hr Hh Hrem Ht Hrange Hov.
    apply (pf_partial_fill_ok _ _ f sec t r); try done;
      by autorewrite with teal.
  - intros c s sec enabled tl now Hsec He Hr Hh.
    apply (pf_public_claim_ok _ _ sec); try done; by autorewrite with teal.
Qed.

(** With the flag at 0 and the clock two hours past the timelock, a fill
    of 30 out of 100 still succeeds, and so does a public claim. *)
Lemma C10_witness :
  PartialFill.handle_partial_fill (pf_fill 30 "abc" 14400)
    (gput PartialFill.partial_fills_enabled (VInt 0)
       (gput PartialFill.timelock (VInt 7200) pf_s100)) =
  Ok tt (filled 0 100 30
           (gput PartialFill.partial_fills_enabled (VInt 0)
              (gput PartialFill.timelock (VInt 7200) pf_s100))) /\
  PartialFill.handle_public_claim (at_time (pf_public_claim "abc") 14400)
    (gput PartialFill.partial_fills_enabled (VInt 0)
       (gput PartialFill.timelock (VInt 7200) pf_s100)) =
  Ok tt (gput PartialFill.executed (VInt 1)
           (gput PartialFill.partial_fills_enabled (VInt 0)
              (gput PartialFill.timelock (VInt 7200) pf_s100))).
Proof.
  destruct C10_fill_ignores_flag_and_timelock as [Hfill Hclaim]. split.
  - apply (Hfill (pf_fill 30 "abc" 0) pf_s100 30 "abc" 0 100
             (VInt 0) (VInt 7200) 14400).
    all: try (vm_compute; reflexivity).
    + lia.
    + vm_compute; discriminate.
  - apply (Hclaim (pf_public_claim "abc") pf_s100 "abc"
             (VInt 0) (VInt 7200) 14400).
    all: vm_compute; reflexivity.
Defined.

(** C10 as stated fails: on a non-terminal record with a matching secret
    and [0 < fillAmount <= remaining_amount], the fill aborts when
    [total_filled + fillAmount] exceeds 64 bits.  The state is reached by
    calls of the program: deposit 2^63+1, fill 2^63, deposit 0. *)
Lemma C10_counterexample :
  gget pf_near_overflow PartialFill.executed = VInt 0 /\
  gget pf_near_overflow PartialFill.refunded = VInt 0 /\
  gget pf_near_overflow PartialFill.hashlock = VBytes (Sha256 "abc") /\
  gget pf_near_overflow PartialFill.total_filled = VInt 9223372036854775808 /\
  gget pf_near_overflow PartialFill.remaining_amount =
    VInt 9223372036854775809 /\
  arg_uint (pf_fill 9223372036854775808 "abc" 0) 1 =
    Some 9223372036854775808 /\
  arg_bytes (pf_fill 9223372036854775808 "abc" 0) 2 = Some "abc" /\
  PartialFill.handle_partial_fill (pf_fill 9223372036854775808 "abc" 0)
    pf_near_overflow = Abort RuntimePanic pf_near_overflow.
Proof.
  do 7 (split; [vm_compute; reflexivity|]).
  apply abort_outcome; [|vm_compute; reflexivity].
  intros c s e s'. apply pf_partial_fill_abort.
Qed.

Section CreateLabels.
Import HTLCBridge.
Implicit Types (c : call) (s : state).

(** With [bridge_create_ready], [create_htlc] runs up to the timelock
    checks; what it returns is decided by the bounds, the amount and the
    id slot. *)
Lemma bridge_create_timelock_label c s amt tl mn mx :
  bridge_create_ready c s amt tl mn mx ->
  ~ (Global_latest_timestamp c + mn <= tl <= Global_latest_timestamp c + mx) ->
  create_htlc c s = Abort InvalidTimelock s.
Proof.
  intros (Hl & [cr Hcr] & Ha & Ht & Hmn & Hmx & Ho1 & Ho2) Hbad.
  unfold arg_uint in Ha, Ht.
  destruct (Txn_application_args c)
    as [|a0 [|a1 [|a2 [|a3 [|a4 [|a5 [|a6 [|]]]]]]]] eqn:E; try done.
  simpl in Ha, Ht.
  unfold create_htlc. teal_unfold. rewrite E. teal_run.
  destruct (String.length a3 <=? 8)%nat; [|done].
  destruct (String.length a5 <=? 8)%nat; [|done].
  simplify_eq. teal_run.
  destruct (decide (Txn_sender c = cr)) as [<- | Hcr']; teal_run.
  all: destruct (decide (Global_latest_timestamp c + mn <= btoi_acc 0 a5));
    teal_run; done.
Qed.

Lemma bridge_create_amount_label c s amt tl mn mx :
  bridge_create_ready c s amt tl mn mx ->
  Global_latest_timestamp c + mn <= tl <= Global_latest_timestamp c + mx ->
  amt <= 0 ->
  create_htlc c s = Abort InvalidAmount s.
Proof.
  intros (Hl & [cr Hcr] & Ha & Ht & Hmn & Hmx & Ho1 & Ho2) Hin Hamt.
  unfold arg_uint in Ha, Ht.
  destruct (Txn_application_args c)
    as [|a0 [|a1 [|a2 [|a3 [|a4 [|a5 [|a6 [|]]]]]]]] eqn:E; try done.
  simpl in Ha, Ht.
  unfold create_htlc. teal_unfold. rewrite E. teal_run.
  destruct (String.length a3 <=? 8)%nat; [|done].
  destruct (String.length a5 <=? 8)%nat; [|done].
  simplify_eq. teal_run.
  destruct (decide (Txn_sender c = cr)) as [<- | Hcr']; teal_run; done.
Qed.
End CreateLabels.







(** C8, as the code has it.  The check is [Sha256(secret) == hashlock]
    with no guard on the secret: for the empty secret it holds exactly
    when the hashlock is the digest of the empty string.  Against every
    other hashlock the empty secret is rejected by public claim, partial
    fill, withdraw, claim and reveal. *)
Theorem C8_empty_secret :
  (forall h c s,
     verify (Bytes "") (Bytes h) c s =
       Some (VInt (if bool_decide (Sha256 "" = h) then 1 else 0))) /\
  (forall c s s',
     arg_bytes c 1 = Some "" ->
     gget s PartialFill.hashlock ≠ VBytes (Sha256 "") ->
     PartialFill.handle_public_claim c s ≠ Ok tt s') /\
  (forall c s s',
     arg_bytes c 2 = Some "" ->
     gget s PartialFill.hashlock ≠ VBytes (Sha256 "") ->
     PartialFill.handle_partial_fill c s ≠ Ok tt s') /\
  (forall c s s',
     arg_bytes c 1 = Some "" ->
     lget s (Txn_sender c) hashlock_key ≠ VBytes (Sha256 "") ->
     HTLCBridge.withdraw_htlc c s ≠ Ok tt s') /\
  (forall c s s',
     arg_bytes c 2 = Some "" ->
     lget s (Txn_sender c) hashlock_key ≠ VBytes (Sha256 "") ->
     EthToAlgo.claim_htlc c s ≠ Ok tt s') /\
  (forall c s s',
     arg_bytes c 2 = Some "" ->
     lget s (Txn_sender c) hashlock_key ≠ VBytes (Sha256 "") ->
     AlgoToEth.reveal_secret c s ≠ Ok tt s').
Proof.
  split; [|split; [|split; [|split; [|split]]]].
  - reflexivity.
  - intros c s s' Hsec Hh H.
    apply pf_public_claim_inv in H as (sec & Hsec' & _ & _ & Hh' & _).
    congruence.
  - intros c s s' Hsec Hh H.
    apply pf_partial_fill_inv in H
      as (f & sec & t & r & _ & Hsec' & _ & _ & Hh' & _).
    congruence.
  - intros c s s' Hsec Hh H.
    apply bridge_withdraw_inv in H
      as (id & sec & tl & _ & _ & Hsec' & _ & _ & _ & _ & _ & Hh' & _).
    congruence.
  - intros c s s' Hsec Hh H.
    apply e2a_claim_inv in H
      as (id & sec & tl & _ & _ & Hsec' & _ & _ & _ & _ & _ & Hh' & _).
    congruence.
  - intros c s s' Hsec Hh H.
    apply a2e_reveal_inv in H as (id & sec & _ & _ & Hsec' & _ & _ & Hh' & _).
    congruence.
Qed.

(** The empty secret against the hashlock of "abc". *)
Lemma C8_witness :
  PartialFill.handle_public_claim (pf_public_claim "") pf_abc ≠
    Ok tt (gput PartialFill.executed (VInt 1) pf_abc).
Proof.
  destruct C8_empty_secret as (_ & Hpc & _).
  apply (Hpc (pf_public_claim "") pf_abc
           (gput PartialFill.executed (VInt 1) pf_abc)).
  - reflexivity.
  - vm_compute. discriminate.
Defined.

(** C8 as stated fails: the digest of the empty string is a non-empty
    hashlock (32 bytes) which the empty secret satisfies; public claim,
    partial fill and reveal all accept it. *)
Lemma C8_counterexample :
  String.length (Sha256 "") = 32%nat /\
  (gget pf_empty_hash PartialFill.hashlock = VBytes (Sha256 "") /\
   PartialFill.handle_public_claim (pf_public_claim "") pf_empty_hash =
     Ok tt (gput PartialFill.executed (VInt 1) pf_empty_hash) /\
   PartialFill.handle_partial_fill (pf_fill 30 "" 0) pf_empty_hash =
     Ok tt (filled 0 100 30 pf_empty_hash)) /\
  (lget a2e_s1_empty_hash "ALICE" hashlock_key = VBytes (Sha256 "") /\
   AlgoToEth.reveal_secret (a2e_reveal "s1" "") a2e_s1_empty_hash =
     Ok tt (lput "ALICE" secret_key (VBytes "") a2e_s1_empty_hash)).
Proof.
  split; [vm_compute; reflexivity|]. split.
  - split; [vm_compute; reflexivity|]. split.
    + apply (pf_public_claim_ok _ _ ""); vm_compute; reflexivity.
    + apply (pf_partial_fill_ok _ _ 30 "" 0 100);
        vm_compute; first [reflexivity | discriminate | split; [reflexivity | discriminate]].
  - split; [vm_compute; reflexivity|].
    change (lput "ALICE" secret_key (VBytes "") a2e_s1_empty_hash)
      with (lput (Txn_sender (a2e_reveal "s1" "")) secret_key (VBytes "")
              a2e_s1_empty_hash).
    apply (a2e_reveal_ok _ _ "s1" ""); vm_compute; reflexivity.
Qed.



(** * Further properties of the contracts *)

(** ** Refund *)

Section RefundSpec.
Implicit Types (c : call) (s : state).

Lemma refunded_to_facts a to s :
  lget (refunded_to a to s) a refunded_key = VInt 1 /\
  inner_txns (refunded_to a to s) =
    (inner_txns s ++ [Payment (lget s a amount_key) to])%list /\
  (forall a' k, (a', k) ≠ (a, refunded_key) ->
     lget (refunded_to a to s) a' k = lget s a' k) /\
  globals (refunded_to a to s) = globals s.
Proof.
  unfold refunded_to. autorewrite with teal. repeat split; try done.
  intros a' k Hne. rewrite lget_submit. by apply lget_lput_ne.
Qed.

Lemma bridge_refund_spec :
  refund_spec HTLCBridge.refund_htlc 1 0 pay_initiator.
Proof.
  unfold refund_spec, open_record, arg_bytes, pay_initiator.
  intros c s id tl h Hl Hid (Hi & Hw & Hr & Ht & Hh). split.
  - intros Hnow. split; [by apply (bridge_refund_ok c s id tl)|].
    destruct (refunded_to_facts (Txn_sender c)
                (lget s (Txn_sender c) initiator_key) s) as (F1 & F2 & F3 & F4).
    repeat (split; [assumption|]).
    unfold refunded_to, HTLCBridge.refund_htlc. teal_unfold. teal_run. done.
  - intros Hnow. unfold HTLCBridge.refund_htlc. teal_unfold. teal_run. done.
Qed.

Lemma fixed_refund_spec :
  refund_spec HTLCBridgeFixed.refund_htlc 2 1 pay_initiator.
Proof.
  unfold refund_spec, open_record, arg_bytes, pay_initiator.
  intros c s id tl h Hl Hid (Hi & Hw & Hr & Ht & Hh). split.
  - intros Hnow. split.
    { unfold refunded_to, HTLCBridgeFixed.refund_htlc.
      teal_unfold. teal_run. done. }
    destruct (refunded_to_facts (Txn_sender c)
                (lget s (Txn_sender c) initiator_key) s) as (F1 & F2 & F3 & F4).
    repeat (split; [assumption|]).
    unfold refunded_to, HTLCBridgeFixed.refund_htlc. teal_unfold. teal_run.
    done.
  - intros Hnow. unfold HTLCBridgeFixed.refund_htlc. teal_unfold. teal_run.
    done.
Qed.

Lemma e2a_refund_spec : refund_spec EthToAlgo.refund_htlc 2 1 pay_sender.
Proof.
  unfold refund_spec, open_record, arg_bytes, pay_sender.
  intros c s id tl h Hl Hid (Hi & Hw & Hr & Ht & Hh). split.
  - intros Hnow. split.
    { unfold refunded_to, EthToAlgo.refund_htlc.
      teal_unfold. teal_run. done. }
    destruct (refunded_to_facts (Txn_sender c) (VBytes (Txn_sender c)) s)
      as (F1 & F2 & F3 & F4).
    repeat (split; [assumption|]).
    unfold refunded_to, EthToAlgo.refund_htlc. teal_unfold. teal_run. done.
  - intros Hnow. unfold EthToAlgo.refund_htlc. teal_unfold. teal_run. done.
Qed.

(** Claim and refund windows from the two handler specifications. *)
Lemma windows_from_specs claim refund nc i_id i_secret nr j_id payee :
  claim_spec claim nc i_id i_secret -> refund_spec refund nr j_id payee ->
  windows_spec claim refund nc i_id i_secret nr j_id.
Proof.
  intros Hc Hr cc cr s id sec tl now Hs Hlc Hic Hsc Hlr Hir Hrec.
  assert (Hrec' : open_record s (Txn_sender (at_time cr now)) id tl (Sha256 sec))
    by (simpl; by rewrite Hs).
  destruct (Hc (at_time cc now) s id sec tl (Sha256 sec) Hlc Hic Hsc Hrec)
    as (Hok & Hexp & _).
  destruct (Hr (at_time cr now) s id tl (Sha256 sec) Hlr Hir Hrec')
    as (Hrok & Hearly).
  split.
  - intros Hnow. split; [|by apply Hearly].
    destruct (Hok eq_refl Hnow) as (-> & _). done.
  - intros Hnow. split; [by apply Hexp|].
    destruct (Hrok Hnow) as (-> & _). done.
Qed.
End RefundSpec.





(** ** What a handler leaves alone

    A relation that holds across each statement of a handler holds across
    the handler, provided it is reflexive and transitive. *)

Section Respects.
Context (R : call -> state -> state -> Prop).
Hypothesis R_refl : forall c s, R c s s.
Hypothesis R_trans : forall c s1 s2 s3, R c s1 s2 -> R c s2 s3 -> R c s1 s3.

Lemma respects_bind {A B} (m : M A) (k : A -> M B) :
  respects R m -> (forall a, respects R (k a)) -> respects R (m ≫= k).
Proof.
  intros Hm Hk c s b s'. unfold mbind, M_bind.
  destruct (m c s) as [a s1 | e s1] eqn:E; [|done].
  intros H. eapply R_trans; [by eapply Hm | by eapply Hk].
Qed.

Lemma respects_reads_only {A} (m : M A) : reads_only m -> respects R m.
Proof. intros Hm c s a s' H. apply Hm in H as ->. apply R_refl. Qed.

Lemma respects_IfElse {A} cond (thn els : M A) :
  respects R thn -> respects R els -> respects R (IfElse cond thn els).
Proof.
  intros Ht He c s a s'. unfold IfElse.
  destruct (cond c s) as [[n|]|]; try done.
  destruct (n =? 0); [apply He | apply Ht].
Qed.

Lemma respects_If cond thn : respects R thn -> respects R (If_ cond thn).
Proof.
  intros Ht c s a s'. unfold If_.
  destruct (cond c s) as [[n|]|]; try done.
  destruct (n =? 0); [|apply Ht].
  intros H. simplify_eq. apply R_refl.
Qed.

Lemma respects_Return e : respects R (Return e).
Proof. intros c s [] s' H. apply Return_ok_inv in H as ->. apply R_refl. Qed.

Lemma respects_Cond branches :
  Forall (fun b => respects R b.2) branches -> respects R (Cond branches).
Proof.
  induction 1 as [|[cond body] rest Hb _ IH]; simpl.
  - intros c s a s' H. done.
  - by apply respects_IfElse.
Qed.
End Respects.

Lemma own_record_only_refl c s : own_record_only c s s.
Proof. by split. Qed.

Lemma own_record_only_trans c s1 s2 s3 :
  own_record_only c s1 s2 -> own_record_only c s2 s3 -> own_record_only c s1 s3.
Proof.
  intros [G1 L1] [G2 L2]. split; [congruence|].
  intros a k Ha. rewrite L2, L1; done.
Qed.

Lemma globals_only_refl c s : globals_only c s s.
Proof. by split. Qed.

Lemma globals_only_trans c s1 s2 s3 :
  globals_only c s1 s2 -> globals_only c s2 s3 -> globals_only c s1 s3.
Proof. intros [L1 P1] [L2 P2]. split; congruence. Qed.

Lemma localPut_own_record k e :
  respects own_record_only (App_localPut Txn_sender_ k e).
Proof.
  intros c s [] s'. unfold App_localPut, Txn_sender_.
  destruct (e c s) as [v|]; [|done]. intros H. injection H as <-.
  split; [done|]. intros a k' Ha. unfold lput; simpl.
  apply lookup_insert_ne. congruence.
Qed.

Lemma pay_own_record a r : respects own_record_only (InnerTxn_pay a r).
Proof.
  intros c s [] s'. unfold InnerTxn_pay.
  destruct (a c s), (r c s); try done. intros H. injection H as <-. by split.
Qed.

Lemma globalPut_globals_only k e : respects globals_only (App_globalPut k e).
Proof.
  intros c s [] s'. unfold App_globalPut.
  destruct (e c s); [|done]. intros H. injection H as <-. by split.
Qed.

Lemma globalPutDyn_globals_only k e :
  respects globals_only (App_globalPutDyn k e).
Proof.
  intros c s [] s'. unfold App_globalPutDyn.
  destruct (k c s) as [[|key]|]; try done.
  destruct (e c s); [|done]. intros H. injection H as <-. by split.
Qed.

(** One step of the argument, driven by the next statement. *)
Ltac respects_step :=
  lazymatch goal with
  | |- respects own_record_only (_ ≫= _) =>
      apply (respects_bind _ own_record_only_trans); [|intros ?]
  | |- respects globals_only (_ ≫= _) =>
      apply (respects_bind _ globals_only_trans); [|intros ?]
  | |- respects own_record_only (Assert _ _) =>
      apply (respects_reads_only _ own_record_only_refl), Assert_reads_only
  | |- respects globals_only (Assert _ _) =>
      apply (respects_reads_only _ globals_only_refl), Assert_reads_only
  | |- respects own_record_only (Store _) =>
      apply (respects_reads_only _ own_record_only_refl), Store_reads_only
  | |- respects globals_only (Store _) =>
      apply (respects_reads_only _ globals_only_refl), Store_reads_only
  | |- respects own_record_only (Return _) =>
      apply (respects_Return _ own_record_only_refl)
  | |- respects globals_only (Return _) =>
      apply (respects_Return _ globals_only_refl)
  | |- respects globals_only (If_ _ _) =>
      apply (respects_If _ globals_only_refl)
  | |- respects own_record_only (App_localPut Txn_sender_ _ _) =>
      apply localPut_own_record
  | |- respects own_record_only (InnerTxn_pay _ _) => apply pay_own_record
  | |- respects globals_only (App_globalPut _ _) => apply globalPut_globals_only
  | |- respects globals_only (App_globalPutDyn _ _) =>
      apply globalPutDyn_globals_only
  end.
Ltac respects_all := repeat respects_step.

Lemma load_create_args_own_record :
  respects own_record_only HTLCBridgeFixed.load_create_args.
Proof.
  apply (respects_reads_only _ own_record_only_refl),
    load_create_args_reads_only.
Qed.

Lemma record_handlers_respect h :
  h ∈ record_handlers -> respects own_record_only h.
Proof.
  unfold record_handlers. intros Hin.
  repeat (apply elem_of_cons in Hin as [-> | Hin]);
    try (by apply elem_of_nil in Hin).
  - unfold HTLCBridge.create_htlc. respects_all.
  - unfold HTLCBridge.withdraw_htlc. respects_all.
  - unfold HTLCBridge.refund_htlc. respects_all.
  - unfold HTLCBridge.get_htlc_status. respects_all.
  - unfold HTLCBridgeFixed.create_htlc. respects_step; [respects_step|].
    respects_step; [apply load_create_args_own_record|]. respects_all.
  - unfold HTLCBridgeFixed.withdraw_htlc. respects_all.
  - unfold HTLCBridgeFixed.refund_htlc. respects_all.
  - unfold HTLCBridgeFixed.get_htlc_status. respects_all.
  - unfold EthToAlgo.create_htlc. respects_all.
  - unfold EthToAlgo.claim_htlc. respects_all.
  - unfold EthToAlgo.refund_htlc. respects_all.
  - unfold AlgoToEth.create_htlc. respects_all.
  - unfold AlgoToEth.reveal_secret. respects_all.
  - unfold Minimal.claim_htlc. respects_all.
Qed.

Lemma update_handlers_respect h :
  h ∈ update_handlers -> respects globals_only h.
Proof.
  unfold update_handlers. intros Hin.
  repeat (apply elem_of_cons in Hin as [-> | Hin]);
    try (by apply elem_of_nil in Hin).
  - unfold HTLCBridge.update_contract. respects_all.
  - unfold HTLCBridgeFixed.update_contract. respects_all.
Qed.

Lemma pf_handlers_respect :
  respects globals_only PartialFill.handle_creation /\
  respects globals_only PartialFill.handle_htlc_creation /\
  respects globals_only PartialFill.handle_partial_fill /\
  respects globals_only PartialFill.handle_withdrawal /\
  respects globals_only PartialFill.handle_public_claim /\
  respects globals_only PartialFill.handle_deposit.
Proof.
  repeat match goal with |- _ /\ _ => split end.
  - unfold PartialFill.handle_creation. respects_all.
  - unfold PartialFill.handle_htlc_creation. respects_all.
  - unfold PartialFill.handle_partial_fill. respects_all.
  - unfold PartialFill.handle_withdrawal. respects_all.
  - unfold PartialFill.handle_public_claim. respects_all.
  - unfold PartialFill.handle_deposit. respects_all.
Qed.

Lemma pf_program_respects : respects globals_only PartialFill.program.
Proof.
  destruct pf_handlers_respect as (H1 & H2 & H3 & H4 & H5 & H6).
  unfold PartialFill.program.
  apply respects_Cond.
  repeat (apply Forall_cons; split; [assumption|]).
  apply Forall_cons; split; [|apply Forall_nil; done].
  simpl. respects_all.
Qed.

Lemma commit_respects (R : call -> state -> state -> Prop) (h : M unit) c s :
  (forall c s, R c s s) -> respects R h -> R c s (commit h c s).
Proof.
  intros Hrefl Hh. unfold commit.
  destruct (h c s) as [[] s' | e s'] eqn:E; [by eapply Hh | apply Hrefl].
Qed.

(** X3.  Only the caller's record.  A successful call of any handler of
    the record-keeping contracts (create, claim/withdraw, refund, status,
    reveal) leaves the global state and the local state of every account
    other than the sender exactly as they were; a successful
    [update_contract] writes no local state and submits no payment. *)
Theorem handlers_write_own_record :
  (forall h c s s',
     h ∈ record_handlers -> h c s = Ok tt s' -> own_record_only c s s') /\
  (forall h c s s',
     h ∈ update_handlers -> h c s = Ok tt s' -> globals_only c s s').
Proof.
  split; intros h c s s' Hin H.
  - by eapply record_handlers_respect.
  - by eapply update_handlers_respect.
Qed.

(** ALICE's claim leaves BOB's local state and the globals alone. *)
Lemma handlers_write_own_record_witness :
  globals (claimed "ALICE" e2a_s1) = globals e2a_s1 /\
  forall k, locals (claimed "ALICE" e2a_s1) !! ("BOB", k) =
            locals e2a_s1 !! ("BOB", k).
Proof.
  destruct handlers_write_own_record as [Hrec _].
  destruct (Hrec EthToAlgo.claim_htlc (e2a_claim "s1" "abc" 10) e2a_s1
              (claimed "ALICE" e2a_s1)) as [Hg Hl].
  - unfold record_handlers. do 9 (apply elem_of_cons; right).
    apply elem_of_cons; left. reflexivity.
  - change (claimed "ALICE" e2a_s1)
      with (claimed (Txn_sender (e2a_claim "s1" "abc" 10)) e2a_s1).
    apply (e2a_claim_ok _ _ "s1" "abc" 7200); vm_compute; reflexivity.
  - split; [exact Hg|]. intros k. apply Hl. discriminate.
Defined.

Lemma pf_exec_globals_only cs s :
  locals (pf_exec cs s) = locals s /\ inner_txns (pf_exec cs s) = inner_txns s.
Proof.
  revert s. induction cs as [|c cs IH]; intros s; [done|]. simpl.
  destruct (IH (commit PartialFill.program c s)) as [-> ->].
  apply (commit_respects globals_only PartialFill.program c s
           globals_only_refl pf_program_respects).
Qed.

(** X4.  The partial-fill engine moves no funds.  Over every sequence of
    calls of the partial-fill program (creation, create_htlc, deposit,
    partial_fill, public_claim, withdraw, or anything else), no inner
    payment is ever submitted and no local state is ever written: deposit
    receives nothing and a fill, claim or withdrawal releases nothing;
    the engine only keeps counters. *)
Theorem partial_fill_engine_moves_no_funds cs s :
  locals (pf_exec cs s) = locals s /\
  inner_txns (pf_exec cs s) = inner_txns s.
Proof. apply pf_exec_globals_only. Qed.

(** ** Records over sequences of calls *)

Section Shapes.
Implicit Types (c : call) (s : state).

Lemma fixed_withdraw_shape c s s' :
  HTLCBridgeFixed.withdraw_htlc c s = Ok tt s' ->
  has_record s (Txn_sender c) /\ s' = claimed (Txn_sender c) s.
Proof.
  unfold HTLCBridgeFixed.withdraw_htlc. intros H. teal_inv H. teal_facts.
  unfold claimed, has_record. autorewrite with teal. eauto.
Qed.

Lemma minimal_claim_shape c s s' :
  Minimal.claim_htlc c s = Ok tt s' ->
  has_record s (Txn_sender c) /\ s' = claimed (Txn_sender c) s.
Proof.
  unfold Minimal.claim_htlc. intros H. teal_inv H. teal_facts.
  unfold claimed, has_record. autorewrite with teal. eauto.
Qed.

Lemma fixed_refund_shape c s s' :
  HTLCBridgeFixed.refund_htlc c s = Ok tt s' ->
  s' = refunded_to (Txn_sender c) (lget s (Txn_sender c) initiator_key) s.
Proof.
  unfold HTLCBridgeFixed.refund_htlc. intros H. teal_inv H. teal_facts.
  unfold refunded_to. by autorewrite with teal.
Qed.

Lemma e2a_refund_shape c s s' :
  EthToAlgo.refund_htlc c s = Ok tt s' ->
  s' = refunded_to (Txn_sender c) (VBytes (Txn_sender c)) s.
Proof.
  unfold EthToAlgo.refund_htlc. intros H. teal_inv H. teal_facts.
  unfold refunded_to. by autorewrite with teal.
Qed.

Lemma fixed_status_shape c s s' :
  HTLCBridgeFixed.get_htlc_status c s = Ok tt s' -> s' = s.
Proof. unfold HTLCBridgeFixed.get_htlc_status. intros H. teal_inv H. done. Qed.

(** A successful create found no [HtlcId] and leaves a byte string. *)
Lemma e2a_create_shape c s s' :
  EthToAlgo.create_htlc c s = Ok tt s' ->
  lget s (Txn_sender c) htlc_id_key = VInt 0 /\ has_record s' (Txn_sender c).
Proof.
  unfold EthToAlgo.create_htlc. intros H. teal_inv H. teal_facts.
  unfold has_record. autorewrite with teal. eauto.
Qed.

Lemma bridge_create_shape c s s' :
  HTLCBridge.create_htlc c s = Ok tt s' ->
  lget s (Txn_sender c) htlc_id_key = VInt 0 /\ has_record s' (Txn_sender c).
Proof.
  unfold HTLCBridge.create_htlc. intros H. teal_inv H. teal_facts.
  unfold has_record. autorewrite with teal. eauto.
Qed.

Lemma a2e_create_shape c s s' :
  AlgoToEth.create_htlc c s = Ok tt s' ->
  lget s (Txn_sender c) htlc_id_key = VInt 0 /\ has_record s' (Txn_sender c).
Proof.
  unfold AlgoToEth.create_htlc. intros H. teal_inv H. teal_facts.
  unfold has_record. autorewrite with teal. eauto.
Qed.

Lemma fixed_create_shape c s s' :
  HTLCBridgeFixed.create_htlc c s = Ok tt s' ->
  lget s (Txn_sender c) htlc_id_key = VInt 0 /\ has_record s' (Txn_sender c).
Proof.
  unfold HTLCBridgeFixed.create_htlc, HTLCBridgeFixed.load_create_args.
  intros H.
  apply Assert_ok_inv in H as (n0 & Hor & Hn0 & H).
  apply IfElse_bind_ok_inv in H as (n & Hcond & [[Hn H] | [Hn H]]).
  - teal_inv_assoc H. simpl in *. teal_facts.
    unfold has_record. autorewrite with teal. eauto.
  - teal_inv_assoc H. simpl in *. teal_facts.
    unfold has_record. autorewrite with teal. eauto.
Qed.

Lemma a2e_reveal_shape c s s' :
  AlgoToEth.reveal_secret c s = Ok tt s' ->
  exists sec, s' = lput (Txn_sender c) secret_key (VBytes sec) s.
Proof.
  unfold AlgoToEth.reveal_secret. intros H. teal_inv H. teal_facts. eauto.
Qed.

Lemma bridge_update_shape c s s' :
  HTLCBridge.update_contract c s = Ok tt s' ->
  gget s creator_key = VBytes (Txn_sender c) /\
  length (Txn_application_args c) = 2%nat /\
  exists k v, arg_bytes c 0 = Some k /\ arg_bytes c 1 = Some v /\
              s' = gput k (VBytes v) s.
Proof.
  unfold HTLCBridge.update_contract. intros H. teal_inv H.
  unfold mbind, M_bind, App_globalPutDyn, Load in H. teal_facts.
  apply Return_ok_inv in H.
  split; [done|]. split; [lia|]. eauto.
Qed.

Lemma fixed_update_shape c s s' :
  HTLCBridgeFixed.update_contract c s = Ok tt s' ->
  gget s creator_key = VBytes (Txn_sender c) /\
  length (Txn_application_args c) = 3%nat /\
  exists k v, arg_bytes c 1 = Some k /\ arg_bytes c 2 = Some v /\
              s' = gput k (VBytes v) s.
Proof.
  unfold HTLCBridgeFixed.update_contract. intros H. teal_inv H.
  unfold mbind, M_bind, App_globalPutDyn, Load in H. teal_facts.
  apply Return_ok_inv in H.
  split; [done|]. split; [lia|]. eauto.
Qed.
End Shapes.

Lemma lget_locals s s' a k :
  locals s' !! (a, k) = locals s !! (a, k) -> lget s' a k = lget s a k.
Proof. unfold lget. by intros ->. Qed.

Lemma settlement_keys_ne k :
  k ∉ settlement_keys ->
  withdrawn_key ≠ k /\ refunded_key ≠ k /\ secret_key ≠ k.
Proof.
  unfold settlement_keys. intros Hk.
  repeat split; intros <-; apply Hk.
  - apply elem_of_cons; by left.
  - apply elem_of_cons; right. apply elem_of_cons; by left.
  - do 2 (apply elem_of_cons; right). apply elem_of_cons; by left.
Qed.

(** What one successful call does to the record of account [a]: it
    leaves every key but the settlement keys alone, or it creates the
    record where there was none. *)
Lemma record_step h c s s' a :
  h ∈ (record_handlers ++ update_handlers)%list -> h c s = Ok tt s' ->
  (forall k, k ∉ settlement_keys -> lget s' a k = lget s a k) \/
  (lget s a htlc_id_key = VInt 0 /\ has_record s' a).
Proof.
  intros Hin H. apply elem_of_app in Hin as [Hin | Hin].
  2:{ left. intros k _. apply lget_locals.
      by destruct (update_handlers_respect h Hin c s tt s' H) as [-> _]. }
  destruct (decide (a = Txn_sender c)) as [-> | Hne].
  2:{ left. intros k _. apply lget_locals.
      by destruct (record_handlers_respect h Hin c s tt s' H) as [_ ->]. }
  unfold record_handlers in Hin.
  repeat (apply elem_of_cons in Hin as [-> | Hin]);
    try (by apply elem_of_nil in Hin).
  - right. by apply bridge_create_shape.
  - left. intros k Hk. apply settlement_keys_ne in Hk as (? & ? & ?).
    apply bridge_withdraw_inv in H
      as (id & sec & tl & _ & _ & _ & _ & _ & _ & _ & _ & _ & ->).
    unfold claimed. by autorewrite with teal.
  - left. intros k Hk. apply settlement_keys_ne in Hk as (? & ? & ?).
    apply bridge_refund_inv in H as (id & tl & _ & _ & _ & _ & _ & _ & _ & ->).
    unfold refunded_to. by autorewrite with teal.
  - left. intros k _. by apply bridge_status_inv in H as ->.
  - right. by apply fixed_create_shape.
  - left. intros k Hk. apply settlement_keys_ne in Hk as (? & ? & ?).
    apply fixed_withdraw_shape in H as [_ ->].
    unfold claimed. by autorewrite with teal.
  - left. intros k Hk. apply settlement_keys_ne in Hk as (? & ? & ?).
    apply fixed_refund_shape in H as ->.
    unfold refunded_to. by autorewrite with teal.
  - left. intros k _. by apply fixed_status_shape in H as ->.
  - right. by apply e2a_create_shape.
  - left. intros k Hk. apply settlement_keys_ne in Hk as (? & ? & ?).
    apply e2a_claim_inv in H
      as (id & sec & tl & _ & _ & _ & _ & _ & _ & _ & _ & _ & ->).
    unfold claimed. by autorewrite with teal.
  - left. intros k Hk. apply settlement_keys_ne in Hk as (? & ? & ?).
    apply e2a_refund_shape in H as ->.
    unfold refunded_to. by autorewrite with teal.
  - right. by apply a2e_create_shape.
  - left. intros k Hk. apply settlement_keys_ne in Hk as (? & ? & ?).
    apply a2e_reveal_shape in H as (sec & ->). by autorewrite with teal.
  - left. intros k Hk. apply settlement_keys_ne in Hk as (? & ? & ?).
    apply minimal_claim_shape in H as [_ ->].
    unfold claimed. by autorewrite with teal.
Qed.

Lemma htlc_id_not_settlement : htlc_id_key ∉ settlement_keys.
Proof.
  unfold settlement_keys. intros H.
  repeat (apply elem_of_cons in H as [H | H]; [discriminate|]).
  by apply elem_of_nil in H.
Qed.

(** Every create refuses an account that holds a record. *)
Lemma create_needs_no_record create c s s' :
  create ∈ [HTLCBridge.create_htlc; HTLCBridgeFixed.create_htlc;
            EthToAlgo.create_htlc; AlgoToEth.create_htlc] ->
  has_record s (Txn_sender c) -> create c s ≠ Ok tt s'.
Proof.
  intros Hin [id Hid] H.
  assert (lget s (Txn_sender c) htlc_id_key = VInt 0) as H0.
  { repeat (apply elem_of_cons in Hin as [-> | Hin]);
      try (by apply elem_of_nil in Hin).
    - by apply bridge_create_shape in H as [? _].
    - by apply fixed_create_shape in H as [? _].
    - by apply e2a_create_shape in H as [? _].
    - by apply a2e_create_shape in H as [? _]. }
  congruence.
Qed.

Section HandlerTraces.
Implicit Types (s : state) (tr : list (M unit * call)).

Lemma run_handlers_cons hc tr s :
  run_handlers (hc :: tr) s = run_handlers tr (commit hc.1 hc.2 s).
Proof. reflexivity. Qed.

(** An invariant of the handlers is an invariant of their traces. *)
Lemma run_handlers_invariant (hs : list (M unit)) (I : state -> Prop) :
  (forall h c s s', h ∈ hs -> h c s = Ok tt s' -> I s -> I s') ->
  forall tr s, Forall (fun hc => hc.1 ∈ hs) tr -> I s -> I (run_handlers tr s).
Proof.
  intros Hstep tr. induction tr as [|[h c] tr IH]; intros s Htr Hs; [done|].
  apply Forall_cons in Htr as [Hh Htr]. rewrite run_handlers_cons.
  apply IH; [done|]. simpl in *. unfold commit.
  destruct (h c s) as [[] s1 | e s1] eqn:E; [|done].
  by apply (Hstep h c s s1).
Qed.

Lemma run_handlers_map {Op} (handler : Op -> M unit) (tr : list (Op * call)) s :
  run_handlers (map (fun oc => (handler oc.1, oc.2)) tr) s =
  fold_left (fun s oc => commit (handler oc.1) oc.2 s) tr s.
Proof. revert s. induction tr as [|oc tr IH]; intros s; [done|]. apply IH. Qed.

Lemma Forall_map_handlers {Op} (handler : Op -> M unit) (hs : list (M unit))
    (tr : list (Op * call)) :
  (forall o, handler o ∈ hs) ->
  Forall (fun hc => hc.1 ∈ hs) (map (fun oc => (handler oc.1, oc.2)) tr).
Proof. intros Hh. apply Forall_fmap, Forall_forall. intros oc _. apply Hh. Qed.
End HandlerTraces.

Tactic Notation "nth_elem" integer(n) :=
  do n (apply list_elem_of_further); apply list_elem_of_here.

Lemma bridge_handler_in o :
  HTLCBridge.handler o ∈ (record_handlers ++ update_handlers)%list.
Proof.
  destruct o; simpl;
    [nth_elem 0 | nth_elem 1 | nth_elem 2 | nth_elem 3 | nth_elem 14].
Qed.

Lemma fixed_handler_in o :
  HTLCBridgeFixed.handler o ∈ (record_handlers ++ update_handlers)%list.
Proof.
  destruct o; simpl;
    [nth_elem 4 | nth_elem 5 | nth_elem 6 | nth_elem 7 | nth_elem 15].
Qed.

Lemma e2a_handler_in o :
  EthToAlgo.handler o ∈ (record_handlers ++ update_handlers)%list.
Proof. destruct o; simpl; [nth_elem 8 | nth_elem 9 | nth_elem 10]. Qed.

Lemma a2e_handler_in o :
  AlgoToEth.handler o ∈ (record_handlers ++ update_handlers)%list.
Proof. destruct o; simpl; [nth_elem 11 | nth_elem 12]. Qed.

(** The record of [a] as it was in [s0]. *)
Lemma record_kept_step a s0 h c s s' :
  h ∈ (record_handlers ++ update_handlers)%list -> h c s = Ok tt s' ->
  has_record s0 a /\
    (forall k, k ∉ settlement_keys -> lget s a k = lget s0 a k) ->
  has_record s0 a /\
    (forall k, k ∉ settlement_keys -> lget s' a k = lget s0 a k).
Proof.
  intros Hin H [Hrec Hs]. split; [done|].
  destruct (record_step h c s s' a Hin H) as [Hkeep | [H0 _]].
  - intros k Hk. by rewrite Hkeep, Hs.
  - rewrite (Hs _ htlc_id_not_settlement) in H0.
    destruct Hrec as [id Hid]. congruence.
Qed.

Lemma record_kept tr a s :
  Forall (fun hc => hc.1 ∈ (record_handlers ++ update_handlers)%list) tr ->
  has_record s a ->
  forall k, k ∉ settlement_keys -> lget (run_handlers tr s) a k = lget s a k.
Proof.
  intros Htr Hrec.
  apply (run_handlers_invariant _
           (fun s' => has_record s a /\
              forall k, k ∉ settlement_keys -> lget s' a k = lget s a k)
           (record_kept_step a s) tr s Htr).
  by split.
Qed.

Lemma ids_wf_step h c s s' :
  h ∈ (record_handlers ++ update_handlers)%list -> h c s = Ok tt s' ->
  ids_wf s -> ids_wf s'.
Proof.
  intros Hin H Hwf a.
  destruct (record_step h c s s' a Hin H) as [Hkeep | [_ Hrec]]; [|by right].
  unfold has_record. rewrite (Hkeep _ htlc_id_not_settlement). apply Hwf.
Qed.

Lemma ids_wf_run tr s :
  Forall (fun hc => hc.1 ∈ (record_handlers ++ update_handlers)%list) tr ->
  ids_wf s -> ids_wf (run_handlers tr s).
Proof. apply (run_handlers_invariant _ ids_wf ids_wf_step). Qed.

Lemma ids_wf_no_locals s : locals s = ∅ -> ids_wf s.
Proof. intros Hs a. left. unfold lget. by rewrite Hs, lookup_empty. Qed.

Section RecordFixed.
Context {Op : Type} (handler : Op -> M unit) (create : M unit).
Hypothesis handler_in :
  forall o, handler o ∈ (record_handlers ++ update_handlers)%list.
Hypothesis create_in :
  create ∈ [HTLCBridge.create_htlc; HTLCBridgeFixed.create_htlc;
            EthToAlgo.create_htlc; AlgoToEth.create_htlc].

Lemma record_fixed_of_handlers :
  record_fixed_spec
    (fun tr s => fold_left (fun s oc => commit (handler oc.1) oc.2 s) tr s)
    create.
Proof.
  intros a tr s Hrec. rewrite <- run_handlers_map.
  pose proof (record_kept _ a s (Forall_map_handlers handler _ tr handler_in)
                Hrec) as Hkeep.
  split; [exact Hkeep|].
  intros c s' <-. apply create_needs_no_record; [done|].
  destruct Hrec as [id Hid]. exists id.
  by rewrite (Hkeep _ htlc_id_not_settlement).
Qed.
End RecordFixed.

(** X5.  A record is written once.  Once an account holds a record,
    over every later sequence of calls of the handlers of its contract
    (create, claim/withdraw, refund, status, update, reveal; by any
    sender) every key of the record other than [Withdrawn], [Refunded]
    and [Secret] keeps its value: id, parties, amount, hashlock and
    timelock are fixed for good.  And that account cannot create another
    record: every later create it sends fails, also after the record is
    settled.  (The sequences are handler calls; the local state the
    ledger deletes when an account closes out is not part of them.) *)
Theorem record_is_written_once :
  record_fixed_spec HTLCBridge.run HTLCBridge.create_htlc /\
  record_fixed_spec HTLCBridgeFixed.run HTLCBridgeFixed.create_htlc /\
  record_fixed_spec EthToAlgo.run EthToAlgo.create_htlc /\
  record_fixed_spec AlgoToEth.run AlgoToEth.create_htlc.
Proof.
  split; [|split; [|split]].
  - apply (record_fixed_of_handlers HTLCBridge.handler);
      [apply bridge_handler_in | nth_elem 0].
  - apply (record_fixed_of_handlers HTLCBridgeFixed.handler);
      [apply fixed_handler_in | nth_elem 1].
  - apply (record_fixed_of_handlers EthToAlgo.handler);
      [apply e2a_handler_in | nth_elem 2].
  - apply (record_fixed_of_handlers AlgoToEth.handler);
      [apply a2e_handler_in | nth_elem 3].
Qed.

(** ALICE's record "s1" after she claimed it: the amount is still 1000,
    and a new create by her is refused. *)
Lemma record_is_written_once_witness :
  lget (EthToAlgo.run [(EthToAlgo.OpClaim, e2a_claim "s1" "abc" 10)] e2a_s1)
    "ALICE" amount_key = VInt 1000 /\
  forall s',
    EthToAlgo.create_htlc (e2a_create "s2" 5 (Sha256 "abc") 9000 20)
      (EthToAlgo.run [(EthToAlgo.OpClaim, e2a_claim "s1" "abc" 10)] e2a_s1)
    ≠ Ok tt s'.
Proof.
  destruct record_is_written_once as (_ & _ & Hspec & _).
  assert (has_record e2a_s1 "ALICE") as Hrec
    by (exists "s1"; vm_compute; reflexivity).
  destruct (Hspec "ALICE" [(EthToAlgo.OpClaim, e2a_claim "s1" "abc" 10)]
              e2a_s1 Hrec) as [Hkeep Hcreate].
  split.
  - rewrite Hkeep; [vm_compute; reflexivity|].
    unfold settlement_keys. intros H.
    repeat (apply elem_of_cons in H as [H | H]; [discriminate|]).
    by apply elem_of_nil in H.
  - intros s'. apply Hcreate. reflexivity.
Defined.

Section StatusNeverApproves.
Implicit Types (c : call) (s : state).

Lemma bridge_status_refused c s :
  ids_wf s ->
  (forall s', HTLCBridge.get_htlc_status c s ≠ Ok tt s') /\
  (length (Txn_application_args c) = 1%nat ->
   (has_record s (Txn_sender c) ->
      HTLCBridge.get_htlc_status c s = Abort RuntimePanic s) /\
   (~ has_record s (Txn_sender c) ->
      HTLCBridge.get_htlc_status c s = Abort Rejected s)).
Proof.
  intros Hwf. split.
  - intros s' H. unfold HTLCBridge.get_htlc_status in H.
    apply Assert_ok_inv in H as (n & _ & _ & H).
    apply Store_ok_inv in H as (v & _ & H).
    unfold Return, App_localGet, Txn_sender_ in H.
    destruct (Hwf (Txn_sender c)) as [Hz | [id Hid]].
    + rewrite Hz in H. done.
    + rewrite Hid in H. done.
  - intros Hl.
    assert (exists b, Txn_application_args c !! 0%nat = Some b) as [b Hb].
    { destruct (Txn_application_args c) as [|b l]; [done|]. by exists b. }
    split.
    + intros [id Hid]. unfold HTLCBridge.get_htlc_status.
      teal_unfold. teal_run. done.
    + intros Hno. destruct (Hwf (Txn_sender c)) as [Hz | Hrec]; [|done].
      unfold HTLCBridge.get_htlc_status. teal_unfold. teal_run. done.
Qed.

Lemma fixed_status_refused c s :
  ids_wf s ->
  (forall s', HTLCBridgeFixed.get_htlc_status c s ≠ Ok tt s') /\
  (length (Txn_application_args c) = 2%nat ->
   (has_record s (Txn_sender c) ->
      HTLCBridgeFixed.get_htlc_status c s = Abort RuntimePanic s) /\
   (~ has_record s (Txn_sender c) ->
      HTLCBridgeFixed.get_htlc_status c s = Abort Rejected s)).
Proof.
  intros Hwf. split.
  - intros s' H. unfold HTLCBridgeFixed.get_htlc_status in H.
    apply Assert_ok_inv in H as (n & _ & _ & H).
    apply Store_ok_inv in H as (v & _ & H).
    unfold Return, App_localGet, Txn_sender_ in H.
    destruct (Hwf (Txn_sender c)) as [Hz | [id Hid]].
    + rewrite Hz in H. done.
    + rewrite Hid in H. done.
  - intros Hl.
    assert (exists b, Txn_application_args c !! 1%nat = Some b) as [b Hb].
    { destruct (Txn_application_args c) as [|b0 [|b l]]; [done..|].
      by exists b. }
    split.
    + intros [id Hid]. unfold HTLCBridgeFixed.get_htlc_status.
      teal_unfold. teal_run. done.
    + intros Hno. destruct (Hwf (Txn_sender c)) as [Hz | Hrec]; [|done].
      unfold HTLCBridgeFixed.get_htlc_status. teal_unfold. teal_run. done.
Qed.

Lemma bridge_reachable_ids_wf c0 tr :
  ids_wf (HTLCBridge.run tr (HTLCBridge.created c0)).
Proof.
  unfold HTLCBridge.run, HTLCBridge.step.
  rewrite <- (run_handlers_map HTLCBridge.handler).
  apply ids_wf_run;
    [apply Forall_map_handlers, bridge_handler_in | by apply ids_wf_no_locals].
Qed.

Lemma fixed_reachable_ids_wf c0 tr :
  ids_wf (HTLCBridgeFixed.run tr (HTLCBridgeFixed.created c0)).
Proof.
  unfold HTLCBridgeFixed.run, HTLCBridgeFixed.step.
  rewrite <- (run_handlers_map HTLCBridgeFixed.handler).
  apply ids_wf_run;
    [apply Forall_map_handlers, fixed_handler_in | by apply ids_wf_no_locals].
Qed.
End StatusNeverApproves.

(** X6.  The status query never approves.  [get_htlc_status] returns the
    stored [HtlcId] as the approval value.  In every state reachable from
    application creation that value is integer 0 (no record) or a byte
    string (a record), so the call is never approved: with the right
    number of arguments it is rejected when the sender has no record and
    stops with an AVM type error when the sender has one.  Both files of
    the bidirectional contract. *)
Theorem status_never_approves :
  (forall c0 tr c,
     let s := HTLCBridge.run tr (HTLCBridge.created c0) in
     (forall s', HTLCBridge.get_htlc_status c s ≠ Ok tt s') /\
     (length (Txn_application_args c) = 1%nat ->
      (has_record s (Txn_sender c) ->
         HTLCBridge.get_htlc_status c s = Abort RuntimePanic s) /\
      (~ has_record s (Txn_sender c) ->
         HTLCBridge.get_htlc_status c s = Abort Rejected s))) /\
  (forall c0 tr c,
     let s := HTLCBridgeFixed.run tr (HTLCBridgeFixed.created c0) in
     (forall s', HTLCBridgeFixed.get_htlc_status c s ≠ Ok tt s') /\
     (length (Txn_application_args c) = 2%nat ->
      (has_record s (Txn_sender c) ->
         HTLCBridgeFixed.get_htlc_status c s = Abort RuntimePanic s) /\
      (~ has_record s (Txn_sender c) ->
         HTLCBridgeFixed.get_htlc_status c s = Abort Rejected s))).
Proof.
  split; intros c0 tr c s.
  - apply bridge_status_refused, bridge_reachable_ids_wf.
  - apply fixed_status_refused, fixed_reachable_ids_wf.
Qed.

(** After ALICE created a record through the fixed contract, her status
    query stops with a type error. *)
Lemma status_never_approves_witness :
  HTLCBridgeFixed.get_htlc_status (fixed_status "h1") fixed_s1 =
    Abort RuntimePanic fixed_s1.
Proof.
  destruct status_never_approves as [_ H].
  destruct (H (mk_call "CREATOR" ["init"] 0)
              [(HTLCBridgeFixed.OpCreate,
                fixed_create "h1" 1000 7200 0 (Sha256 "abc"))]
              (fixed_status "h1")) as [_ Hlab].
  destruct Hlab as [Hrec _]; [reflexivity|].
  apply Hrec. exists "h1". vm_compute. reflexivity.
Defined.

(** ** [update_contract] *)

Section Update.
Implicit Types (c : call) (s : state).

Lemma bridge_update_spec : update_spec HTLCBridge.update_contract 2 0 1.
Proof.
  intros c s. split.
  - intros s'. split; [apply bridge_update_shape|].
    unfold arg_bytes. intros (Hc & Hl & k & v & Hk & Hv & ->).
    unfold HTLCBridge.update_contract. teal_unfold. teal_run. done.
  - intros cr Hc Hne. unfold HTLCBridge.update_contract.
    teal_unfold. teal_run. done.
Qed.

Lemma fixed_update_spec : update_spec HTLCBridgeFixed.update_contract 3 1 2.
Proof.
  intros c s. split.
  - intros s'. split; [apply fixed_update_shape|].
    unfold arg_bytes. intros (Hc & Hl & k & v & Hk & Hv & ->).
    unfold HTLCBridgeFixed.update_contract. teal_unfold. teal_run. done.
  - intros cr Hc Hne. unfold HTLCBridgeFixed.update_contract.
    teal_unfold. teal_run. done.
Qed.

(** A global that holds a byte string holds one after any call. *)
Lemma global_bytes_step k h c s s' :
  h ∈ (record_handlers ++ update_handlers)%list -> h c s = Ok tt s' ->
  (exists v, gget s k = VBytes v) -> exists v, gget s' k = VBytes v.
Proof.
  intros Hin H [v Hv]. apply elem_of_app in Hin as [Hin | Hin].
  - destruct (record_handlers_respect h Hin c s tt s' H) as [Hg _].
    exists v. unfold gget in *. by rewrite Hg.
  - assert (exists k' v', s' = gput k' (VBytes v') s) as (k' & v' & ->).
    { unfold update_handlers in Hin.
      repeat (apply elem_of_cons in Hin as [-> | Hin]);
        try (by apply elem_of_nil in Hin).
      - apply bridge_update_shape in H as (_ & _ & k' & v' & _ & _ & ->).
        eauto.
      - apply fixed_update_shape in H as (_ & _ & k' & v' & _ & _ & ->).
        eauto. }
    destruct (decide (k' = k)) as [-> | Hne].
    + exists v'. by rewrite gget_gput_eq.
    + exists v. by rewrite gget_gput_ne.
Qed.

Lemma global_bytes_run k tr s :
  Forall (fun hc => hc.1 ∈ (record_handlers ++ update_handlers)%list) tr ->
  (exists v, gget s k = VBytes v) ->
  exists v, gget (run_handlers tr s) k = VBytes v.
Proof.
  apply (run_handlers_invariant _ (fun s => exists v, gget s k = VBytes v)
           (global_bytes_step k)).
Qed.

(** Both creates add the stored bounds to the clock. *)
Lemma create_reads_bounds create c s s' k :
  create ∈ [HTLCBridge.create_htlc; HTLCBridgeFixed.create_htlc] ->
  k ∈ timelock_bound_keys -> create c s = Ok tt s' ->
  exists n, gget s k = VInt n.
Proof.
  intros Hin Hk H.
  assert (exists mn mx, gget s min_timelock_key = VInt mn /\
                        gget s max_timelock_key = VInt mx)
    as (mn & mx & Hmn & Hmx).
  { repeat (apply elem_of_cons in Hin as [-> | Hin]);
      try (by apply elem_of_nil in Hin).
    - apply bridge_create_inv in H
        as (id & ini & rcp & amt & h & tl & eth & mn & mx & H).
      destruct H as (_&_&_&_&_&_&_&_& Hmn & Hmx & _). eauto.
    - apply fixed_create_inv in H as (amt & tl & mn & mx & _ & _ & Hmn & Hmx & _).
      eauto. }
  unfold timelock_bound_keys in Hk.
  repeat (apply elem_of_cons in Hk as [-> | Hk]); eauto.
  by apply elem_of_nil in Hk.
Qed.
End Update.



(** X8.  The delay bounds cannot be retuned.  [update_contract] stores
    byte strings only, and [create_htlc] adds the stored [MinTimelock] and
    [MaxTimelock] to the clock as integers.  So once an update has
    written either key, every create fails, and keeps failing over every
    later sequence of calls (another update can only store bytes again):
    the only way to change a bound disables the contract for new
    records. *)
Theorem update_of_a_bound_disables_create k :
  k ∈ timelock_bound_keys ->
  (forall c s s1,
     HTLCBridge.update_contract c s = Ok tt s1 -> arg_bytes c 0 = Some k ->
     forall tr c' s', HTLCBridge.create_htlc c' (HTLCBridge.run tr s1) ≠ Ok tt s') /\
  (forall c s s1,
     HTLCBridgeFixed.update_contract c s = Ok tt s1 -> arg_bytes c 1 = Some k ->
     forall tr c' s',
       HTLCBridgeFixed.create_htlc c' (HTLCBridgeFixed.run tr s1) ≠ Ok tt s').
Proof.
  intros Hk. split; intros c s s1 Hup Harg tr c' s' Hcreate.
  - apply bridge_update_shape in Hup as (_ & _ & k' & v & Hk' & _ & ->).
    assert (k' = k) as -> by congruence.
    destruct (global_bytes_run k (bridge_trace tr) (gput k (VBytes v) s))
      as [w Hw].
    { apply Forall_map_handlers, bridge_handler_in. }
    { exists v. apply gget_gput_eq. }
    unfold bridge_trace in Hw. rewrite run_handlers_map in Hw.
    eapply create_reads_bounds in Hcreate as [n Hn]; [|nth_elem 0|exact Hk].
    unfold HTLCBridge.run, HTLCBridge.step in Hn. congruence.
  - apply fixed_update_shape in Hup as (_ & _ & k' & v & Hk' & _ & ->).
    assert (k' = k) as -> by congruence.
    destruct (global_bytes_run k (fixed_trace tr) (gput k (VBytes v) s))
      as [w Hw].
    { apply Forall_map_handlers, fixed_handler_in. }
    { exists v. apply gget_gput_eq. }
    unfold fixed_trace in Hw. rewrite run_handlers_map in Hw.
    eapply create_reads_bounds in Hcreate as [n Hn]; [|nth_elem 1|exact Hk].
    unfold HTLCBridgeFixed.run, HTLCBridgeFixed.step in Hn. congruence.
Qed.

(** After the creator stored 60 (eight bytes) under [MinTimelock], a
    create that was fine before is refused. *)
Lemma update_of_a_bound_disables_create_witness :
  outcome (HTLCBridgeFixed.create_htlc
             (fixed_create "h1" 1000 7200 0 (Sha256 "abc")) fixed_fresh) = None /\
  forall s',
    HTLCBridgeFixed.create_htlc (fixed_create "h1" 1000 7200 0 (Sha256 "abc"))
      fixed_retuned ≠ Ok tt s'.
Proof.
  split; [vm_compute; reflexivity|].
  destruct (update_of_a_bound_disables_create min_timelock_key) as [_ H].
  { unfold timelock_bound_keys. apply list_elem_of_here. }
  assert (outcome (HTLCBridgeFixed.update_contract
                     (fixed_update "CREATOR" min_timelock_key (Itob 60))
                     fixed_fresh) = None) as Hout by (vm_compute; reflexivity).
  intros s'.
  apply (H (fixed_update "CREATOR" min_timelock_key (Itob 60)) fixed_fresh
           fixed_retuned (ok_commit _ _ _ Hout) eq_refl []).
Defined.

(** ** The approval programs *)

Section Dispatch.
Implicit Types (c : call) (s : state) (oc : OnComplete).

Lemma Cond_cons cond body rest c s :
  Cond ((cond, body) :: rest) c s = IfElse cond body (Cond rest) c s.
Proof. reflexivity. Qed.

Lemma IfElse_true {A} cond (thn els : M A) c s n :
  cond c s = Some (VInt n) -> n ≠ 0 -> IfElse cond thn els c s = thn c s.
Proof.
  intros H Hn. unfold IfElse. rewrite H.
  by rewrite (proj2 (Z.eqb_neq n 0) Hn).
Qed.

Lemma IfElse_false {A} cond (thn els : M A) c s :
  cond c s = Some (VInt 0) -> IfElse cond thn els c s = els c s.
Proof. intros H. unfold IfElse. by rewrite H. Qed.

Lemma app_id_test c s :
  Eq Txn_application_id_ (Int 0) c s =
    Some (VInt (if Txn_application_id c =? 0 then 1 else 0)).
Proof. reflexivity. Qed.

Lemma on_completion_test oc x c s :
  Eq (Txn_on_completion_ oc) (OnComplete_ x) c s =
    Some (VInt (if on_complete_code oc =? on_complete_code x then 1 else 0)).
Proof. reflexivity. Qed.

Lemma name_test_hit n c s :
  arg_bytes c 0 = Some n -> Eq (Txn_arg 0) (Bytes n) c s = Some (VInt 1).
Proof.
  unfold arg_bytes. intros H. teal_unfold. rewrite H. cbn.
  by rewrite v_eq_refl_bytes.
Qed.

Lemma name_test_miss n m c s :
  arg_bytes c 0 = Some n -> n ≠ m -> Eq (Txn_arg 0) (Bytes m) c s = Some (VInt 0).
Proof.
  unfold arg_bytes. intros H Hne. teal_unfold. rewrite H. cbn.
  by rewrite v_eq_bytes_ne.
Qed.

Lemma name_test_none m c s :
  arg_bytes c 0 = None -> Eq (Txn_arg 0) (Bytes m) c s = None.
Proof. unfold arg_bytes. intros H. teal_unfold. by rewrite H. Qed.

Lemma Cond_hit n body rest c s :
  arg_bytes c 0 = Some n ->
  Cond ((Eq (Txn_arg 0) (Bytes n), body) :: rest) c s = body c s.
Proof.
  intros H. rewrite Cond_cons.
  apply (IfElse_true _ _ _ _ _ 1); [by apply name_test_hit | done].
Qed.

Lemma Cond_miss n m body rest c s :
  arg_bytes c 0 = Some n -> n ≠ m ->
  Cond ((Eq (Txn_arg 0) (Bytes m), body) :: rest) c s = Cond rest c s.
Proof.
  intros H Hne. rewrite Cond_cons. apply IfElse_false.
  by apply (name_test_miss n).
Qed.

Lemma Cond_no_name m body rest c s :
  arg_bytes c 0 = None ->
  Cond ((Eq (Txn_arg 0) (Bytes m), body) :: rest) c s = Abort RuntimePanic s.
Proof.
  intros H. rewrite Cond_cons. unfold IfElse. by rewrite name_test_none.
Qed.

(** The five tests every guarded program starts with. *)
Lemma Cond_guards creation rest oc c s :
  Cond ((Eq Txn_application_id_ (Int 0), creation)
        :: (Eq (Txn_on_completion_ oc) (OnComplete_ OptIn), Return (Int 1))
        :: (Eq (Txn_on_completion_ oc) (OnComplete_ CloseOut), Return (Int 1))
        :: (Eq (Txn_on_completion_ oc) (OnComplete_ UpdateApplication),
            Return (Int 0))
        :: (Eq (Txn_on_completion_ oc) (OnComplete_ DeleteApplication),
            Return (Int 0))
        :: rest) c s =
  if Txn_application_id c =? 0 then creation c s
  else match oc with
       | OptIn | CloseOut => Ok tt s
       | UpdateApplication | DeleteApplication => Abort Rejected s
       | NoOp | ClearState => Cond rest c s
       end.
Proof.
  rewrite Cond_cons. unfold IfElse at 1. rewrite app_id_test.
  destruct (Txn_application_id c =? 0); [reflexivity|].
  change (1 =? 0) with false. change (0 =? 0) with true. cbv iota.
  rewrite !Cond_cons. unfold IfElse. rewrite !on_completion_test.
  destruct oc; reflexivity.
Qed.

Lemma guarded_program_guards p oc c s :
  p ∈ guarded_programs ->
  Txn_application_id c ≠ 0 ->
  match oc with
  | OptIn | CloseOut => p oc c s = Ok tt s
  | UpdateApplication | DeleteApplication => p oc c s = Abort Rejected s
  | NoOp | ClearState => True
  end.
Proof.
  intros Hin Hid. apply Z.eqb_neq in Hid. unfold guarded_programs in Hin.
  repeat (apply elem_of_cons in Hin as [-> | Hin]);
    try (by apply elem_of_nil in Hin).
  - unfold HTLCBridgeFixed.program. destruct oc; try done;
      by rewrite Cond_guards, Hid.
  - unfold EthToAlgo.program. destruct oc; try done;
      by rewrite Cond_guards, Hid.
  - unfold AlgoToEth.program. destruct oc; try done;
      by rewrite Cond_guards, Hid.
  - unfold Minimal.program. destruct oc; try done;
      by rewrite Cond_guards, Hid.
Qed.

Lemma args_nonempty c s :
  Txn_application_args c ≠ [] ->
  Gt Txn_args_length (Int 0) c s = Some (VInt 1).
Proof.
  intros H. teal_unfold. rewrite v_cmp_true; [done|]. apply Z.gtb_lt.
  destruct (Txn_application_args c); [done|]. simpl length. lia.
Qed.

Lemma fixed_contract_with_args oc c s :
  Txn_application_args c ≠ [] ->
  HTLCBridgeFixed.htlc_bridge_contract oc c s = HTLCBridgeFixed.program oc c s.
Proof.
  intros H. unfold HTLCBridgeFixed.htlc_bridge_contract.
  apply (IfElse_true _ _ _ _ _ 1); [|done].
  exact (args_nonempty c s H).
Qed.

Lemma fixed_contract_no_args oc c s :
  Txn_application_args c = [] ->
  HTLCBridgeFixed.htlc_bridge_contract oc c s = Abort Rejected s.
Proof.
  intros H. unfold HTLCBridgeFixed.htlc_bridge_contract.
  rewrite IfElse_false; [done|]. teal_unfold. by rewrite H.
Qed.
End Dispatch.

(** X9.  Code and application are fixed.  In every approval program
    that tests the completion action (the [Cond] of the fixed
    bidirectional contract, of ETH-to-ALGO, of ALGO-to-ETH and of the
    minimal contract) and for every call of an existing application,
    whatever its arguments and sender: UpdateApplication and
    DeleteApplication are rejected, and OptIn and CloseOut are approved
    without running any handler; in all four cases the state is
    unchanged.  The fixed contract wraps its [Cond] in the argument-count
    test: as returned by [htlc_bridge_contract] it rejects update and
    delete all the same, and approves OptIn and CloseOut only when the
    call carries at least one argument. *)
Theorem completion_actions_are_guarded oc c s :
  Txn_application_id c ≠ 0 ->
  (oc ∈ [UpdateApplication; DeleteApplication] ->
     (forall p, p ∈ guarded_programs -> p oc c s = Abort Rejected s) /\
     HTLCBridgeFixed.htlc_bridge_contract oc c s = Abort Rejected s) /\
  (oc ∈ [OptIn; CloseOut] ->
     (forall p, p ∈ guarded_programs -> p oc c s = Ok tt s) /\
     (Txn_application_args c ≠ [] ->
        HTLCBridgeFixed.htlc_bridge_contract oc c s = Ok tt s) /\
     (Txn_application_args c = [] ->
        HTLCBridgeFixed.htlc_bridge_contract oc c s = Abort Rejected s)).
Proof.
  intros Hid.
  assert (HTLCBridgeFixed.program ∈ guarded_programs) as Hfixed
    by (unfold guarded_programs; nth_elem 0).
  pose proof (guarded_program_guards _ oc c s Hfixed Hid) as Hf.
  split; intros Hoc.
  - split.
    + intros p Hin. pose proof (guarded_program_guards p oc c s Hin Hid) as H.
      repeat (apply elem_of_cons in Hoc as [-> | Hoc]);
        try (by apply elem_of_nil in Hoc); exact H.
    + destruct (decide (Txn_application_args c = [])) as [He | Hne];
        [by apply fixed_contract_no_args|].
      rewrite fixed_contract_with_args by done.
      repeat (apply elem_of_cons in Hoc as [-> | Hoc]);
        try (by apply elem_of_nil in Hoc); exact Hf.
  - split; [|split].
    + intros p Hin. pose proof (guarded_program_guards p oc c s Hin Hid) as H.
      repeat (apply elem_of_cons in Hoc as [-> | Hoc]);
        try (by apply elem_of_nil in Hoc); exact H.
    + intros Hne. rewrite fixed_contract_with_args by done.
      repeat (apply elem_of_cons in Hoc as [-> | Hoc]);
        try (by apply elem_of_nil in Hoc); exact Hf.
    + apply fixed_contract_no_args.
Qed.

(** The creator of the ETH-to-ALGO contract cannot delete it, even with
    ALICE's record open. *)
Lemma completion_actions_are_guarded_witness :
  EthToAlgo.program DeleteApplication (mk_call "CREATOR" ["delete"] 0) e2a_s1 =
    Abort Rejected e2a_s1.
Proof.
  destruct (completion_actions_are_guarded DeleteApplication
              (mk_call "CREATOR" ["delete"] 0) e2a_s1) as [H _].
  - discriminate.
  - destruct H as [H _]; [nth_elem 1|].
    apply H. unfold guarded_programs. nth_elem 1.
Defined.

(** X10.  The entry test of the fixed contract.  The value
    [htlc_bridge_contract] returns tests the argument count before
    anything else: a transaction without arguments is rejected with the
    state unchanged, the creating transaction included, so the
    application can only be created by a call that carries at least one
    argument (which is then ignored): such a call stores the sender as
    [Creator] and the delay bounds 3600 and 86400. *)
Theorem fixed_contract_entry oc c s :
  (Txn_application_args c = [] ->
     HTLCBridgeFixed.htlc_bridge_contract oc c s = Abort Rejected s) /\
  (Txn_application_args c ≠ [] -> Txn_application_id c = 0 ->
     exists s',
       HTLCBridgeFixed.htlc_bridge_contract oc c s = Ok tt s' /\
       gget s' creator_key = VBytes (Txn_sender c) /\
       gget s' min_timelock_key = VInt 3600 /\
       gget s' max_timelock_key = VInt 86400 /\
       locals s' = locals s /\ inner_txns s' = inner_txns s).
Proof.
  split.
  - apply fixed_contract_no_args.
  - intros Hargs Hid. rewrite fixed_contract_with_args by done.
    unfold HTLCBridgeFixed.program. rewrite Cond_guards, Hid.
    change (0 =? 0) with true. cbv iota.
    unfold HTLCBridgeFixed.handle_creation. teal_unfold. cbn.
    eexists. split; [reflexivity|]. autorewrite with teal. done.
Qed.

(** A creating transaction with no argument is rejected. *)
Lemma fixed_contract_entry_witness :
  HTLCBridgeFixed.htlc_bridge_contract NoOp (Call 0 "CREATOR" [] 0 "APP")
    empty_state = Abort Rejected empty_state.
Proof.
  destruct (fixed_contract_entry NoOp (Call 0 "CREATOR" [] 0 "APP") empty_state)
    as [H _].
  apply H. reflexivity.
Defined.

Section FixedRoutes.
Import HTLCBridgeFixed.
Implicit Types (c : call) (s : state).

Lemma fixed_program_noop c s :
  Txn_application_id c ≠ 0 ->
  program NoOp c s =
  Cond [
    (Eq (Txn_arg 0) (Bytes "create_htlc"), create_htlc);
    (Eq (Txn_arg 0) (Bytes "create"), create_htlc);
    (Eq (Txn_arg 0) (Bytes "withdraw"), withdraw_htlc);
    (Eq (Txn_arg 0) (Bytes "withdraw_htlc"), withdraw_htlc);
    (Eq (Txn_arg 0) (Bytes "claim_htlc"), withdraw_htlc);
    (Eq (Txn_arg 0) (Bytes "refund"), refund_htlc);
    (Eq (Txn_arg 0) (Bytes "refund_htlc"), refund_htlc);
    (Eq (Txn_arg 0) (Bytes "status"), get_htlc_status);
    (Eq (Txn_arg 0) (Bytes "get_htlc_status"), get_htlc_status);
    (Eq (Txn_arg 0) (Bytes "update"), update_contract);
    (Eq (Txn_arg 0) (Bytes "update_contract"), update_contract)
  ] c s.
Proof.
  intros Hid. apply Z.eqb_neq in Hid. unfold program.
  by rewrite Cond_guards, Hid.
Qed.

Lemma fixed_route_hit name o c s :
  (name, o) ∈ fixed_routes ->
  Txn_application_id c ≠ 0 -> arg_bytes c 0 = Some name ->
  htlc_bridge_contract NoOp c s = handler o c s.
Proof.
  intros Hin Hid Harg.
  rewrite fixed_contract_with_args, fixed_program_noop; [|done|].
  2:{ unfold arg_bytes in Harg. by destruct (Txn_application_args c). }
  unfold fixed_routes in Hin.
  repeat (apply elem_of_cons in Hin as [Hin | Hin]; [injection Hin as -> ->|]);
    try (by apply elem_of_nil in Hin);
    repeat (rewrite (Cond_miss _ _ _ _ _ _ Harg) by discriminate);
    by rewrite (Cond_hit _ _ _ _ _ Harg).
Qed.

Lemma fixed_route_miss name c s :
  (forall o, (name, o) ∉ fixed_routes) ->
  Txn_application_id c ≠ 0 -> arg_bytes c 0 = Some name ->
  htlc_bridge_contract NoOp c s = Abort RuntimePanic s.
Proof.
  intros Hout Hid Harg.
  rewrite fixed_contract_with_args, fixed_program_noop; [|done|].
  2:{ unfold arg_bytes in Harg. by destruct (Txn_application_args c). }
  assert (forall n o, (n, o) ∈ fixed_routes -> name ≠ n) as Hne.
  { intros n o Hin ->. by apply (Hout o). }
  unfold fixed_routes in Hne.
  rewrite (Cond_miss _ _ _ _ _ _ Harg) by (eapply Hne; nth_elem 0).
  rewrite (Cond_miss _ _ _ _ _ _ Harg) by (eapply Hne; nth_elem 1).
  rewrite (Cond_miss _ _ _ _ _ _ Harg) by (eapply Hne; nth_elem 2).
  rewrite (Cond_miss _ _ _ _ _ _ Harg) by (eapply Hne; nth_elem 3).
  rewrite (Cond_miss _ _ _ _ _ _ Harg) by (eapply Hne; nth_elem 4).
  rewrite (Cond_miss _ _ _ _ _ _ Harg) by (eapply Hne; nth_elem 5).
  rewrite (Cond_miss _ _ _ _ _ _ Harg) by (eapply Hne; nth_elem 6).
  rewrite (Cond_miss _ _ _ _ _ _ Harg) by (eapply Hne; nth_elem 7).
  rewrite (Cond_miss _ _ _ _ _ _ Harg) by (eapply Hne; nth_elem 8).
  rewrite (Cond_miss _ _ _ _ _ _ Harg) by (eapply Hne; nth_elem 9).
  rewrite (Cond_miss _ _ _ _ _ _ Harg) by (eapply Hne; nth_elem 10).
  reflexivity.
Qed.
End FixedRoutes.

(** X11.  Routing by operation name.  For an ordinary call (NoOp) of the
    existing fixed contract, argument 0 selects the handler: "create" and
    "create_htlc" run create, "withdraw", "withdraw_htlc" and
    "claim_htlc" run withdraw, "refund" and "refund_htlc" run refund,
    "status" and "get_htlc_status" the status query, "update" and
    "update_contract" the update; the call then behaves exactly as the
    handler on the same call and state.  Any other name makes the
    program fail with the state unchanged. *)
Theorem fixed_contract_routes c s name :
  Txn_application_id c ≠ 0 -> arg_bytes c 0 = Some name ->
  (forall o, (name, o) ∈ fixed_routes ->
     HTLCBridgeFixed.htlc_bridge_contract NoOp c s =
       HTLCBridgeFixed.handler o c s) /\
  ((forall o, (name, o) ∉ fixed_routes) ->
     HTLCBridgeFixed.htlc_bridge_contract NoOp c s = Abort RuntimePanic s).
Proof.
  intros Hid Harg. split.
  - intros o Hin. by apply (fixed_route_hit name).
  - intros Hout. by apply (fixed_route_miss name).
Qed.

(** "claim_htlc" is routed to withdraw. *)
Lemma fixed_contract_routes_witness :
  HTLCBridgeFixed.htlc_bridge_contract NoOp
    (mk_call "ALICE" ["claim_htlc"; "h1"; "abc"] 10) fixed_s1 =
  HTLCBridgeFixed.withdraw_htlc
    (mk_call "ALICE" ["claim_htlc"; "h1"; "abc"] 10) fixed_s1.
Proof.
  destruct (fixed_contract_routes
              (mk_call "ALICE" ["claim_htlc"; "h1"; "abc"] 10) fixed_s1
              "claim_htlc")
    as [H _]; [discriminate | reflexivity |].
  apply (H HTLCBridgeFixed.OpWithdraw). unfold fixed_routes. nth_elem 4.
Defined.

(** ** The fixed file against the original *)

Section Shift.
Implicit Types (c : call) (s : state).

Lemma length_test_shift (x : string) (l : list string) n m :
  m = n + 1 ->
  v_eq (VInt (Z.of_nat (length (x :: l)))) (VInt m) =
  v_eq (VInt (Z.of_nat (length l))) (VInt n).
Proof.
  intros ->. rewrite !v_eq_int. simpl length. rewrite Nat2Z.inj_succ.
  destruct (Z.of_nat (length l) =? n) eqn:E.
  - apply Z.eqb_eq in E. by rewrite (proj2 (Z.eqb_eq _ _)) by lia.
  - apply Z.eqb_neq in E. by rewrite (proj2 (Z.eqb_neq _ _)) by lia.
Qed.

Lemma shift_withdraw name c s :
  HTLCBridgeFixed.withdraw_htlc (shifted name c) s =
  HTLCBridge.withdraw_htlc c s.
Proof.
  destruct c as [id snd args now app].
  unfold shifted, with_args, HTLCBridgeFixed.withdraw_htlc,
    HTLCBridge.withdraw_htlc.
  teal_unfold. cbn [Txn_application_args Txn_sender Global_latest_timestamp].
  rewrite (length_test_shift name args 2 3) by done.
  reflexivity.
Qed.

Lemma shift_refund name c s :
  HTLCBridgeFixed.refund_htlc (shifted name c) s = HTLCBridge.refund_htlc c s.
Proof.
  destruct c as [id snd args now app].
  unfold shifted, with_args, HTLCBridgeFixed.refund_htlc,
    HTLCBridge.refund_htlc.
  teal_unfold. cbn [Txn_application_args Txn_sender Global_latest_timestamp].
  rewrite (length_test_shift name args 1 2) by done.
  reflexivity.
Qed.

Lemma shift_status name c s :
  HTLCBridgeFixed.get_htlc_status (shifted name c) s =
  HTLCBridge.get_htlc_status c s.
Proof.
  destruct c as [id snd args now app].
  unfold shifted, with_args, HTLCBridgeFixed.get_htlc_status,
    HTLCBridge.get_htlc_status.
  teal_unfold. cbn [Txn_application_args Txn_sender Global_latest_timestamp].
  rewrite (length_test_shift name args 1 2) by done.
  reflexivity.
Qed.

Lemma shift_update name c s :
  HTLCBridgeFixed.update_contract (shifted name c) s =
  HTLCBridge.update_contract c s.
Proof.
  destruct c as [id snd args now app].
  unfold shifted, with_args, HTLCBridgeFixed.update_contract,
    HTLCBridge.update_contract.
  teal_unfold. cbn [Txn_application_args Txn_sender Global_latest_timestamp].
  rewrite (length_test_shift name args 2 3) by done.
  reflexivity.
Qed.

Lemma shift_create name c s :
  length (Txn_application_args c) ≠ 6%nat ->
  HTLCBridgeFixed.create_htlc (shifted name c) s = HTLCBridge.create_htlc c s.
Proof.
  destruct c as [id snd args now app]. cbn [Txn_application_args].
  intros Hlen.
  unfold shifted, with_args, HTLCBridgeFixed.create_htlc,
    HTLCBridgeFixed.load_create_args, HTLCBridge.create_htlc.
  teal_unfold.
  cbn [Txn_application_args Txn_sender Global_latest_timestamp
       Global_current_application_address].
  rewrite (length_test_shift name args 7 8) by done.
  destruct (decide (length args = 7%nat)) as [H7 | H7].
  - do 7 (destruct args as [|? args]; [discriminate H7|]).
    destruct args; [|discriminate H7].
    rewrite !v_eq_int. unfold v_btoi. cbn.
    repeat match goal with
    | |- context [(String.length ?b <=? 8)%nat] =>
        destruct (String.length b <=? 8)%nat; cbn
    end; reflexivity.
  - rewrite (v_eq_int (Z.of_nat (length args)) 7).
    rewrite (v_eq_int (Z.of_nat (length (name :: args))) 7).
    rewrite (proj2 (Z.eqb_neq (Z.of_nat (length args)) 7)) by lia.
    rewrite (proj2 (Z.eqb_neq (Z.of_nat (length (name :: args))) 7))
      by (simpl length; lia).
    cbn. reflexivity.
Qed.
End Shift.

(** X12.  The fixed file shifts the arguments by one.  Put the operation
    name in front of the arguments of a call of AlgorandHTLCBridge.py and
    the handler of AlgorandHTLCBridgeFixed.py gives the very same result
    (the same approval, the same failure, the same state and payments):
    for withdraw, refund, status and update on every call and state, and
    for create on every call that does not carry exactly six arguments
    (with six, the original refuses the argument count while the fixed
    file reads them as a create without Ethereum address). *)
Theorem fixed_handlers_shift_arguments name c s :
  HTLCBridgeFixed.withdraw_htlc (shifted name c) s = HTLCBridge.withdraw_htlc c s /\
  HTLCBridgeFixed.refund_htlc (shifted name c) s = HTLCBridge.refund_htlc c s /\
  HTLCBridgeFixed.get_htlc_status (shifted name c) s =
    HTLCBridge.get_htlc_status c s /\
  HTLCBridgeFixed.update_contract (shifted name c) s =
    HTLCBridge.update_contract c s /\
  (length (Txn_application_args c) ≠ 6%nat ->
   HTLCBridgeFixed.create_htlc (shifted name c) s = HTLCBridge.create_htlc c s).
Proof.
  split; [apply shift_withdraw|]. split; [apply shift_refund|].
  split; [apply shift_status|]. split; [apply shift_update|].
  apply shift_create.
Qed.

(** The create of the running example, sent to both files. *)
Lemma fixed_handlers_shift_arguments_witness :
  HTLCBridgeFixed.create_htlc
    (shifted "create_htlc" (bridge_create 1000 7200 0 (Sha256 "abc")))
    bridge_fresh =
  HTLCBridge.create_htlc (bridge_create 1000 7200 0 (Sha256 "abc")) bridge_fresh.
Proof.
  destruct (fixed_handlers_shift_arguments "create_htlc"
              (bridge_create 1000 7200 0 (Sha256 "abc")) bridge_fresh)
    as (_ & _ & _ & _ & H).
  apply H. vm_compute. discriminate.
Defined.

Section FixedCreateCounts.
Import HTLCBridgeFixed.
Implicit Types (c : call) (s : state).

Lemma fixed_create_seven c s :
  length (Txn_application_args c) = 7%nat ->
  create_htlc c s =
    create_htlc (with_args c (Txn_application_args c ++ [""])%list) s.
Proof.
  destruct c as [id snd args now app]. cbn [Txn_application_args].
  intros Hlen. do 7 (destruct args as [|? args]; [discriminate Hlen|]).
  destruct args; [|discriminate Hlen].
  unfold with_args, create_htlc, load_create_args. teal_unfold.
  cbn [Txn_application_args Txn_sender Global_latest_timestamp
       Global_current_application_address].
  rewrite !v_eq_int. unfold v_btoi. cbn.
  repeat match goal with
  | |- context [(String.length ?b <=? 8)%nat] =>
      destruct (String.length b <=? 8)%nat; cbn
  end; reflexivity.
Qed.

Lemma fixed_create_bad_count c s :
  (exists cr, gget s creator_key = VBytes cr) ->
  length (Txn_application_args c) ≠ 7%nat ->
  length (Txn_application_args c) ≠ 8%nat ->
  create_htlc c s = Abort InvalidArgumentCount s.
Proof.
  intros [cr Hcr] H7 H8.
  unfold create_htlc, load_create_args. teal_unfold.
  rewrite Hcr.
  rewrite (v_eq_int (Z.of_nat (length (Txn_application_args c))) 8).
  rewrite (v_eq_int (Z.of_nat (length (Txn_application_args c))) 7).
  rewrite (proj2 (Z.eqb_neq (Z.of_nat (length (Txn_application_args c))) 8))
    by lia.
  rewrite (proj2 (Z.eqb_neq (Z.of_nat (length (Txn_application_args c))) 7))
    by lia.
  destruct (decide (Txn_sender c = cr)) as [<- | Hne]; teal_run; done.
Qed.
End FixedCreateCounts.

(** X13.  Seven or eight arguments.  [create_htlc] of the fixed file
    takes the operation name and the HTLC parameters in eight arguments;
    with seven it behaves exactly as the same call with an empty
    Ethereum address appended as eighth argument; with any other count it
    fails [InvalidArgumentCount] and leaves the state unchanged (on an
    application whose [Creator] is set). *)
Theorem fixed_create_argument_counts c s :
  (length (Txn_application_args c) = 7%nat ->
   HTLCBridgeFixed.create_htlc c s =
     HTLCBridgeFixed.create_htlc
       (with_args c (Txn_application_args c ++ [""])%list) s) /\
  ((exists cr, gget s creator_key = VBytes cr) ->
   length (Txn_application_args c) ≠ 7%nat ->
   length (Txn_application_args c) ≠ 8%nat ->
   HTLCBridgeFixed.create_htlc c s = Abort InvalidArgumentCount s).
Proof.
  split; [apply fixed_create_seven | apply fixed_create_bad_count].
Qed.

(** A create with six arguments is refused. *)
Lemma fixed_create_argument_counts_witness :
  HTLCBridgeFixed.create_htlc
    (mk_call "ALICE" ["create"; "h1"; "ALICE"; "BOB"; Itob 1000; Sha256 "abc"] 0)
    fixed_fresh = Abort InvalidArgumentCount fixed_fresh.
Proof.
  destruct (fixed_create_argument_counts
    (mk_call "ALICE" ["create"; "h1"; "ALICE"; "BOB"; Itob 1000; Sha256 "abc"] 0)
    fixed_fresh) as [_ H].
  apply H; [exists "CREATOR"; vm_compute; reflexivity | discriminate..].
Defined.

(** ** The one-way contracts *)

Section MinimalFacts.
Import Minimal.
Implicit Types (c : call) (s : state) (oc : OnComplete).

(** An approved call of the minimal program changed nothing, or it was
    a claim. *)
Lemma minimal_program_ok oc c s s' :
  program oc c s = Ok tt s' -> s' = s \/ claim_htlc c s = Ok tt s'.
Proof.
  unfold program. rewrite Cond_guards.
  destruct (Txn_application_id c =? 0).
  { intros H. apply Return_ok_inv in H. by left. }
  destruct oc; try (intros H; simplify_eq; by left).
  all: rewrite Cond_cons; unfold IfElse;
    destruct (Eq _ _ c s) as [[n|]|]; try done;
    destruct (n =? 0); [done | by right].
Qed.

Lemma minimal_step_idle oc c s :
  (forall a, ~ has_record s a) -> commit (program oc) c s = s.
Proof.
  intros Hno. unfold commit.
  destruct (program oc c s) as [[] s' | e s'] eqn:E; [|done].
  apply minimal_program_ok in E as [-> | E]; [done|].
  apply minimal_claim_shape in E as [Hrec _]. by apply Hno in Hrec.
Qed.

Lemma minimal_run_idle txs s :
  (forall a, ~ has_record s a) -> run_program program txs s = s.
Proof.
  intros Hno. induction txs as [|[oc c] txs IH]; [done|].
  simpl. by rewrite minimal_step_idle.
Qed.
End MinimalFacts.

(** X14.  The minimal contract is idle.  Its only handler, [claim_htlc],
    compares the stored [HtlcId] of the sender with the id argument, and
    no handler of the program ever writes an [HtlcId].  So from a state
    in which no account holds a record (the state of a new application),
    every sequence of transactions run through the program, with any
    completion action, sender and arguments, leaves the state as the
    program found it: it sets no flag and submits no payment, and every
    claim fails. *)
Theorem minimal_contract_is_idle txs s :
  (forall a, ~ has_record s a) ->
  run_program Minimal.program txs s = s /\
  forall c s', Minimal.claim_htlc c (run_program Minimal.program txs s) ≠ Ok tt s'.
Proof.
  intros Hno. rewrite minimal_run_idle by done. split; [done|].
  intros c s' H. apply minimal_claim_shape in H as [Hrec _].
  by apply Hno in Hrec.
Qed.

(** A claim sent to a new minimal application changes nothing. *)
Lemma minimal_contract_is_idle_witness :
  run_program Minimal.program
    [(NoOp, mk_call "ALICE" ["claim_htlc"; "s1"; "abc"] 10)] empty_state =
  empty_state.
Proof.
  apply (minimal_contract_is_idle
           [(NoOp, mk_call "ALICE" ["claim_htlc"; "s1"; "abc"] 10)] empty_state).
  intros a [id Hid]. vm_compute in Hid. discriminate.
Defined.

Section AlgoToEthLocked.
Import AlgoToEth.
Implicit Types (c : call) (s : state) (a : string)
  (oc : op * call) (tr : list (op * call)).

(** One call submits nothing, or one payment to the application
    address; a flag that is 0 stays 0. *)
Lemma a2e_step_locked s oc :
  (inner_txns (step s oc) = inner_txns s \/
   exists amt, inner_txns (step s oc) =
     (inner_txns s ++
        [Payment amt (VBytes (Global_current_application_address oc.2))])%list) /\
  (forall a k, k ∈ [withdrawn_key; refunded_key] ->
     lget s a k = VInt 0 -> lget (step s oc) a k = VInt 0).
Proof.
  destruct (a2e_step_ok s oc) as [-> | H]; [by split; [left|]|].
  destruct oc as [o c]; simpl in *. destruct o; simpl in H.
  - apply a2e_create_inv in H as (id & rcp & amt & h & tl & H).
    destruct H as (_&_&_&_&_&_&_&_& ->). unfold a2e_created. split.
    + right. exists (VInt amt). by autorewrite with teal.
    + intros a k Hk H0.
      repeat (apply elem_of_cons in Hk as [-> | Hk]);
        try (by apply elem_of_nil in Hk);
        (destruct (decide (a = Txn_sender c)) as [-> | Hne];
         [by autorewrite with teal
         | rewrite lget_submit, !lget_lput_acct by congruence; done]).
  - apply a2e_reveal_inv in H as (id & sec & _ & _ & _ & _ & _ & _ & ->).
    split; [by left|]. intros a k Hk H0.
    rewrite lget_lput_ne; [done|].
    repeat (apply elem_of_cons in Hk as [-> | Hk]);
      try (by apply elem_of_nil in Hk); intros [= _ E]; discriminate E.
Qed.
End AlgoToEthLocked.

(** X15.  The ALGO-to-ETH contract never releases.  It has create and
    reveal only.  Over every sequence of calls of the two, all with
    application address [app]: every payment it submits is an escrow
    payment addressed to [app] itself, and a [Withdrawn] or [Refunded]
    flag that is 0 (or unset) stays 0.  What create locks is never paid
    out by this program. *)
Theorem algo_to_eth_never_releases app tr s :
  Forall (fun oc => Global_current_application_address oc.2 = app) tr ->
  (exists new,
     inner_txns (AlgoToEth.run tr s) = (inner_txns s ++ new)%list /\
     Forall (fun p => pay_receiver p = VBytes app) new) /\
  (forall a k, k ∈ [withdrawn_key; refunded_key] ->
     lget s a k = VInt 0 -> lget (AlgoToEth.run tr s) a k = VInt 0).
Proof.
  revert s. induction tr as [|oc tr IH]; intros s Happ.
  { split; [exists []; by rewrite app_nil_r | done]. }
  apply Forall_cons in Happ as [Hoc Htr]. rewrite a2e_run_cons.
  destruct (IH (AlgoToEth.step s oc) Htr) as [(new & Hnew & Hall) Hflags].
  destruct (a2e_step_locked s oc) as [Hpay Hkeep]. split.
  - destruct Hpay as [Hsame | [amt Hone]].
    + exists new. by rewrite Hnew, Hsame.
    + exists (Payment amt (VBytes app) :: new). rewrite Hnew, Hone, Hoc.
      split; [by rewrite <- app_assoc | by apply Forall_cons].
  - intros a k Hk H0. apply Hflags; [done|]. by apply Hkeep.
Qed.

(** ALICE locks 1000 and the secret is revealed: the only payment went
    to the application itself, and the record is still not withdrawn. *)
Lemma algo_to_eth_never_releases_witness :
  inner_txns a2e_s1_revealed = [Payment (VInt 1000) (VBytes "APP")] /\
  lget a2e_s1_revealed "ALICE" withdrawn_key = VInt 0.
Proof.
  destruct (algo_to_eth_never_releases "APP"
    [(AlgoToEth.OpCreate, a2e_create "s1" 1000 (Sha256 "abc") 7200 0);
     (AlgoToEth.OpReveal, a2e_reveal "s1" "abc")] empty_state)
    as [_ Hflags].
  - repeat (apply Forall_cons; split; [reflexivity|]). apply Forall_nil. done.
  - split; [vm_compute; reflexivity|].
    apply Hflags; [apply list_elem_of_here | reflexivity].
Defined.

(** ** More on the partial-fill engine *)

Lemma Cond_ok_inv branches c s s' :
  Cond branches c s = Ok tt s' ->
  exists cond body n,
    (cond, body) ∈ branches /\ cond c s = Some (VInt n) /\ n ≠ 0 /\
    body c s = Ok tt s'.
Proof.
  induction branches as [|[cond body] rest IH]; [done|].
  rewrite Cond_cons. unfold IfElse.
  destruct (cond c s) as [[n|]|] eqn:E; try done.
  destruct (n =? 0) eqn:En.
  - intros H. destruct (IH H) as (cond' & body' & n' & Hin & H').
    exists cond', body', n'. split; [by apply list_elem_of_further | done].
  - intros H. apply Z.eqb_neq in En.
    exists cond, body, n. split; [apply list_elem_of_here | done].
Qed.

Lemma btoi_acc_nonneg b acc : 0 <= acc -> 0 <= btoi_acc acc b.
Proof.
  revert acc. induction b as [|a b IH]; intros acc Hacc; [done|].
  unfold btoi_acc; fold btoi_acc. apply IH.
  pose proof (N2Z.is_nonneg (N_of_ascii a)). lia.
Qed.

Lemma arg_uint_nonneg c i n : arg_uint c i = Some n -> 0 <= n.
Proof.
  unfold arg_uint. destruct (Txn_application_args c !! i) as [b|]; [|done].
  destruct (String.length b <=? 8)%nat; [|done].
  intros H. injection H as <-. by apply btoi_acc_nonneg.
Qed.

Section PartialFillProgram.
Import PartialFill.
Implicit Types (c : call) (s : state).

Lemma pf_program_existing c s :
  Txn_application_id c ≠ 0 ->
  program c s =
  Cond [
    (Eq (Txn_arg 0) (Bytes "create_htlc"), handle_htlc_creation);
    (Eq (Txn_arg 0) (Bytes "partial_fill"), handle_partial_fill);
    (Eq (Txn_arg 0) (Bytes "withdraw"), handle_withdrawal);
    (Eq (Txn_arg 0) (Bytes "public_claim"), handle_public_claim);
    (Eq (Txn_arg 0) (Bytes "deposit"), handle_deposit);
    (Int 1, Return (Int 0))
  ] c s.
Proof.
  intros Hid. apply Z.eqb_neq in Hid. unfold program.
  rewrite Cond_cons. unfold IfElse at 1. by rewrite app_id_test, Hid.
Qed.

Lemma pf_program_ok c s s' :
  Txn_application_id c ≠ 0 -> program c s = Ok tt s' ->
  exists o, handler o c s = Ok tt s'.
Proof.
  intros Hid H. rewrite pf_program_existing in H by done.
  apply Cond_ok_inv in H as (cond & body & n & Hin & _ & _ & H).
  repeat (apply elem_of_cons in Hin as [Hin | Hin];
          [injection Hin as -> -> |]).
  - by exists OpCreateHtlc.
  - by exists OpPartialFill.
  - by exists OpWithdraw.
  - by exists OpPublicClaim.
  - by exists OpDeposit.
  - done.
  - by apply elem_of_nil in Hin.
Qed.

Lemma pf_route_hit name o c s :
  (name, o) ∈ pf_routes ->
  Txn_application_id c ≠ 0 -> arg_bytes c 0 = Some name ->
  program c s = handler o c s.
Proof.
  intros Hin Hid Harg. rewrite pf_program_existing by done.
  unfold pf_routes in Hin.
  repeat (apply elem_of_cons in Hin as [Hin | Hin]; [injection Hin as -> ->|]);
    try (by apply elem_of_nil in Hin);
    repeat (rewrite (Cond_miss _ _ _ _ _ _ Harg) by discriminate);
    by rewrite (Cond_hit _ _ _ _ _ Harg).
Qed.

Lemma pf_route_miss name c s :
  (forall o, (name, o) ∉ pf_routes) ->
  Txn_application_id c ≠ 0 -> arg_bytes c 0 = Some name ->
  program c s = Abort Rejected s.
Proof.
  intros Hout Hid Harg. rewrite pf_program_existing by done.
  assert (forall n o, (n, o) ∈ pf_routes -> name ≠ n) as Hne.
  { intros n o Hin ->. by apply (Hout o). }
  unfold pf_routes in Hne.
  rewrite (Cond_miss _ _ _ _ _ _ Harg) by (eapply Hne; nth_elem 0).
  rewrite (Cond_miss _ _ _ _ _ _ Harg) by (eapply Hne; nth_elem 1).
  rewrite (Cond_miss _ _ _ _ _ _ Harg) by (eapply Hne; nth_elem 2).
  rewrite (Cond_miss _ _ _ _ _ _ Harg) by (eapply Hne; nth_elem 3).
  rewrite (Cond_miss _ _ _ _ _ _ Harg) by (eapply Hne; nth_elem 4).
  reflexivity.
Qed.

(** One approved call of an existing application: neither counter
    goes down. *)
Lemma pf_counters_step c s d t :
  Txn_application_id c ≠ 0 ->
  gget s total_deposited = VInt d -> gget s total_filled = VInt t ->
  exists d' t',
    gget (commit program c s) total_deposited = VInt d' /\
    gget (commit program c s) total_filled = VInt t' /\
    d <= d' /\ t <= t'.
Proof.
  intros Hid Hd Ht. unfold commit.
  destruct (program c s) as [[] s' | e s'] eqn:E.
  2:{ exists d, t. repeat split; try done; lia. }
  apply pf_program_ok in E as [o H]; [|done].
  destruct o; simpl in H.
  - apply pf_htlc_creation_inv in H as (h & T & r & m & p & ->).
    exists d, t. autorewrite with teal. repeat split; try done; lia.
  - apply pf_partial_fill_inv in H
      as (f & sec & t0 & r & _ & _ & _ & _ & _ & _ & Ht0 & Hf & _ & ->).
    assert (t0 = t) as -> by congruence.
    exists d, (t + f). unfold filled.
    destruct (r - f =? 0); autorewrite with teal;
      repeat split; try done; lia.
  - apply pf_withdrawal_inv in H as (_ & _ & _ & ->).
    exists d, t. autorewrite with teal. repeat split; try done; lia.
  - apply pf_public_claim_inv in H as (sec & _ & _ & _ & _ & ->).
    exists d, t. autorewrite with teal. repeat split; try done; lia.
  - apply pf_deposit_inv in H as (a & d0 & Ha & Hd0 & _ & ->).
    assert (d0 = d) as -> by congruence.
    apply arg_uint_nonneg in Ha.
    exists (d + a), t. unfold deposited. autorewrite with teal.
    repeat split; try done; lia.
Qed.
End PartialFillProgram.

(** X16.  Routing of the partial-fill program.  The creating transaction
    runs [handle_creation] whatever its arguments.  For a call of the
    existing application, argument 0 selects the handler among
    "create_htlc", "partial_fill", "withdraw", "public_claim" and
    "deposit", and the call behaves exactly as that handler; any other
    name is rejected by the default branch and a call without arguments
    stops with an AVM error, both with the state unchanged. *)
Theorem partial_fill_program_routes c s :
  (Txn_application_id c = 0 ->
     PartialFill.program c s = PartialFill.handle_creation c s) /\
  (Txn_application_id c ≠ 0 ->
     (arg_bytes c 0 = None -> PartialFill.program c s = Abort RuntimePanic s) /\
     (forall name, arg_bytes c 0 = Some name ->
        (forall o, (name, o) ∈ pf_routes ->
           PartialFill.program c s = PartialFill.handler o c s) /\
        ((forall o, (name, o) ∉ pf_routes) ->
           PartialFill.program c s = Abort Rejected s))).
Proof.
  split; [|split].
  - intros Hid. unfold PartialFill.program. rewrite Cond_cons.
    unfold IfElse. by rewrite app_id_test, Hid.
  - intros Hno. rewrite pf_program_existing by done.
    by apply Cond_no_name.
  - intros name Harg. split.
    + intros o Hin. by apply (pf_route_hit name).
    + intros Hout. by apply (pf_route_miss name).
Qed.

(** A call naming no operation is rejected. *)
Lemma partial_fill_program_routes_witness :
  PartialFill.program (mk_call "MAKER" ["refund"] 0) pf_s100 =
    Abort Rejected pf_s100.
Proof.
  destruct (partial_fill_program_routes (mk_call "MAKER" ["refund"] 0) pf_s100)
    as [_ H].
  destruct H as [_ H]; [discriminate|].
  destruct (H "refund" eq_refl) as [_ Hmiss].
  apply Hmiss. intros o Hin. unfold pf_routes in Hin.
  repeat (apply elem_of_cons in Hin as [Hin | Hin]; [discriminate Hin|]).
  by apply elem_of_nil in Hin.
Defined.

(** X17.  The counters never go down.  Over every sequence of calls of
    the existing partial-fill application, [total_deposited] and
    [total_filled] stay integers and never decrease, whoever calls and
    whether the calls are approved or not. *)
Theorem pf_counters_never_decrease cs s d t :
  existing_app cs ->
  gget s PartialFill.total_deposited = VInt d ->
  gget s PartialFill.total_filled = VInt t ->
  exists d' t',
    gget (pf_exec cs s) PartialFill.total_deposited = VInt d' /\
    gget (pf_exec cs s) PartialFill.total_filled = VInt t' /\
    d <= d' /\ t <= t'.
Proof.
  intros Hcs. revert s d t.
  induction Hcs as [|c cs Hid _ IH]; intros s d t Hd Ht.
  { exists d, t. repeat split; try done; lia. }
  destruct (pf_counters_step c s d t Hid Hd Ht) as (d1 & t1 & Hd1 & Ht1 & ? & ?).
  destruct (IH _ d1 t1 Hd1 Ht1) as (d' & t' & Hd' & Ht' & ? & ?).
  exists d', t'. repeat split; try done; lia.
Qed.

(** After 100 deposited and 30 filled, a further deposit of 10 and a
    rejected call leave at least 100 deposited and 30 filled. *)
Lemma pf_counters_never_decrease_witness :
  exists d' t',
    gget (pf_exec [pf_deposit 10; pf_withdraw] pf_s100_filled30)
      PartialFill.total_deposited = VInt d' /\
    gget (pf_exec [pf_deposit 10; pf_withdraw] pf_s100_filled30)
      PartialFill.total_filled = VInt t' /\
    100 <= d' /\ 30 <= t'.
Proof.
  apply (pf_counters_never_decrease [pf_deposit 10; pf_withdraw]
           pf_s100_filled30 100 30).
  - repeat (apply Forall_cons; split; [discriminate|]). apply Forall_nil. done.
  - vm_compute. reflexivity.
  - vm_compute. reflexivity.
Defined.

Section Takeover.
Import PartialFill.
Implicit Types (c : call) (s : state).

Lemma pf_htlc_creation_ok c s h tl rcp mk fl :
  arg_bytes c 1 = Some h -> arg_uint c 2 = Some tl ->
  arg_bytes c 3 = Some rcp -> arg_bytes c 4 = Some mk ->
  arg_uint c 5 = Some fl ->
  handle_htlc_creation c s = Ok tt (pf_htlc_set h tl rcp mk fl s).
Proof.
  intros H1 H2 H3 H4 H5. unfold handle_htlc_creation.
  rewrite (Store_arg _ _ _ _ _ H1), (Store_Btoi_arg _ _ _ _ _ H2),
    (Store_arg _ _ _ _ _ H3), (Store_arg _ _ _ _ _ H4),
    (Store_Btoi_arg _ _ _ _ _ H5).
  reflexivity.
Qed.

Lemma pf_htlc_set_facts h tl rcp mk fl s :
  gget (pf_htlc_set h tl rcp mk fl s) hashlock = VBytes h /\
  gget (pf_htlc_set h tl rcp mk fl s) maker = VBytes mk /\
  gget (pf_htlc_set h tl rcp mk fl s) executed = gget s executed /\
  gget (pf_htlc_set h tl rcp mk fl s) refunded = gget s refunded /\
  gget (pf_htlc_set h tl rcp mk fl s) total_deposited = gget s total_deposited /\
  gget (pf_htlc_set h tl rcp mk fl s) total_filled = gget s total_filled /\
  gget (pf_htlc_set h tl rcp mk fl s) remaining_amount =
    gget s remaining_amount.
Proof. unfold pf_htlc_set. autorewrite with teal. done. Qed.
End Takeover.



(** ** Encodings *)

Section BigEndian.
Implicit Types (bs : list Z) (b : string).

Lemma string_of_bytes_length bs : String.length (string_of_bytes bs) = length bs.
Proof.
  unfold string_of_bytes. induction bs as [|x bs IH]; [done|].
  simpl. by rewrite IH.
Qed.

Lemma be_bytes_length n x : length (SHA256.be_bytes n x) = n.
Proof.
  revert x. induction n as [|n IH]; intros x; [done|].
  simpl. rewrite length_app, IH. simpl. lia.
Qed.

Lemma be_bytes_range n x :
  Forall (fun y => 0 <= y < 256) (SHA256.be_bytes n x).
Proof.
  revert x. induction n as [|n IH]; intros x; [by apply Forall_nil|].
  simpl. apply Forall_app. split; [apply IH|].
  apply Forall_cons. split; [|by apply Forall_nil].
  apply Z.mod_pos_bound. lia.
Qed.

Lemma btoi_acc_bytes bs acc :
  Forall (fun y => 0 <= y < 256) bs ->
  btoi_acc acc (string_of_bytes bs) =
    fold_left (fun a y => a * 256 + y) bs acc.
Proof.
  unfold string_of_bytes. intros H. revert acc.
  induction H as [|x bs Hx _ IH]; intros acc; [done|].
  simpl. unfold btoi_acc; fold btoi_acc. rewrite IH.
  rewrite N_ascii_embedding by lia. by rewrite Z2N.id by lia.
Qed.

Lemma be_bytes_value n x acc :
  0 <= x ->
  fold_left (fun a y => a * 256 + y) (SHA256.be_bytes n x) acc =
    acc * 256 ^ Z.of_nat n + x mod 256 ^ Z.of_nat n.
Proof.
  revert x acc. induction n as [|n IH]; intros x acc Hx.
  { simpl. rewrite Z.mod_1_r. lia. }
  simpl SHA256.be_bytes. rewrite fold_left_app, IH by (apply Z.div_pos; lia).
  simpl fold_left. rewrite Nat2Z.inj_succ, Z.pow_succ_r by lia.
  rewrite (Z.rem_mul_r x 256 (256 ^ Z.of_nat n)) by lia. lia.
Qed.

Lemma btoi_Itob n :
  0 <= n <= MAX_UINT64 -> v_btoi (VBytes (Itob n)) = Some (VInt n).
Proof.
  intros Hn. unfold v_btoi, Itob.
  rewrite string_of_bytes_length, be_bytes_length.
  change (8 <=? 8)%nat with true. cbv iota.
  rewrite btoi_acc_bytes by apply be_bytes_range.
  rewrite be_bytes_value by lia.
  change (256 ^ Z.of_nat 8) with 18446744073709551616.
  rewrite Z.mod_small; [done|]. unfold MAX_UINT64 in Hn. lia.
Qed.

Lemma arg_uint_Itob c i n :
  0 <= n <= MAX_UINT64 -> arg_bytes c i = Some (Itob n) ->
  arg_uint c i = Some n.
Proof.
  intros Hn Ha. pose proof (btoi_Itob n Hn) as Hb.
  unfold arg_bytes in Ha. unfold arg_uint. rewrite Ha.
  unfold v_btoi in Hb.
  destruct (String.length (Itob n) <=? 8)%nat; [|done]. by injection Hb as ->.
Qed.
End BigEndian.

Section Sha256Length.
Import SHA256.

Lemma round_length st kw : length (round st kw) = length st.
Proof.
  unfold round.
  do 9 (destruct st as [|? st]; try reflexivity).
Qed.

Lemma rounds_length kws st : length (fold_left round kws st) = length st.
Proof.
  revert st. induction kws as [|kw kws IH]; intros st; [done|].
  simpl. by rewrite IH, round_length.
Qed.

Lemma compress_length h block : length (compress h block) = length h.
Proof.
  unfold compress. rewrite length_map, length_combine, rounds_length. lia.
Qed.

Lemma blocks_length n h bs : length (blocks n h bs) = length h.
Proof.
  revert h bs. induction n as [|n IH]; intros h bs; [done|].
  simpl. by rewrite IH, compress_length.
Qed.

Lemma flat_map_be_bytes_length k (l : list Z) :
  length (flat_map (be_bytes k) l) = (k * length l)%nat.
Proof.
  induction l as [|x l IH]; simpl; [lia|].
  rewrite length_app, be_bytes_length, IH. lia.
Qed.

Lemma digest_length msg : length (digest msg) = 32%nat.
Proof.
  unfold digest. by rewrite flat_map_be_bytes_length, blocks_length.
Qed.
End Sha256Length.

Lemma Sha256_length b : String.length (Sha256 b) = 32%nat.
Proof. unfold Sha256. by rewrite string_of_bytes_length, digest_length. Qed.

Section HashChecks.
Implicit Types (c : call) (s : state).

(** Every secret-gated handler succeeds only against the hash of the
    secret it was given. *)
Lemma claim_needs_hash claim c s s' :
  claim ∈ [HTLCBridge.withdraw_htlc; HTLCBridgeFixed.withdraw_htlc;
           EthToAlgo.claim_htlc; Minimal.claim_htlc;
           AlgoToEth.reveal_secret] ->
  claim c s = Ok tt s' ->
  exists sec, lget s (Txn_sender c) hashlock_key = VBytes (Sha256 sec).
Proof.
  intros Hin H.
  repeat (apply elem_of_cons in Hin as [-> | Hin]);
    try (by apply elem_of_nil in Hin).
  - apply bridge_withdraw_inv in H
      as (id & sec & tl & _ & _ & _ & _ & _ & _ & _ & _ & Hh & _). eauto.
  - unfold HTLCBridgeFixed.withdraw_htlc in H. teal_inv H. teal_facts. eauto.
  - apply e2a_claim_inv in H
      as (id & sec & tl & _ & _ & _ & _ & _ & _ & _ & _ & Hh & _). eauto.
  - unfold Minimal.claim_htlc in H. teal_inv H. teal_facts. eauto.
  - apply a2e_reveal_inv in H as (id & sec & _ & _ & _ & _ & _ & Hh & _). eauto.
Qed.
End HashChecks.

(** X19.  A hashlock that is not 32 bytes long can never be opened.
    [Sha256] always yields 32 bytes, and no create checks the length of
    the hashlock it stores.  So on a record whose hashlock has another
    length, claim/withdraw and reveal of the record-keeping contracts and
    partial_fill and public_claim of the partial-fill engine fail for
    every call, whatever the secret; such a record can only be
    refunded. *)
Theorem malformed_hashlock_is_unclaimable h :
  String.length h ≠ 32%nat ->
  (forall claim c s s',
     claim ∈ [HTLCBridge.withdraw_htlc; HTLCBridgeFixed.withdraw_htlc;
              EthToAlgo.claim_htlc; Minimal.claim_htlc;
              AlgoToEth.reveal_secret] ->
     lget s (Txn_sender c) hashlock_key = VBytes h -> claim c s ≠ Ok tt s') /\
  (forall c s s',
     gget s PartialFill.hashlock = VBytes h ->
     PartialFill.handle_partial_fill c s ≠ Ok tt s' /\
     PartialFill.handle_public_claim c s ≠ Ok tt s').
Proof.
  intros Hlen. split.
  - intros claim c s s' Hin Hh H.
    apply (claim_needs_hash claim c s s' Hin) in H as [sec Hsec].
    apply Hlen. assert (h = Sha256 sec) as -> by congruence.
    apply Sha256_length.
  - intros c s s' Hh. split; intros H.
    + apply pf_partial_fill_inv in H
        as (f & sec & t & r & _ & _ & _ & _ & Hsec & _).
      apply Hlen. assert (h = Sha256 sec) as -> by congruence.
      apply Sha256_length.
    + apply pf_public_claim_inv in H as (sec & _ & _ & _ & Hsec & _).
      apply Hlen. assert (h = Sha256 sec) as -> by congruence.
      apply Sha256_length.
Qed.

(** ALICE's create is accepted with the three-byte hashlock "abc"; no
    claim on that record can succeed. *)
Lemma malformed_hashlock_is_unclaimable_witness :
  outcome (EthToAlgo.create_htlc (e2a_create "s1" 1000 "abc" 7200 0) empty_state)
    = None /\
  forall secret s',
    EthToAlgo.claim_htlc (e2a_claim "s1" secret 10) e2a_s1_malformed ≠ Ok tt s'.
Proof.
  split; [vm_compute; reflexivity|].
  destruct (malformed_hashlock_is_unclaimable "abc") as [H _];
    [discriminate|].
  intros secret s'. apply H; [nth_elem 2 | vm_compute; reflexivity].
Defined.

Section ClientCalls.
Import PartialFillClient.
Implicit Types (c : call) (s : state).

Lemma to_bytes_Some n :
  0 <= n <= MAX_UINT64 -> to_bytes n = Some (Itob n).
Proof.
  intros [H0 H1]. unfold to_bytes.
  by rewrite (proj2 (Z.leb_le _ _) H0), (proj2 (Z.leb_le _ _) H1).
Qed.

Lemma to_bytes_None n : n < 0 \/ MAX_UINT64 < n -> to_bytes n = None.
Proof.
  intros [H | H]; unfold to_bytes.
  - by rewrite (proj2 (Z.leb_gt _ _) H).
  - rewrite (proj2 (Z.leb_gt _ _) H). by destruct (0 <=? n).
Qed.
End ClientCalls.



(** ** Waiting for a confirmation *)

Section WaitForConfirmation.
Import PartialFillClient.
Implicit Types (client : algod_client) (txid : string).

(** One iteration with time left: a verdict ends the loop, no verdict
    waits for the next block and goes round again. *)
Lemma wait_loop_step fuel client txid timeout start cur polls :
  cur < start + timeout ->
  wait_loop (S fuel) client txid timeout start cur polls =
  match verdict (pending_transaction_info client txid polls) with
  | Some v => Some v
  | None =>
      match status_after_block client cur with
      | Raises e => Some (Raises e)
      | Returns _ =>
          wait_loop fuel client txid timeout start (cur + 1) (S polls)
      end
  end.
Proof.
  intros Hcur. simpl. rewrite (proj2 (Z.ltb_lt _ _) Hcur). unfold verdict.
  destruct (pending_transaction_info client txid polls) as [d|e]; [|done].
  destruct (default (PyInt 0) (d !! "confirmed-round")) as [n| |]; try done.
  simpl. destruct (0 <? n); [done|].
  destruct (d !! "pool-error") as [v|]; [|done].
  by destruct (truthy v).
Qed.

Lemma wait_loop_out_of_time fuel client txid timeout start cur polls :
  start + timeout <= cur ->
  wait_loop (S fuel) client txid timeout start cur polls =
    Some (Raises (NotFoundInRounds timeout)).
Proof. intros Hcur. simpl. by rewrite (proj2 (Z.ltb_ge _ _) Hcur). Qed.

(** The first answer with a verdict, reached in time, decides. *)
Lemma wait_loop_decides client txid timeout start v k :
  (forall r, status_after_block client r = Returns tt) ->
  forall fuel j,
    (k < fuel)%nat -> Z.of_nat (j + k) < timeout ->
    (forall i, (i < k)%nat ->
       verdict (pending_transaction_info client txid (j + i)) = None) ->
    verdict (pending_transaction_info client txid (j + k)) = Some v ->
    wait_loop fuel client txid timeout start (start + Z.of_nat j) j = Some v.
Proof.
  intros Hblock. induction k as [|k IH]; intros fuel j Hfuel Htime Hnone Hv.
  - destruct fuel as [|fuel]; [lia|].
    rewrite wait_loop_step by lia.
    rewrite Nat.add_0_r in Hv. by rewrite Hv.
  - destruct fuel as [|fuel]; [lia|].
    rewrite wait_loop_step by lia.
    specialize (Hnone 0%nat ltac:(lia)) as H0. rewrite Nat.add_0_r in H0.
    rewrite H0, Hblock.
    replace (start + Z.of_nat j + 1) with (start + Z.of_nat (S j)) by lia.
    apply IH; [lia | lia | |].
    + intros i Hi. replace (S j + i)%nat with (j + S i)%nat by lia.
      apply Hnone. lia.
    + by replace (S j + k)%nat with (j + S k)%nat by lia.
Qed.

(** No verdict within the rounds allowed: the wait gives up. *)
Lemma wait_loop_gives_up client txid timeout start m :
  (forall r, status_after_block client r = Returns tt) ->
  forall fuel j,
    (m < fuel)%nat -> Z.of_nat j + Z.of_nat m = Z.max timeout (Z.of_nat j) ->
    (forall i, (i < m)%nat ->
       verdict (pending_transaction_info client txid (j + i)) = None) ->
    wait_loop fuel client txid timeout start (start + Z.of_nat j) j =
      Some (Raises (NotFoundInRounds timeout)).
Proof.
  intros Hblock. induction m as [|m IH]; intros fuel j Hfuel Hm Hnone.
  - destruct fuel as [|fuel]; [lia|].
    apply wait_loop_out_of_time. lia.
  - destruct fuel as [|fuel]; [lia|].
    rewrite wait_loop_step by lia.
    specialize (Hnone 0%nat ltac:(lia)) as H0. rewrite Nat.add_0_r in H0.
    rewrite H0, Hblock.
    replace (start + Z.of_nat j + 1) with (start + Z.of_nat (S j)) by lia.
    apply IH; [lia | lia |].
    intros i Hi. replace (S j + i)%nat with (j + S i)%nat by lia.
    apply Hnone. lia.
Qed.

Lemma wait_with_status client txid timeout fuel st n :
  status client = Returns st -> st !! "last-round" = Some (PyInt n) ->
  wait_for_confirmation fuel client txid timeout =
    wait_loop fuel client txid timeout (n + 1) (n + 1) 0.
Proof. intros Hst Hn. unfold wait_for_confirmation. by rewrite Hst, Hn. Qed.
End WaitForConfirmation.

(** X21.  [wait_for_confirmation] returns what the first decisive answer
    says.  With the node answering [status()] with an integer
    "last-round" and answering every [status_after_block], let answer
    [k] to [pending_transaction_info] be the first that decides
    anything, with [k] below [timeout]: the function then ends with what
    that answer decides, for any sufficient number of iterations.  It
    returns the answer if its "confirmed-round" is positive, returns
    [None] if the request itself failed, raises the pool error if
    "pool-error" holds, and raises on a missing "pool-error" or a
    "confirmed-round" that is no integer.  A confirmation that would come
    at answer [timeout] or later is never seen. *)
Theorem wait_returns_first_decisive_answer client txid timeout st n k v fuel :
  PartialFillClient.status client = PartialFillClient.Returns st ->
  st !! "last-round" = Some (PartialFillClient.PyInt n) ->
  (forall r, PartialFillClient.status_after_block client r =
             PartialFillClient.Returns tt) ->
  Z.of_nat k < timeout -> (k < fuel)%nat ->
  (forall i, (i < k)%nat ->
     PartialFillClient.verdict
       (PartialFillClient.pending_transaction_info client txid i) = None) ->
  PartialFillClient.verdict
    (PartialFillClient.pending_transaction_info client txid k) = Some v ->
  PartialFillClient.wait_for_confirmation fuel client txid timeout = Some v.
Proof.
  intros Hst Hn Hblock Hk Hfuel Hnone Hv.
  rewrite (wait_with_status client txid timeout fuel st n Hst Hn).
  replace (n + 1) with (n + 1 + Z.of_nat 0) at 2 by (simpl; lia).
  by apply (wait_loop_decides client txid timeout (n + 1) v k Hblock fuel 0%nat).
Qed.

(** The node confirms at the second request; with [timeout] 5 the
    second answer is returned. *)
Lemma wait_returns_first_decisive_answer_witness :
  PartialFillClient.wait_for_confirmation 6 PartialFillClient.node_confirming
    "TX" 5 =
  Some (PartialFillClient.Returns (Some PartialFillClient.confirmed_at_102)).
Proof.
  apply (wait_returns_first_decisive_answer PartialFillClient.node_confirming
           "TX" 5 {[ "last-round" := PartialFillClient.PyInt 100 ]} 100 1);
    [reflexivity | reflexivity | reflexivity | lia | lia |
    | vm_compute; reflexivity].
  intros i Hi. assert (i = 0%nat) as -> by lia. vm_compute. reflexivity.
Defined.

(** X22.  [wait_for_confirmation] gives up after [timeout] answers.  If
    none of the first [timeout] answers decides anything, the function
    raises its "not found in timeout rounds" exception, for any
    sufficient number of iterations; with [timeout] zero or negative it
    raises at once, without asking for the transaction at all.  The loop
    never needs more than [timeout] iterations. *)
Theorem wait_gives_up_after_timeout client txid timeout st n fuel :
  PartialFillClient.status client = PartialFillClient.Returns st ->
  st !! "last-round" = Some (PartialFillClient.PyInt n) ->
  (forall r, PartialFillClient.status_after_block client r =
             PartialFillClient.Returns tt) ->
  (Z.to_nat timeout < fuel)%nat ->
  (forall i, Z.of_nat i < timeout ->
     PartialFillClient.verdict
       (PartialFillClient.pending_transaction_info client txid i) = None) ->
  PartialFillClient.wait_for_confirmation fuel client txid timeout =
    Some (PartialFillClient.Raises (PartialFillClient.NotFoundInRounds timeout)).
Proof.
  intros Hst Hn Hblock Hfuel Hnone.
  rewrite (wait_with_status client txid timeout fuel st n Hst Hn).
  replace (n + 1) with (n + 1 + Z.of_nat 0) at 2 by (simpl; lia).
  apply (wait_loop_gives_up client txid timeout (n + 1) (Z.to_nat timeout)
           Hblock fuel 0%nat); [done | lia |].
  intros i Hi. apply Hnone. lia.
Qed.

(** A node that never confirms: after 5 answers the wait gives up. *)
Lemma wait_gives_up_after_timeout_witness :
  PartialFillClient.wait_for_confirmation 6 PartialFillClient.node_silent "TX" 5 =
  Some (PartialFillClient.Raises (PartialFillClient.NotFoundInRounds 5)).
Proof.
  apply (wait_gives_up_after_timeout PartialFillClient.node_silent "TX" 5
           {[ "last-round" := PartialFillClient.PyInt 100 ]} 100);
    [reflexivity | reflexivity | reflexivity | vm_compute; lia |].
  intros i _. vm_compute. reflexivity.
Defined.

(** ** Settlement in the fixed and the ETH-to-ALGO contract *)

Section SettleInversions.
Implicit Types (c : call) (s : state).

Lemma fixed_withdraw_inv c s s' :
  HTLCBridgeFixed.withdraw_htlc c s = Ok tt s' ->
  has_record s (Txn_sender c) /\
  lget s (Txn_sender c) withdrawn_key = VInt 0 /\
  lget s (Txn_sender c) refunded_key = VInt 0 /\
  s' = claimed (Txn_sender c) s.
Proof.
  unfold HTLCBridgeFixed.withdraw_htlc. intros H. teal_inv H. teal_facts.
  unfold claimed, has_record. autorewrite with teal. eauto.
Qed.

Lemma fixed_refund_inv c s s' :
  HTLCBridgeFixed.refund_htlc c s = Ok tt s' ->
  has_record s (Txn_sender c) /\
  lget s (Txn_sender c) withdrawn_key = VInt 0 /\
  lget s (Txn_sender c) refunded_key = VInt 0 /\
  s' = refunded_to (Txn_sender c) (lget s (Txn_sender c) initiator_key) s.
Proof.
  unfold HTLCBridgeFixed.refund_htlc. intros H. teal_inv H. teal_facts.
  unfold refunded_to, has_record. autorewrite with teal. eauto.
Qed.

Lemma e2a_refund_inv c s s' :
  EthToAlgo.refund_htlc c s = Ok tt s' ->
  has_record s (Txn_sender c) /\
  lget s (Txn_sender c) withdrawn_key = VInt 0 /\
  lget s (Txn_sender c) refunded_key = VInt 0 /\
  s' = refunded_to (Txn_sender c) (VBytes (Txn_sender c)) s.
Proof.
  unfold EthToAlgo.refund_htlc. intros H. teal_inv H. teal_facts.
  unfold refunded_to, has_record. autorewrite with teal. eauto.
Qed.

Lemma e2a_claim_inv' c s s' :
  EthToAlgo.claim_htlc c s = Ok tt s' ->
  has_record s (Txn_sender c) /\
  lget s (Txn_sender c) withdrawn_key = VInt 0 /\
  lget s (Txn_sender c) refunded_key = VInt 0 /\
  s' = claimed (Txn_sender c) s.
Proof. apply fixed_withdraw_inv. Qed.

(** The flags a create leaves. *)
Lemma fixed_create_flags c s s' :
  HTLCBridgeFixed.create_htlc c s = Ok tt s' ->
  lget s' (Txn_sender c) withdrawn_key = VInt 0 /\
  lget s' (Txn_sender c) refunded_key = VInt 0.
Proof.
  intros H. apply fixed_create_inv in H
    as (amt & tl & mn & mx & _ & _ & _ & _ & _ & _ & _ & _ & _ & Hw & Hr & _).
  done.
Qed.

Lemma e2a_create_flags c s s' :
  EthToAlgo.create_htlc c s = Ok tt s' ->
  lget s' (Txn_sender c) withdrawn_key = VInt 0 /\
  lget s' (Txn_sender c) refunded_key = VInt 0.
Proof.
  unfold EthToAlgo.create_htlc. intros H. teal_inv H. teal_facts.
  by autorewrite with teal.
Qed.
End SettleInversions.

Lemma claimed_effect a s :
  has_record s a -> lget s a withdrawn_key = VInt 0 ->
  lget s a refunded_key = VInt 0 -> record_effect a s (claimed a s).
Proof.
  intros Hrec Hw Hr. right; right. unfold claimed.
  autorewrite with teal. rewrite Hr. eauto 10.
Qed.

Lemma refunded_effect a to s :
  has_record s a -> lget s a withdrawn_key = VInt 0 ->
  lget s a refunded_key = VInt 0 -> record_effect a s (refunded_to a to s).
Proof.
  intros Hrec Hw Hr. right; right. unfold refunded_to.
  autorewrite with teal. rewrite Hw. eauto 10.
Qed.

Lemma fixed_handler_effect o c s s' :
  HTLCBridgeFixed.handler o c s = Ok tt s' -> record_effect (Txn_sender c) s s'.
Proof.
  destruct o; simpl; intros H.
  - right; left. pose proof (fixed_create_flags c s s' H) as [Hw Hr].
    apply fixed_create_shape in H as [H0 Hrec]. done.
  - apply fixed_withdraw_inv in H as (Hrec & Hw & Hr & ->).
    by apply claimed_effect.
  - apply fixed_refund_inv in H as (Hrec & Hw & Hr & ->).
    by apply refunded_effect.
  - apply fixed_status_shape in H as ->. by left.
  - apply fixed_update_shape in H as (_ & _ & k & v & _ & _ & ->). by left.
Qed.

Lemma e2a_handler_effect o c s s' :
  EthToAlgo.handler o c s = Ok tt s' -> record_effect (Txn_sender c) s s'.
Proof.
  destruct o; simpl; intros H.
  - right; left. pose proof (e2a_create_flags c s s' H) as [Hw Hr].
    apply e2a_create_shape in H as [H0 Hrec]. done.
  - apply e2a_claim_inv' in H as (Hrec & Hw & Hr & ->).
    by apply claimed_effect.
  - apply e2a_refund_inv in H as (Hrec & Hw & Hr & ->).
    by apply refunded_effect.
Qed.

Section Lifecycle.
Context {Op : Type} (handler : Op -> M unit) (settling : list Op).
Hypothesis handler_in :
  forall o, handler o ∈ (record_handlers ++ update_handlers)%list.
Hypothesis handler_effect :
  forall o c s s', handler o c s = Ok tt s' -> record_effect (Txn_sender c) s s'.
Hypothesis settling_needs_open :
  forall o c s s', o ∈ settling -> handler o c s = Ok tt s' ->
    lget s (Txn_sender c) withdrawn_key = VInt 0 /\
    lget s (Txn_sender c) refunded_key = VInt 0.
Implicit Types (s : state) (a : string) (oc : Op * call)
  (tr : list (Op * call)).

Lemma ops_step_effect a s oc :
  record_effect a s (commit (handler oc.1) oc.2 s).
Proof.
  destruct oc as [o c]. simpl. unfold commit.
  destruct (handler o c s) as [[] s' | e s'] eqn:H; [|by left].
  destruct (decide (a = Txn_sender c)) as [-> | Hne];
    [by apply (handler_effect o)|].
  left. intros k. apply lget_locals.
  pose proof (handler_in o) as Hin. apply elem_of_app in Hin as [Hin | Hin].
  - by destruct (record_handlers_respect _ Hin c s tt s' H) as [_ ->].
  - by destruct (update_handlers_respect _ Hin c s tt s' H) as [-> _].
Qed.

Lemma ops_inv_step a s oc :
  bridge_inv a s -> bridge_inv a (commit (handler oc.1) oc.2 s).
Proof.
  unfold bridge_inv, has_record. intros Hinv.
  destruct (ops_step_effect a s oc)
    as [Hsame | [(Hid & Hrec & Hw & Hr) | (Hrec & Hw & Hr & Hid & Hfl)]].
  - by rewrite !Hsame.
  - left. done.
  - right. split; [|done]. unfold has_record in *. by rewrite Hid.
Qed.

Lemma ops_inv_run a tr s : bridge_inv a s -> bridge_inv a (run_ops handler tr s).
Proof.
  revert s. induction tr as [|oc tr IH]; intros s H; [done|].
  simpl. by apply IH, ops_inv_step.
Qed.

Lemma ops_terminal_step a s oc :
  bridge_inv a s -> record_terminal a s ->
  forall k, lget (commit (handler oc.1) oc.2 s) a k = lget s a k.
Proof.
  intros Hinv Ht.
  destruct (ops_step_effect a s oc)
    as [Hsame | [(Hid & _) | (_ & Hw & Hr & _)]]; [done| |].
  - exfalso. unfold bridge_inv, record_terminal, has_record in *.
    destruct Hinv as [[Hw Hr] | [[id Hrec] _]]; [|congruence].
    destruct Ht; congruence.
  - exfalso. unfold record_terminal in Ht. destruct Ht; congruence.
Qed.

Lemma ops_terminal_run a tr s :
  bridge_inv a s -> record_terminal a s ->
  forall k, lget (run_ops handler tr s) a k = lget s a k.
Proof.
  revert s. induction tr as [|oc tr IH]; intros s Hinv Ht k; [done|].
  simpl. pose proof (ops_terminal_step a s oc Hinv Ht) as Hs.
  rewrite IH, Hs; [done | by apply ops_inv_step |].
  unfold record_terminal in *. by rewrite !Hs.
Qed.

Lemma settles_once_of_effect : settles_once_spec handler (run_ops handler) settling.
Proof.
  intros a tr s Hw Hr.
  assert (bridge_inv a (run_ops handler tr s)) as Hinv
    by (apply ops_inv_run; by left).
  split; [by apply bridge_inv_not_both|].
  intros Ht. split.
  - intros o c s' Ho <- H.
    destruct (settling_needs_open o c _ s' Ho H) as [Hw' Hr'].
    destruct Ht; congruence.
  - intros post k. by apply ops_terminal_run.
Qed.
End Lifecycle.

(** X23.  Settlement happens at most once, also in the fixed and the
    ETH-to-ALGO contract.  Starting from any state in which the two
    flags of an account are 0 and over every sequence of calls of the
    handlers of the contract, by any senders: the flags [Withdrawn] and
    [Refunded] of the account are never both 1; and once one of them is
    1, every later claim/withdraw and refund sent by the account fails,
    and no later sequence of calls changes any key of its record. *)
Theorem settlement_happens_once :
  settles_once_spec HTLCBridgeFixed.handler HTLCBridgeFixed.run
    [HTLCBridgeFixed.OpWithdraw; HTLCBridgeFixed.OpRefund] /\
  settles_once_spec EthToAlgo.handler EthToAlgo.run
    [EthToAlgo.OpClaim; EthToAlgo.OpRefund].
Proof.
  split.
  - apply (settles_once_of_effect HTLCBridgeFixed.handler);
      [apply fixed_handler_in | apply fixed_handler_effect |].
    intros o c s s' Ho H.
    repeat (apply elem_of_cons in Ho as [-> | Ho]);
      try (by apply elem_of_nil in Ho); simpl in H.
    + by apply fixed_withdraw_inv in H as (_ & ? & ? & _).
    + by apply fixed_refund_inv in H as (_ & ? & ? & _).
  - apply (settles_once_of_effect EthToAlgo.handler);
      [apply e2a_handler_in | apply e2a_handler_effect |].
    intros o c s s' Ho H.
    repeat (apply elem_of_cons in Ho as [-> | Ho]);
      try (by apply elem_of_nil in Ho); simpl in H.
    + by apply e2a_claim_inv' in H as (_ & ? & ? & _).
    + by apply e2a_refund_inv in H as (_ & ? & ? & _).
Qed.

(** ALICE's record "s1" was claimed at time 10; a refund sent after the
    timelock leaves her [Refunded] flag as it was. *)
Lemma settlement_happens_once_witness :
  lget (EthToAlgo.run [(EthToAlgo.OpRefund, e2a_refund "s1" 8000)]
          e2a_s1_claimed) "ALICE" refunded_key =
  lget e2a_s1_claimed "ALICE" refunded_key.
Proof.
  destruct settlement_happens_once as [_ Hspec].
  destruct (Hspec "ALICE"
              [(EthToAlgo.OpCreate, e2a_create "s1" 1000 (Sha256 "abc") 7200 0);
               (EthToAlgo.OpClaim, e2a_claim "s1" "abc" 10)] empty_state)
    as [_ Hterm]; [reflexivity | reflexivity |].
  destruct Hterm as [_ Hkept]; [left; vm_compute; reflexivity|].
  apply (Hkept [(EthToAlgo.OpRefund, e2a_refund "s1" 8000)] refunded_key).
Defined.

(** ** The global state of the partial-fill engine *)

Section PartialFillTyped.
Import PartialFill.
Implicit Types (c : call) (s : state).

Lemma pf_typed_gput_uint k n s :
  k ∈ pf_uint_keys -> pf_typed s -> pf_typed (gput k (VInt n) s).
Proof.
  intros Hk Hs k' v. unfold gput; simpl.
  destruct (decide (k = k')) as [<- | Hne].
  - rewrite lookup_insert_eq. intros [= <-]. by left.
  - rewrite lookup_insert_ne by done. apply Hs.
Qed.

Lemma pf_typed_gput_bytes k b s :
  k ∈ pf_bytes_keys -> pf_typed s -> pf_typed (gput k (VBytes b) s).
Proof.
  intros Hk Hs k' v. unfold gput; simpl.
  destruct (decide (k = k')) as [<- | Hne].
  - rewrite lookup_insert_eq. intros [= <-]. by right.
  - rewrite lookup_insert_ne by done. apply Hs.
Qed.

Lemma pf_typed_empty : pf_typed empty_state.
Proof. intros k v H. simpl in H. by rewrite lookup_empty in H. Qed.

Lemma pf_htlc_creation_shape c s s' :
  handle_htlc_creation c s = Ok tt s' ->
  exists h tl rcp mk fl, s' = pf_htlc_set h tl rcp mk fl s.
Proof.
  unfold handle_htlc_creation. intros H. teal_inv H. teal_facts.
  unfold pf_htlc_set. eauto 6.
Qed.

Lemma pf_creation_shape c s :
  handle_creation c s =
    Ok tt (gput partial_fills_enabled (VInt 0) (gput refunded (VInt 0)
          (gput executed (VInt 0) (gput remaining_amount (VInt 0)
          (gput total_filled (VInt 0) (gput total_deposited (VInt 0) s)))))).
Proof. reflexivity. Qed.

Lemma pf_typed_handler o c s s' :
  handler o c s = Ok tt s' -> pf_typed s -> pf_typed s'.
Proof.
  intros H Hs. destruct o; simpl in H.
  - apply pf_htlc_creation_shape in H as (h & tl & rcp & mk & fl & ->).
    unfold pf_htlc_set.
    apply pf_typed_gput_uint; [nth_elem 6|].
    apply pf_typed_gput_bytes; [nth_elem 2|].
    apply pf_typed_gput_bytes; [nth_elem 1|].
    apply pf_typed_gput_uint; [nth_elem 5|].
    by apply pf_typed_gput_bytes; [nth_elem 0|].
  - apply pf_partial_fill_inv in H
      as (f & sec & t & r & _ & _ & _ & _ & _ & _ & _ & _ & _ & ->).
    unfold filled.
    assert (pf_typed (gput remaining_amount (VInt (r - f))
                        (gput total_filled (VInt (t + f)) s))) as Hs'.
    { apply pf_typed_gput_uint; [nth_elem 2|].
      by apply pf_typed_gput_uint; [nth_elem 1|]. }
    destruct (r - f =? 0); [|done].
    by apply pf_typed_gput_uint; [nth_elem 3|].
  - apply pf_withdrawal_inv in H as (_ & _ & _ & ->).
    by apply pf_typed_gput_uint; [nth_elem 4|].
  - apply pf_public_claim_inv in H as (sec & _ & _ & _ & _ & ->).
    by apply pf_typed_gput_uint; [nth_elem 3|].
  - apply pf_deposit_inv in H as (a & d & _ & _ & _ & ->).
    unfold deposited.
    apply pf_typed_gput_uint; [nth_elem 2|].
    by apply pf_typed_gput_uint; [nth_elem 0|].
Qed.

Lemma pf_typed_step c s : pf_typed s -> pf_typed (commit program c s).
Proof.
  intros Hs. unfold commit.
  destruct (program c s) as [[] s' | e s'] eqn:E; [|done].
  destruct (decide (Txn_application_id c = 0)) as [Hid | Hid].
  - unfold program in E. rewrite Cond_cons in E. unfold IfElse in E.
    rewrite app_id_test, Hid in E. change (0 =? 0) with true in E.
    cbv iota in E. change (1 =? 0) with false in E. cbv iota in E.
    rewrite pf_creation_shape in E. injection E as <-.
    apply pf_typed_gput_uint; [nth_elem 6|].
    apply pf_typed_gput_uint; [nth_elem 4|].
    apply pf_typed_gput_uint; [nth_elem 3|].
    apply pf_typed_gput_uint; [nth_elem 2|].
    apply pf_typed_gput_uint; [nth_elem 1|].
    by apply pf_typed_gput_uint; [nth_elem 0|].
  - apply pf_program_ok in E as [o H]; [|done].
    by apply (pf_typed_handler o c s).
Qed.

Lemma pf_typed_exec cs s : pf_typed s -> pf_typed (pf_exec cs s).
Proof.
  revert s. induction cs as [|c cs IH]; intros s Hs; [done|].
  simpl. by apply IH, pf_typed_step.
Qed.

(** The keys holding values of one kind are among the keys of that
    kind. *)
Lemma slots_bound (P : value -> bool) (keys : list string) s :
  NoDup keys ->
  (forall k v, globals s !! k = Some v -> P v -> k ∈ keys) ->
  (size (filter (fun kv : string * value => P kv.2) (globals s))
     <= length keys)%nat.
Proof.
  intros Hnd Hin.
  rewrite <- (size_dom (D := gset string)).
  rewrite <- (size_list_to_set (C := gset string) keys Hnd).
  apply subseteq_size. intros k Hk.
  apply elem_of_dom in Hk as [v Hv].
  apply map_lookup_filter_Some in Hv as [Hv HP]. simpl in HP.
  apply elem_of_list_to_set. by apply (Hin k v).
Qed.

Lemma pf_typed_slots s :
  pf_typed s ->
  (uint_slots s <= 7)%nat /\ (byte_slots s <= 3)%nat.
Proof.
  intros Hs. split.
  - apply (slots_bound is_uint pf_uint_keys);
      [apply (bool_decide_unpack _); vm_compute; exact I|].
    intros k v Hv HP.
    destruct (Hs k v Hv) as [[Hk _] | [_ Hb]]; [done|].
    by destruct v.
  - apply (slots_bound is_bytes pf_bytes_keys);
      [apply (bool_decide_unpack _); vm_compute; exact I|].
    intros k v Hv HP.
    destruct (Hs k v Hv) as [[_ Hu] | [Hk _]]; [|done].
    by destruct v.
Qed.
End PartialFillTyped.

(** X24.  The state of the partial-fill engine stays within its schema.
    From a new application and over every sequence of calls of the
    program, every global key is one of the ten the engine names: the
    five counters and flags, [timelock] and [partial_fills_enabled] hold
    integers, and [hashlock], [recipient] and [maker] hold byte strings.
    So at most 7 integer and 3 byte-string globals are ever in use,
    within the 10 and 5 that [get_global_schema] of the client in
    AlgorandPartialFillBridge.py declares, and no local state at all,
    within its [get_local_schema]. *)
Theorem partial_fill_state_fits_schema cs :
  pf_typed (pf_exec cs empty_state) /\
  (uint_slots (pf_exec cs empty_state)
     <= PartialFillClient.num_uints PartialFillClient.get_global_schema)%nat /\
  (byte_slots (pf_exec cs empty_state)
     <= PartialFillClient.num_byte_slices PartialFillClient.get_global_schema)%nat /\
  locals (pf_exec cs empty_state) = ∅.
Proof.
  assert (pf_typed (pf_exec cs empty_state)) as Ht
    by apply pf_typed_exec, pf_typed_empty.
  destruct (pf_typed_slots _ Ht) as [Hu Hb].
  split; [done|]. simpl. split; [lia|]. split; [lia|].
  by destruct (pf_exec_globals_only cs empty_state) as [-> _].
Qed.

(** ** Create in the one-way contracts *)

Section OneWayCreate.
Implicit Types (c : call) (s : state).

Lemma e2a_create_inv c s s' :
  EthToAlgo.create_htlc c s = Ok tt s' ->
  exists id rcp amt h tl,
    length (Txn_application_args c) = 6%nat /\
    arg_bytes c 1 = Some id /\ arg_bytes c 2 = Some rcp /\
    arg_uint c 3 = Some amt /\ arg_bytes c 4 = Some h /\
    arg_uint c 5 = Some tl /\ 0 < amt /\
    lget s (Txn_sender c) htlc_id_key = VInt 0 /\
    s' = e2a_created (Txn_sender c) (Global_current_application_address c)
           id rcp amt h tl s.
Proof.
  unfold EthToAlgo.create_htlc. intros H. teal_inv H. teal_facts.
  unfold e2a_created.
  do 5 eexists. repeat split; eauto; lia.
Qed.

(** The six arguments of a create, as the handler reads them. *)
Lemma six_args c id rcp amt h tl :
  length (Txn_application_args c) = 6%nat ->
  arg_bytes c 1 = Some id -> arg_bytes c 2 = Some rcp ->
  arg_uint c 3 = Some amt -> arg_bytes c 4 = Some h ->
  arg_uint c 5 = Some tl ->
  exists a0 a3 a5,
    Txn_application_args c = [a0; id; rcp; a3; h; a5] /\
    v_btoi (VBytes a3) = Some (VInt amt) /\
    v_btoi (VBytes a5) = Some (VInt tl).
Proof.
  unfold arg_bytes, arg_uint. intros Hl H1 H2 H3 H4 H5.
  destruct (Txn_application_args c)
    as [|a0 [|a1 [|a2 [|a3 [|a4 [|a5 [|]]]]]]]; try done.
  simpl in *. exists a0, a3, a5. simplify_eq. unfold v_btoi.
  destruct (String.length a3 <=? 8)%nat; [|done].
  destruct (String.length a5 <=? 8)%nat; [|done].
  by simplify_eq.
Qed.

Lemma e2a_create_ok c s id rcp amt h tl :
  length (Txn_application_args c) = 6%nat ->
  arg_bytes c 1 = Some id -> arg_bytes c 2 = Some rcp ->
  arg_uint c 3 = Some amt -> arg_bytes c 4 = Some h ->
  arg_uint c 5 = Some tl -> 0 < amt ->
  lget s (Txn_sender c) htlc_id_key = VInt 0 ->
  EthToAlgo.create_htlc c s =
    Ok tt (e2a_created (Txn_sender c) (Global_current_application_address c)
             id rcp amt h tl s).
Proof.
  intros Hl H1 H2 H3 H4 H5 Hamt Hid.
  destruct (six_args c id rcp amt h tl Hl H1 H2 H3 H4 H5)
    as (a0 & a3 & a5 & E & B3 & B5).
  unfold EthToAlgo.create_htlc, e2a_created. teal_unfold. rewrite E.
  cbn -[v_btoi]. rewrite B3, B5. teal_run. done.
Qed.

Lemma a2e_create_ok c s id rcp amt h tl :
  length (Txn_application_args c) = 6%nat ->
  arg_bytes c 1 = Some id -> arg_bytes c 2 = Some rcp ->
  arg_uint c 3 = Some amt -> arg_bytes c 4 = Some h ->
  arg_uint c 5 = Some tl -> 0 < amt ->
  lget s (Txn_sender c) htlc_id_key = VInt 0 ->
  AlgoToEth.create_htlc c s =
    Ok tt (a2e_created (Txn_sender c) (Global_current_application_address c)
             id rcp amt h tl s).
Proof.
  intros Hl H1 H2 H3 H4 H5 Hamt Hid.
  destruct (six_args c id rcp amt h tl Hl H1 H2 H3 H4 H5)
    as (a0 & a3 & a5 & E & B3 & B5).
  unfold AlgoToEth.create_htlc, a2e_created. teal_unfold. rewrite E.
  cbn -[v_btoi]. rewrite B3, B5. teal_run. done.
Qed.

Lemma e2a_created_open a app id rcp amt h tl s :
  open_record (e2a_created a app id rcp amt h tl s) a id tl h.
Proof. unfold open_record, e2a_created. by autorewrite with teal. Qed.
End OneWayCreate.



